(** * servecmd: the command-execution session (src/servecmd/cmd_session.py)

    A shallow embedding of [CmdSession], of the functions around it
    ([load_config], [load_all_configs], [to_base64], [process_web_cmd])
    and of [servecmd/util.py], together with the part of the Python
    runtime the session talks to: dynamically typed values, a POSIX
    directory tree, [string.Template], [glob.glob] and a subprocess.

    Conventions.
    - A Python [str] is represented by its UTF-8 encoding and a [bytes]
      object by its bytes; both are Rocq [string]s and the tag of the
      [value] tells them apart.  [s.encode('utf-8')] is then the identity
      and [b.decode('utf-8')] is a validity check.
    - The session object and the outside world (file tree, log sink, clock,
      random source, spawned processes) form one [state] that is threaded
      through a state-and-exception monad [M].
    - Library functions whose exact result the properties below do not
      depend on ([shlex], [os.path.abspath], [fnmatch]), the clock, the
      random source, the behaviour of the spawned shell and what the
      process is not allowed to delete are fields of an environment
      record [Env]; the properties hold for every environment.
    - The command registry (servecmd/cmd_manager.py), the JSON and YAML
      parsers and the request object of the web framework are parameters
      of the functions that use them. *)

From Stdlib Require Import ZArith NArith List Ascii String Lia Bool.
From stdpp Require Import base option list strings gmap pretty.

Local Open Scope string_scope.
Local Open Scope Z_scope.
Local Open Scope list_scope.

(** ** Python values *)

Inductive value :=
| VNone
| VBool (b : bool)
| VInt (z : Z)
| VStr (s : string)
| VBytes (b : string).

#[global] Instance value_eq_dec : EqDecision value.
Proof. solve_decision. Defined.

Inductive exn :=
| ValueError (msg : string)
| TypeError (msg : string)
| AttributeError (msg : string)
| KeyError (key : string)
| OSError (path : string)
| UnicodeDecodeError.

#[global] Instance exn_eq_dec : EqDecision exn.
Proof. solve_decision. Defined.

(** [bool(v)] *)
Definition py_truthy (v : value) : bool :=
  match v with
  | VNone => false
  | VBool b => b
  | VInt z => negb (z =? 0)
  | VStr s => negb (String.eqb s "")
  | VBytes b => negb (String.eqb b "")
  end.

(** [a or b] *)
Definition py_or (a b : value) : value := if py_truthy a then a else b.

(** [a == b] on the values above: [True == 1] and [False == 0]; a [str]
    never equals a [bytes]. *)
Definition py_eq (a b : value) : bool :=
  match a, b with
  | VNone, VNone => true
  | VBool x, VBool y => Bool.eqb x y
  | VBool x, VInt y | VInt y, VBool x => (if x then 1 else 0) =? y
  | VInt x, VInt y => x =? y
  | VStr x, VStr y => String.eqb x y
  | VBytes x, VBytes y => String.eqb x y
  | _, _ => false
  end.

Definition hex_digit (n : N) : ascii :=
  match n with
  | 0 => "0" | 1 => "1" | 2 => "2" | 3 => "3" | 4 => "4" | 5 => "5"
  | 6 => "6" | 7 => "7" | 8 => "8" | 9 => "9" | 10 => "a" | 11 => "b"
  | 12 => "c" | 13 => "d" | 14 => "e" | _ => "f"
  end%N%char.

(** [k] lower-case hexadecimal digits of [n], most significant first
    (['%0kx' % n] for [n < 16^k]). *)
Fixpoint hex_digits (k : nat) (n : N) : string :=
  match k with
  | O => ""
  | S k' => hex_digits k' (n / 16) +:+ String (hex_digit (n mod 16)) ""
  end.

(** [repr(b)] of a bytes object. *)
Fixpoint str_mem (c : ascii) (s : string) : bool :=
  match s with
  | EmptyString => false
  | String a r => Ascii.eqb a c || str_mem c r
  end.

Definition repr_byte (quote c : ascii) : string :=
  if Ascii.eqb c quote || Ascii.eqb c "\"%char then String "\"%char (String c "")
  else if Ascii.eqb c "009"%char then "\t"
  else if Ascii.eqb c "010"%char then "\n"
  else if Ascii.eqb c "013"%char then "\r"
  else if (N_of_ascii c <? 32)%N || (127 <=? N_of_ascii c)%N
       then "\x" +:+ hex_digits 2 (N_of_ascii c)
  else String c "".

Fixpoint repr_body (quote : ascii) (b : string) : string :=
  match b with
  | EmptyString => ""
  | String c r => repr_byte quote c +:+ repr_body quote r
  end.

Definition bytes_repr (b : string) : string :=
  let quote := if str_mem "'"%char b && negb (str_mem "034"%char b)
               then "034"%char else "'"%char in
  "b" +:+ String quote (repr_body quote b) +:+ String quote "".

(** [str(v)] *)
Definition py_str (v : value) : string :=
  match v with
  | VNone => "None"
  | VBool true => "True"
  | VBool false => "False"
  | VInt z => pretty z
  | VStr s => s
  | VBytes b => bytes_repr b
  end.

(** ** Strings *)

(** [s.rstrip("/")] *)
Fixpoint rstrip_slash (s : string) : string :=
  match s with
  | EmptyString => ""
  | String c r =>
      match rstrip_slash r with
      | EmptyString => if Ascii.eqb c "/"%char then "" else String c ""
      | r' => String c r'
      end
  end.

(** [s.split(c)] *)
Fixpoint split_on (c : ascii) (s : string) : list string :=
  match s with
  | EmptyString => [""]
  | String a r =>
      if Ascii.eqb a c then "" :: split_on c r
      else match split_on c r with
           | h :: t => String a h :: t
           | [] => [String a ""]
           end
  end.

Definition starts_with (c : ascii) (s : string) : bool :=
  match s with
  | String a _ => Ascii.eqb a c
  | EmptyString => false
  end.

(** ** [base64.b64encode] *)

Definition b64_char (n : N) : ascii :=
  if (n <? 26)%N then ascii_of_N (65 + n)
  else if (n <? 52)%N then ascii_of_N (97 + (n - 26))
  else if (n <? 62)%N then ascii_of_N (48 + (n - 52))
  else if (n =? 62)%N then "+"%char else "/"%char.

Fixpoint b64encode (data : string) : string :=
  match data with
  | EmptyString => ""
  | String a EmptyString =>
      let x := N_of_ascii a in
      String (b64_char (x / 4)) (String (b64_char (x mod 4 * 16)) "==")
  | String a (String b EmptyString) =>
      let x := N_of_ascii a in let y := N_of_ascii b in
      String (b64_char (x / 4))
        (String (b64_char (x mod 4 * 16 + y / 16))
           (String (b64_char (y mod 16 * 4)) "="))
  | String a (String b (String c r)) =>
      let x := N_of_ascii a in let y := N_of_ascii b in
      let z := N_of_ascii c in
      String (b64_char (x / 4))
        (String (b64_char (x mod 4 * 16 + y / 16))
           (String (b64_char (y mod 16 * 4 + z / 64))
              (String (b64_char (z mod 64)) (b64encode r))))
  end.

(** ** [bytes.decode('utf-8')]: strict validation (no overlong forms, no
    surrogates, nothing above U+10FFFF). *)

Definition in_range (lo hi : N) (c : ascii) : bool :=
  ((lo <=? N_of_ascii c) && (N_of_ascii c <=? hi))%N.

Definition is_cont : ascii -> bool := in_range 128 191.

Fixpoint utf8_valid (b : string) : bool :=
  match b with
  | EmptyString => true
  | String c0 r0 =>
      if in_range 0 127 c0 then utf8_valid r0
      else match r0 with
      | EmptyString => false
      | String c1 r1 =>
          if in_range 194 223 c0 then is_cont c1 && utf8_valid r1
          else match r1 with
          | EmptyString => false
          | String c2 r2 =>
              if in_range 224 224 c0 then
                in_range 160 191 c1 && is_cont c2 && utf8_valid r2
              else if in_range 237 237 c0 then
                in_range 128 159 c1 && is_cont c2 && utf8_valid r2
              else if in_range 225 239 c0 then
                is_cont c1 && is_cont c2 && utf8_valid r2
              else match r2 with
              | EmptyString => false
              | String c3 r3 =>
                  if in_range 240 240 c0 then
                    in_range 144 191 c1 && is_cont c2 && is_cont c3
                    && utf8_valid r3
                  else if in_range 241 243 c0 then
                    is_cont c1 && is_cont c2 && is_cont c3 && utf8_valid r3
                  else if in_range 244 244 c0 then
                    in_range 128 143 c1 && is_cont c2 && is_cont c3
                    && utf8_valid r3
                  else false
              end
          end
      end
  end.

Definition decode_utf8 (b : string) : option string :=
  if utf8_valid b then Some b else None.

(** ** [uuid.uuid4] and its string form *)

(** The 128 bits of a version-4 UUID made from 16 random bytes: the variant
    and version bits are forced as [uuid.UUID.__init__] does. *)
Definition uuid4_int (r : N) : N :=
  let i := (r mod 2 ^ 128)%N in
  let i := N.lor (N.ldiff i (N.shiftl 49152 48)) (N.shiftl 32768 48) in
  N.lor (N.ldiff i (N.shiftl 61440 64)) (N.shiftl 4 76).

(** [str(u)]: the 32 hexadecimal digits in groups of 8-4-4-4-12. *)
Definition uuid_str (u : N) : string :=
  hex_digits 8 (u / 16 ^ 24) +:+ "-" +:+ hex_digits 4 (u / 16 ^ 20) +:+ "-"
  +:+ hex_digits 4 (u / 16 ^ 16) +:+ "-" +:+ hex_digits 4 (u / 16 ^ 12)
  +:+ "-" +:+ hex_digits 12 u.

(** ** The directory tree

    A tree maps the absolute location of every entry other than the root
    to a node.  Locations are lists of names, innermost name first (so the
    parent of a location is its tail and the root is the empty list).
    There are no symbolic links.  Permissions are not part of the tree:
    whether the process may delete an entry depends on who runs it, and is
    asked of the environment when a tree is removed ([rmtree]). *)

Inductive node :=
| Dir
| File (content : string).

#[global] Instance node_eq_dec : EqDecision node.
Proof. solve_decision. Defined.

Abbreviation loc := (list string).
Abbreviation tree := (gmap (list string) node).

(** A name a directory entry can have. *)
Definition is_name (s : string) : bool :=
  negb (String.eqb s "") && negb (String.eqb s ".")
  && negb (String.eqb s "..") && negb (str_mem "/"%char s).

Definition fs_lookup (t : tree) (p : loc) : option node :=
  match p with
  | [] => Some Dir
  | _ => t !! p
  end.

Definition is_dir_at (t : tree) (p : loc) : bool :=
  match fs_lookup t p with
  | Some Dir => true
  | _ => false
  end.

(** Path resolution as the kernel does it, one component at a time; every
    directory a component is looked up in must exist, the last component
    itself need not. *)
Fixpoint walk (t : tree) (cur : loc) (comps : list string) : option loc :=
  match comps with
  | [] => Some cur
  | c :: rest =>
      if is_dir_at t cur then
        if String.eqb c "" || String.eqb c "." then walk t cur rest
        else if String.eqb c ".." then walk t (tail cur) rest
        else walk t (c :: cur) rest
      else None
  end.

Definition start_of (cwd : loc) (p : string) : loc :=
  if starts_with "/"%char p then [] else cwd.

Definition resolve (t : tree) (cwd : loc) (p : string) : option loc :=
  if String.eqb p "" then None
  else walk t (start_of cwd p) (split_on "/"%char p).

(** [os.path.lexists] (equal to [os.path.exists] without symbolic links) *)
Definition lexists (t : tree) (cwd : loc) (p : string) : bool :=
  match resolve t cwd p with
  | Some k => bool_decide (is_Some (fs_lookup t k))
  | None => false
  end.

(** [os.path.isdir] *)
Definition isdir (t : tree) (cwd : loc) (p : string) : bool :=
  match resolve t cwd p with
  | Some k => is_dir_at t k
  | None => false
  end.

(** [os.makedirs(p, exist_ok=True)]: every missing directory on the way is
    created; [None] when a component exists and is not a directory. *)
Fixpoint makedirs_walk (t : tree) (cur : loc) (comps : list string)
  : option tree :=
  match comps with
  | [] => Some t
  | c :: rest =>
      if is_dir_at t cur then
        if String.eqb c "" || String.eqb c "." then makedirs_walk t cur rest
        else if String.eqb c ".." then makedirs_walk t (tail cur) rest
        else match fs_lookup t (c :: cur) with
             | Some Dir => makedirs_walk t (c :: cur) rest
             | Some (File _) => None
             | None => makedirs_walk (<[c :: cur := Dir]> t) (c :: cur) rest
             end
      else None
  end.

Definition makedirs (t : tree) (cwd : loc) (p : string) : option tree :=
  if String.eqb p "" then None
  else makedirs_walk t (start_of cwd p) (split_on "/"%char p).

(** Where [open(p, 'wb')] creates or truncates a file: the parent must be
    a directory and the target must not be one. *)
Definition open_wb (t : tree) (cwd : loc) (p : string) : option loc :=
  match resolve t cwd p with
  | Some k =>
      match fs_lookup t k with
      | Some Dir => None
      | _ => Some k
      end
  | None => None
  end.

(** What [open(p, 'rb').read()] returns. *)
Definition open_rb (t : tree) (cwd : loc) (p : string) : option string :=
  match resolve t cwd p with
  | Some k =>
      match fs_lookup t k with
      | Some (File c) => Some c
      | _ => None
      end
  | None => None
  end.

(** An entry that [rmtree] cannot take away: deleting it fails ([stuck]),
    or it is a directory that is left with something in it. *)
Definition held (stuck : loc -> bool) (t : tree) (q : loc) : bool :=
  existsb (fun e : loc * node => stuck e.1 && bool_decide (q `suffix_of` e.1))
    (map_to_list t).

(** The entries at or below [k] go, but for those that are held. *)
Definition remove_below (stuck : loc -> bool) (k : loc) (t : tree) : tree :=
  filter (fun e : loc * node => ~ k `suffix_of` e.1 \/ held stuck t e.1 = true)
    t.

(** [shutil.rmtree(p, ignore_errors=True)]: a path that does not name a
    directory is an error, and so is every [unlink] and [rmdir] that
    fails; errors are ignored, so that what could not be deleted stays,
    and with it the directories above it.  [stuck] tells the entries whose
    own deletion fails. *)
Definition rmtree (stuck : loc -> bool) (t : tree) (cwd : loc) (p : string)
  : tree :=
  match resolve t cwd p with
  | Some k => if is_dir_at t k then remove_below stuck k t else t
  | None => t
  end.

(** [os.scandir]: the names in directory [k] (all of them, or with
    [dironly] the directories), in the order the tree enumerates them. *)
Definition entries (t : tree) (k : loc) (dironly : bool) : list string :=
  omap (fun e : loc * node =>
          match e.1 with
          | n :: k' =>
              if bool_decide (k' = k)
                 && (negb dironly || bool_decide (e.2 = Dir))
              then Some n else None
          | [] => None
          end) (map_to_list t).

(** Every entry has a proper name. *)
Definition tree_ok (t : tree) : Prop :=
  forall q nd, t !! q = Some nd -> Forall (fun n => is_name n = true) q.

(** ** Command specifications (the [cmd_config] dictionary)

    A dictionary read only through [d.get(k)] is represented by the
    results of those calls ([VNone] for a missing key); a key read through
    [d[k]] or [d.get(k, default)] is an [option]. *)

Inductive cfg_field (A : Type) :=
| Missing
| Null
| Given (a : A).
Arguments Missing {A}.
Arguments Null {A}.
Arguments Given {A} a.

Record param_config := ParamConfig {
  pc_required : value;   (* param_config.get('required') *)
  pc_type : value;       (* param_config.get('type') *)
  pc_filename : value;   (* param_config.get('filename') *)
}.

Record return_dict := ReturnDict {
  rd_name : option value;
  rd_type : option value;
  rd_filename : option value;
  rd_glob : option value;
  rd_mimetype : option value;
  rd_encoding : option value;
}.

Inductive return_item :=
| RetVal (v : value)          (* 'stdout', 'stderr' or any other scalar *)
| RetDict (d : return_dict).

Record cmd_config := CmdConfig {
  cfg_cwd : value;   (* cmd_config.get("cwd", "") *)
  cfg_params : cfg_field (list (string * option param_config));
  cfg_command : option (list value);
  cfg_return : cfg_field (list return_item);
}.

(** ** Execution results *)

Record payload := Payload {
  body : string;
  mimetype : value;
  encoding : value;
}.

Inductive result_value :=
| RText (s : string)
| RPayload (p : payload)
| RList (l : list (string * payload))   (* 'fielname' and the payload *)
| RJobId (j : option string).

(** ** The session, the outside world and the monad *)

Inductive log_data :=
| LogCmd (job : option string) (cmd : string)
| LogExec (job : option string) (returncode : Z) (used_time : Z)
    (stderr : string).

Inductive event :=
| EvMakedirs (path : string)
| EvOpen (writing : bool) (path : string) (target : option loc)
| EvRmtree (path : string)
| EvSpawn (cmd : string) (cwd : string)
| EvLog (data : log_data) (created : Z).

Record state := State {
  job_id : option string;               (* self.job_id *)
  _params_cache : gmap string value;    (* self._params_cache *)
  fs : tree;
  proc_cwd : loc;                       (* os.getcwd() *)
  trace : list event;
  ticks : nat;                          (* clock readings so far *)
  draws : nat;                          (* UUIDs drawn so far *)
}.

Definition set_job_id (j : option string) (s : state) : state :=
  State j (_params_cache s) (fs s) (proc_cwd s) (trace s) (ticks s) (draws s).
Definition set_cache (c : gmap string value) (s : state) : state :=
  State (job_id s) c (fs s) (proc_cwd s) (trace s) (ticks s) (draws s).
Definition set_fs (t : tree) (s : state) : state :=
  State (job_id s) (_params_cache s) t (proc_cwd s) (trace s) (ticks s)
    (draws s).
Definition add_event (e : event) (s : state) : state :=
  State (job_id s) (_params_cache s) (fs s) (proc_cwd s) (trace s ++ [e])
    (ticks s) (draws s).
Definition tick (s : state) : state :=
  State (job_id s) (_params_cache s) (fs s) (proc_cwd s) (trace s)
    (S (ticks s)) (draws s).
Definition draw (s : state) : state :=
  State (job_id s) (_params_cache s) (fs s) (proc_cwd s) (trace s) (ticks s)
    (S (draws s)).

(** How a spawned shell ends: it could not be started, or it ran, left the
    tree in some state and exited. *)
Inductive proc_result :=
| SpawnError (e : exn)
| Exited (t : tree) (stdout stderr : string) (returncode : Z).

Record Env := {
  default_workdir : value;       (* conf.CONFIG.get('default_workdir') *)
  entropy : nat -> N;            (* os.urandom(16) at each draw *)
  clock : nat -> Z;              (* the clock at each reading *)
  shell : string -> string -> loc -> tree -> proc_result;
                                 (* command line, cwd argument, os.getcwd() *)
  shlex_split : string -> option (list string);
  shlex_join : list string -> string;
  abspath : loc -> string -> string;
  fnmatch : string -> string -> bool;   (* name, pattern *)
  undeletable : tree -> loc -> bool;
                                 (* the entries of the tree that the process
                                    is not allowed to delete *)
}.

Inductive res (A : Type) :=
| Ok (a : A)
| Raise (e : exn).
Arguments Ok {A} a.
Arguments Raise {A} e.

Definition M (A : Type) : Type := state -> res A * state.

Definition ret {A} (a : A) : M A := fun s => (Ok a, s).
Definition raise {A} (e : exn) : M A := fun s => (Raise e, s).
Definition bind {A B} (c : M A) (k : A -> M B) : M B :=
  fun s => match c s with
           | (Ok a, s') => k a s'
           | (Raise e, s') => (Raise e, s')
           end.
Definition gets {A} (f : state -> A) : M A := fun s => (Ok (f s), s).
Definition modify (f : state -> state) : M unit := fun s => (Ok tt, f s).
Definition lift {A} (r : res A) : M A := fun s => (r, s).

Notation "x <- c ;; k" := (bind c (fun x => k))
  (at level 100, c at next level, k at level 200, right associativity).
Notation "c ;; k" := (bind c (fun _ => k))
  (at level 100, k at level 200, right associativity).

(** [try: c finally: f]; an exception of [f] replaces the outcome of [c]. *)
Definition try_finally {A} (c : M A) (f : M unit) : M A :=
  fun s => match c s with
           | (r, s1) =>
               match f s1 with
               | (Ok _, s2) => (r, s2)
               | (Raise e, s2) => (Raise e, s2)
               end
           end.

Fixpoint for_each {A} (l : list A) (f : A -> M unit) : M unit :=
  match l with
  | [] => ret tt
  | a :: l' => f a ;; for_each l' f
  end.

Fixpoint map_m {A B} (f : A -> M B) (l : list A) : M (list B) :=
  match l with
  | [] => ret []
  | a :: l' => b <- f a ;; bs <- map_m f l' ;; ret (b :: bs)
  end.

(** Keyword arguments: a call that passes the dictionary [kwargs] as
    keyword arguments fails when [kwargs] has a key that is also a
    positional parameter of the callee. *)
Definition kwargs_get (kwargs : gmap string value) (k : string) : value :=
  default VNone (kwargs !! k).

Definition bind_kwargs (params : list string) (kwargs : gmap string value)
  : M unit :=
  match List.find (fun p => bool_decide (is_Some (kwargs !! p))) params with
  | Some p => raise (TypeError ("got multiple values for argument " +:+ p))
  | None => ret tt
  end.

(** ** [string.Template]

    The class pattern is
    [\$(?:(?P<escaped>\$)|(?P<named>ID)|{(?P<braced>ID)}|(?P<invalid>))]
    with [ID = [_a-z][_a-z0-9]*], ASCII only and case-insensitive. *)

Definition is_id_start (c : ascii) : bool :=
  Ascii.eqb c "_"%char || in_range 97 122 c || in_range 65 90 c.

Definition is_id_char (c : ascii) : bool :=
  is_id_start c || in_range 48 57 c.

(** The longest prefix of identifier characters, and what follows it. *)
Fixpoint span_id (s : string) : string * string :=
  match s with
  | EmptyString => ("", "")
  | String c r =>
      if is_id_char c then let '(a, b) := span_id r in (String c a, b)
      else ("", s)
  end.

Record match_obj := MatchObj {
  mo_group : string;            (* mo.group() *)
  mo_escaped : option string;
  mo_named : option string;
  mo_braced : option string;
  mo_invalid : option string;
}.

Definition mo_is_invalid : match_obj := MatchObj "$" None None None (Some "").

(** The match of the pattern that starts at the first character of [s],
    if there is one; the alternatives are tried in order. *)
Definition match_at (s : string) : option match_obj :=
  match s with
  | String d r =>
      if Ascii.eqb d "$"%char then
        match r with
        | String c r' =>
            if Ascii.eqb c "$"%char then
              Some (MatchObj "$$" (Some "$") None None None)
            else if is_id_start c then
              let id := (span_id r).1 in
              Some (MatchObj ("$" +:+ id) None (Some id) None None)
            else if Ascii.eqb c "{"%char
                    && starts_with "}"%char (span_id r').2
                    && match r' with
                       | String c' _ => is_id_start c'
                       | EmptyString => false
                       end
            then
              let id := (span_id r').1 in
              Some (MatchObj ("${" +:+ id +:+ "}") None None (Some id) None)
            else Some mo_is_invalid
        | EmptyString => Some mo_is_invalid
        end
      else None
  | EmptyString => None
  end.

(** [pattern.finditer] and the text between the matches: scanning resumes
    after each match ([skip] characters are still part of the last one). *)
Fixpoint scan (skip : nat) (s : string) : list (ascii + match_obj) :=
  match s with
  | EmptyString => []
  | String c r =>
      match skip with
      | S k => scan k r
      | O =>
          match match_at s with
          | Some mo => inr mo :: scan (String.length (mo_group mo) - 1) r
          | None => inl c :: scan 0 r
          end
      end
  end.

Definition finditer (s : string) : list match_obj :=
  omap (fun x => match x with inr mo => Some mo | inl _ => None end)
    (scan 0 s).

(** [a or b] on optional strings *)
Definition opt_or (a b : option string) : option string :=
  match a with
  | Some s => if String.eqb s "" then b else a
  | None => b
  end.

(** [Template.get_identifiers] (servecmd/util.py patches it in where the
    standard library lacks it) *)
Fixpoint get_identifiers_loop (mos : list match_obj) (ids : list string)
  : res (list string) :=
  match mos with
  | [] => Ok ids
  | mo :: rest =>
      match opt_or (mo_named mo) (mo_braced mo) with
      | Some named =>
          if bool_decide (named ∈ ids) then get_identifiers_loop rest ids
          else get_identifiers_loop rest (ids ++ [named])
      | None =>
          match mo_invalid mo, mo_escaped mo with
          | None, None =>
              Raise (ValueError "Unrecognized named group in pattern")
          | _, _ => get_identifiers_loop rest ids
          end
      end
  end.

Definition get_identifiers (template : string) : res (list string) :=
  get_identifiers_loop (finditer template) [].

(** The helper [convert] of [Template.safe_substitute] *)
Definition convert (mapping : gmap string value) (mo : match_obj)
  : res string :=
  match opt_or (mo_named mo) (mo_braced mo) with
  | Some named =>
      match mapping !! named with
      | Some v => Ok (py_str v)
      | None => Ok (mo_group mo)          (* except KeyError *)
      end
  | None =>
      match mo_escaped mo with
      | Some _ => Ok "$"
      | None =>
          match mo_invalid mo with
          | Some _ => Ok (mo_group mo)
          | None => Raise (ValueError "Unrecognized named group in pattern")
          end
      end
  end.

(** [pattern.sub(convert, template)] *)
Fixpoint sub_loop (mapping : gmap string value)
    (segs : list (ascii + match_obj)) : res string :=
  match segs with
  | [] => Ok ""
  | inl c :: rest =>
      match sub_loop mapping rest with
      | Ok out => Ok (String c out)
      | Raise e => Raise e
      end
  | inr mo :: rest =>
      match convert mapping mo with
      | Ok r =>
          match sub_loop mapping rest with
          | Ok out => Ok (r +:+ out)
          | Raise e => Raise e
          end
      | Raise e => Raise e
      end
  end.

(** [Template(template).safe_substitute(mapping, **kws)] with the two
    dictionaries already chained ([kws] first). *)
Definition safe_substitute (template : string) (mapping : gmap string value)
  : res string :=
  sub_loop mapping (scan 0 template).

(** ** [os.path] and [glob] *)

(** [p[:i], p[i:]] for [i = p.rfind('/') + 1] *)
Fixpoint head_tail (p : string) : string * string :=
  match p with
  | EmptyString => ("", "")
  | String c r =>
      let '(h, t) := head_tail r in
      if Ascii.eqb c "/"%char then (String c h, t)
      else if String.eqb h "" then ("", String c t)
      else (String c h, t)
  end.

Fixpoint all_slashes (s : string) : bool :=
  match s with
  | EmptyString => true
  | String c r => Ascii.eqb c "/"%char && all_slashes r
  end.

(** [os.path.split] *)
Definition os_path_split (p : string) : string * string :=
  let '(h, t) := head_tail p in
  (if negb (String.eqb h "") && negb (all_slashes h) then rstrip_slash h
   else h, t).

Fixpoint ends_with_slash (s : string) : bool :=
  match s with
  | EmptyString => false
  | String c EmptyString => Ascii.eqb c "/"%char
  | String _ r => ends_with_slash r
  end.

(** [os.path.join(a, b)] *)
Definition os_path_join (a b : string) : string :=
  if starts_with "/"%char b then b
  else if String.eqb a "" || ends_with_slash a then a +:+ b
  else a +:+ "/" +:+ b.

(** [glob._join] *)
Definition _join (dirname basename : string) : string :=
  if String.eqb dirname "" || String.eqb basename "" then
    (if String.eqb dirname "" then basename else dirname)
  else os_path_join dirname basename.

Definition is_magic_char (c : ascii) : bool :=
  Ascii.eqb c "*"%char || Ascii.eqb c "?"%char || Ascii.eqb c "["%char.

Fixpoint has_magic (s : string) : bool :=
  match s with
  | EmptyString => false
  | String c r => is_magic_char c || has_magic r
  end.

Definition _ishidden (path : string) : bool := starts_with "."%char path.

Section Glob.
Context (E : Env) (t : tree) (cwd : loc).

(** [glob._listdir]: an unreadable directory lists as empty *)
Definition _listdir (dirname : string) (dironly : bool) : list string :=
  match resolve t cwd (if String.eqb dirname "" then "." else dirname) with
  | Some k => if is_dir_at t k then entries t k dironly else []
  | None => []
  end.

Definition _glob1 (dirname pattern : string) (dironly : bool)
  : list string :=
  let names := _listdir dirname dironly in
  let names := if negb (_ishidden pattern)
               then List.filter (fun x => negb (_ishidden x)) names
               else names in
  List.filter (fun x => fnmatch E x pattern) names.

Definition _glob0 (dirname basename : string) (dironly : bool)
  : list string :=
  if negb (String.eqb basename "") then
    (if lexists t cwd (_join dirname basename) then [basename] else [])
  else
    (if isdir t cwd dirname then [basename] else []).

(** [glob._iglob] without [recursive]; the recursive call is on a proper
    prefix of [pathname], so [fuel] above its length is never used up. *)
Fixpoint _iglob_in (fuel : nat) (pathname root_dir : string)
    (dironly : bool) : list string :=
  match fuel with
  | O => []
  | S fuel' =>
      let '(dirname, basename) := os_path_split pathname in
      if negb (has_magic pathname) then
        if negb (String.eqb basename "") then
          (if lexists t cwd (_join root_dir pathname) then [pathname]
           else [])
        else
          (if isdir t cwd (_join root_dir dirname) then [pathname] else [])
      else if String.eqb dirname "" then _glob1 root_dir basename dironly
      else
        let dirs :=
          if negb (String.eqb dirname pathname) && has_magic dirname
          then _iglob_in fuel' dirname root_dir true
          else [dirname] in
        let glob_in_dir := if has_magic basename then _glob1 else _glob0 in
        flat_map (fun d =>
                    map (os_path_join d)
                      (glob_in_dir (_join root_dir d) basename dironly))
          dirs
  end.

Definition _iglob (pathname root_dir : string) (dironly : bool)
  : list string :=
  _iglob_in (S (String.length pathname)) pathname root_dir dironly.

(** [glob.glob(pathname, root_dir=root_dir)] *)
Definition glob (pathname root_dir : string) : list string :=
  let it := _iglob pathname root_dir false in
  if String.eqb pathname "" then
    match it with
    | s :: rest => if String.eqb s "" then rest else it
    | [] => it
    end
  else it.
End Glob.

(** ** servecmd/util.py *)

(** [time.time()] and [datetime.datetime.now()] both read the clock. *)
Definition now (E : Env) : M Z :=
  n <- gets ticks ;; modify tick ;; ret (clock E n).

(** [json_log_info(data)]: stamps the record and hands it to the logger. *)
Definition json_log_info (E : Env) (data : log_data) : M unit :=
  created <- now E ;;
  modify (add_event (EvLog data created)).

(** ** Reading a request (util.py, [process_request]) *)

(** An uploaded file as [process_request] hands it over: the dictionary
    [{'filename': ..., 'size': ..., 'file': ...}]. *)
Record upload := Upload {
  up_filename : string;
  up_size : Z;
  up_file : string;
}.

(** [s.lower()]; characters outside ASCII are left alone, which no
    comparison with an ASCII literal can tell. *)
Definition lower_char (c : ascii) : ascii :=
  if in_range 65 90 c then ascii_of_N (N_of_ascii c + 32) else c.

Fixpoint lower (s : string) : string :=
  match s with
  | EmptyString => ""
  | String c r => String (lower_char c) (lower r)
  end.

(** A part of a multipart form: an [UploadFile] with its content type,
    file name, size and bytes, or a plain text field. *)
Inductive form_value :=
| FormFile (content_type : option string) (file : upload)
| FormText (text : string).

Section Request.
(** Parsed JSON documents, [{}] among them, and [json.loads]. *)
Context {J : Type} (empty_json : J) (json_loads : string -> res J).

(** The request as the framework presents it: the [content-type] header
    and what [req.json()] and [req.form()] give. *)
Record request := Request {
  req_content_type : option string;
  req_json : res J;
  req_form : res (list (string * form_value));
}.

(** Lines 42-50: the loop over the parts of the form. *)
Fixpoint form_loop (items : list (string * form_value)) (json_data : J)
    (files : list upload) : res (J * list upload) :=
  match items with
  | [] => Ok (json_data, files)
  | (key, value) :: rest =>
      match value with
      | FormText _ =>
          Raise (AttributeError "'str' object has no attribute 'content_type'")
      | FormFile content_type file =>
          if bool_decide (content_type = Some "application/json") then
            match json_loads (up_file file) with
            | Ok doc => form_loop rest doc files
            | Raise e => Raise e
            end
          else form_loop rest json_data (files ++ [file])
      end
  end.

Definition process_request (req : request) : res (J * list upload) :=
  let content_type := lower (default "" (req_content_type req)) in
  if String.eqb content_type "application/json" then
    match req_json req with
    | Ok json_data => Ok (json_data, [])
    | Raise e => Raise e
    end
  else if String.prefix "multipart/form-data" content_type then
    match req_form req with
    | Ok items => form_loop items empty_json []
    | Raise e => Raise e
    end
  else Ok (empty_json, []).
End Request.
Arguments request : clear implicits.

(** The file of a part that is ([json = true]) or is not
    ([json = false]) of type [application/json]. *)
Definition part_file (json : bool) (v : form_value) : option upload :=
  match v with
  | FormFile content_type file =>
      if Bool.eqb (bool_decide (content_type = Some "application/json")) json
      then Some file else None
  | FormText _ => None
  end.

(** ** servecmd/cmd_session.py *)

(** [to_base64(data)] *)
Definition to_base64 (data : string) : string := b64encode data.

(** [ret[key] = v] on a dictionary kept in insertion order *)
Fixpoint dict_set {A} (key : value) (v : A) (d : list (value * A))
  : list (value * A) :=
  match d with
  | [] => [(key, v)]
  | (k, x) :: d' =>
      if py_eq k key then (k, v) :: d' else (k, x) :: dict_set key v d'
  end.

(** [params.get(param_name)] for the dictionary [params] *)
Fixpoint params_get (params : list (string * option param_config))
    (name : string) : option param_config :=
  match params with
  | [] => None
  | (k, pc) :: rest => if String.eqb k name then pc else params_get rest name
  end.

Section CmdSession.
Context (E : Env) (cmd_config : cmd_config).

(** The path of the scratch directory of job [j]. *)
Definition job_path_of (j : option string) : res string :=
  match py_or (cfg_cwd cmd_config) (default_workdir E) with
  | VStr cwd =>
      Ok (rstrip_slash cwd +:+ "/"
          +:+ match j with Some i => i | None => "None" end)
  | VBytes _ => Raise (TypeError "a bytes-like object is required")
  | _ => Raise (AttributeError "rstrip")
  end.

Definition get_job_path : M string :=
  j <- gets job_id ;; lift (job_path_of j).

Definition get_job_file_path (filename : string) : M string :=
  p <- get_job_path ;; ret (p +:+ "/" +:+ filename).

Definition ensure_job_path : M unit :=
  job_path <- get_job_path ;;
  s <- gets id ;;
  modify (add_event (EvMakedirs job_path)) ;;
  match makedirs (fs s) (proc_cwd s) job_path with
  | Some t => modify (set_fs t)
  | None => raise (OSError job_path)
  end.

Definition clean_job_path : M unit :=
  job_path <- get_job_path ;;
  s <- gets id ;;
  modify (add_event (EvRmtree job_path)) ;;
  modify (set_fs (rmtree (undeletable E (fs s)) (fs s) (proc_cwd s) job_path)).

(** Lines 97-99: [value or b''], encoded when it is a [str]. *)
Definition to_write (v : value) : value :=
  let v := py_or v (VBytes "") in
  match v with
  | VStr x => VBytes x
  | _ => v
  end.

(** Lines 96-100: the [with open(..., 'wb')] block. *)
Definition write_param_file (path : string) (v : value) : M unit :=
  s <- gets id ;;
  let target := open_wb (fs s) (proc_cwd s) path in
  modify (add_event (EvOpen true path target)) ;;
  match target with
  | None => raise (OSError path)
  | Some k =>
      modify (set_fs (<[k := File ""]> (fs s))) ;;
      match to_write v with
      | VBytes b => modify (set_fs (<[k := File b]> (fs s)))
      | _ => raise (TypeError "a bytes-like object is required")
      end
  end.

Definition cache_store (name : string) (v : value) : M unit :=
  c <- gets _params_cache ;; modify (set_cache (<[name := v]> c)).

Fixpoint get_params_loop (param_name_list : list string)
    (kwargs : gmap string value) (ret_ : gmap string value)
  : M (gmap string value) :=
  match param_name_list with
  | [] => ret ret_
  | param_name :: rest =>
      cache <- gets _params_cache ;;
      match cache !! param_name with
      | Some v => get_params_loop rest kwargs (<[param_name := v]> ret_)
      | None =>
          let params := match cfg_params cmd_config with
                        | Given l => l
                        | _ => []
                        end in
          match params_get params param_name with
          | None =>
              match kwargs !! param_name with
              | Some v =>
                  cache_store param_name v ;;
                  get_params_loop rest kwargs (<[param_name := v]> ret_)
              | None => get_params_loop rest kwargs ret_
              end
          | Some param_config =>
              let v := kwargs_get kwargs param_name in
              if py_truthy (pc_required param_config)
                 && bool_decide (v = VNone)
              then raise (ValueError
                            ("Missing required param: " +:+ param_name))
              else if py_eq (pc_type param_config) (VStr "file") then
                let filename :=
                  py_or (pc_filename param_config) (VStr param_name) in
                path <- get_job_file_path (py_str filename) ;;
                write_param_file path v ;;
                cache_store param_name filename ;;
                get_params_loop rest kwargs (<[param_name := filename]> ret_)
              else
                cache_store param_name v ;;
                get_params_loop rest kwargs (<[param_name := v]> ret_)
          end
      end
  end.

Definition get_params (param_name_list : list string)
    (kwargs : gmap string value) : M (gmap string value) :=
  bind_kwargs ["self"] kwargs ;;
  get_params_loop param_name_list kwargs ∅.

Definition preprocess_params (kwargs : gmap string value) : M unit :=
  bind_kwargs ["self"] kwargs ;;
  match cfg_params cmd_config with
  | Missing => ret tt
  | Null => raise (TypeError "'NoneType' object is not iterable")
  | Given params =>
      for_each (map fst params)
        (fun param_name => get_params [param_name] kwargs ;; ret tt)
  end.

Definition process_input_item (item : value) (cmd_env : gmap string value)
    (kwargs : gmap string value) : M string :=
  bind_kwargs ["self"; "item"; "cmd_env"] kwargs ;;
  match item with
  | VNone => ret ""
  | _ =>
      let item := py_str item in
      param_name_list <- lift (get_identifiers item) ;;
      match param_name_list with
      | [] => ret item
      | _ =>
          param_values <- get_params param_name_list kwargs ;;
          lift (safe_substitute item (param_values ∪ cmd_env))
      end
  end.

Definition prepare_cmd (kwargs : gmap string value) : M string :=
  bind_kwargs ["self"] kwargs ;;
  cwd <- get_job_path ;;
  s <- gets id ;;
  let cmd_env : gmap string value :=
    <["cwd_abs" := VStr (abspath E (proc_cwd s) cwd)]>
      (<["cwd" := VStr cwd]> ∅) in
  match cfg_command cmd_config with
  | None => raise (KeyError "command")
  | Some command =>
      args_list <-
        map_m (fun item => process_input_item item cmd_env kwargs) command ;;
      result_args_list <-
        map_m (fun i => match shlex_split E i with
                        | Some l => ret l
                        | None => raise (ValueError "No closing quotation")
                        end) args_list ;;
      ret (shlex_join E (concat result_args_list))
  end.

(** [open(path, 'rb')] and a full read *)
Definition read_file (path : string) : M string :=
  s <- gets id ;;
  modify (add_event
            (EvOpen false path (resolve (fs s) (proc_cwd s) path))) ;;
  match open_rb (fs s) (proc_cwd s) path with
  | Some content => ret content
  | None => raise (OSError path)
  end.

Definition decode (b : string) : M string :=
  match decode_utf8 b with
  | Some text => ret text
  | None => raise UnicodeDecodeError
  end.

Definition item_key (d : return_dict) (key : string)
    (get : return_dict -> option value) : M value :=
  match get d with
  | Some v => ret v
  | None => raise (KeyError key)
  end.

Definition mk_payload (d : return_dict) (data : string) : payload :=
  Payload (to_base64 data) (default (VStr "") (rd_mimetype d))
    (default (VStr "base64") (rd_encoding d)).

(** Lines 136-153 of [execute]: spawn the shell in the scratch
    directory, wait for it, log. *)
Definition execute_spawn (cmd : string) : M (string * string) :=
  cwd <- get_job_path ;;
  begin_time <- now E ;;
  s <- gets id ;;
  match shell E cmd cwd (proc_cwd s) (fs s) with
  | SpawnError e => raise e
  | Exited t stdout stderr returncode =>
      modify (add_event (EvSpawn cmd cwd)) ;;
      modify (set_fs t) ;;
      end_time <- now E ;;
      job <- gets job_id ;;
      text <- decode stderr ;;
      json_log_info E (LogExec job returncode (end_time - begin_time) text) ;;
      ret (stdout, stderr)
  end.

(** Lines 182-188: a match is opened under the scratch path and read. *)
Definition read_one (d : return_dict) (filename : string)
  : M (string * payload) :=
  path <- get_job_file_path filename ;;
  data <- read_file path ;;
  ret (filename, mk_payload d data).

(** Lines 175-188: one structured [file_list] entry. *)
Definition return_file_list (d : return_dict)
  : M (list (string * payload)) :=
  root_dir <- get_job_path ;;
  matched_filenames <-
    (if py_truthy (default VNone (rd_glob d)) then
       match default VNone (rd_glob d) with
       | VStr pattern =>
           s <- gets id ;;
           ret (glob E (fs s) (proc_cwd s) pattern root_dir)
       | _ => raise (TypeError "expected str, bytes or os.PathLike object")
       end
     else ret []) ;;
  map_m (read_one d) matched_filenames.

(** Lines 154-188: one entry of the [return] list. *)
Definition return_entry (stdout stderr : string) (item : return_item)
    (ret_ : list (value * result_value)) : M (list (value * result_value)) :=
  match item with
  | RetVal v =>
      if py_eq v (VStr "stdout") then
        text <- decode stdout ;; ret (dict_set (VStr "stdout") (RText text) ret_)
      else if py_eq v (VStr "stderr") then
        text <- decode stderr ;; ret (dict_set (VStr "stderr") (RText text) ret_)
      else ret ret_
  | RetDict d =>
      arg_name <- item_key d "name" rd_name ;;
      arg_type <- item_key d "type" rd_type ;;
      ret_ <-
        (if py_eq arg_type (VStr "file") then
           filename <- item_key d "filename" rd_filename ;;
           path <- get_job_file_path (py_str filename) ;;
           data <- read_file path ;;
           ret (dict_set arg_name (RPayload (mk_payload d data)) ret_)
         else ret ret_) ;;
      if py_eq arg_type (VStr "stdout") || py_eq arg_type (VStr "stderr") then
        ret (dict_set arg_name
               (RPayload (mk_payload d (if py_eq arg_type (VStr "stdout")
                                        then stdout else stderr))) ret_)
      else if py_eq arg_type (VStr "file_list") then
        l <- return_file_list d ;;
        ret (dict_set arg_name (RList l) ret_)
      else ret ret_
  end.

Fixpoint return_loop (stdout stderr : string) (items : list return_item)
    (ret_ : list (value * result_value)) : M (list (value * result_value)) :=
  match items with
  | [] => ret ret_
  | item :: rest =>
      ret_ <- return_entry stdout stderr item ret_ ;;
      return_loop stdout stderr rest ret_
  end.

Definition execute (cmd : string) (kwargs : gmap string value)
  : M (list (value * result_value)) :=
  bind_kwargs ["self"; "cmd"] kwargs ;;
  out <- execute_spawn cmd ;;
  ret_ <-
    match cfg_return cmd_config with
    | Missing => ret []
    | Null => raise (TypeError "'NoneType' object is not iterable")
    | Given items => return_loop out.1 out.2 items []
    end ;;
  job <- gets job_id ;;
  ret (dict_set (VStr "job_id") (RJobId job) ret_).

(** [job_context]: the body of the [async with] block runs at [yield]. *)
Definition job_context {A} (body : M A) : M A :=
  n <- gets draws ;;
  modify draw ;;
  modify (set_job_id (Some (uuid_str (uuid4_int (entropy E n))))) ;;
  try_finally
    (ensure_job_path ;; body)
    (clean_job_path ;; modify (set_job_id None)).

(** Lines 194-199: the block [run] executes inside [job_context]. *)
Definition run_body (kwargs : gmap string value)
  : M (list (value * result_value)) :=
  preprocess_params kwargs ;;
  cmd <- prepare_cmd kwargs ;;
  job <- gets job_id ;;
  json_log_info E (LogCmd job cmd) ;;
  execute cmd kwargs.

Definition run (kwargs : gmap string value)
  : M (bool * list (value * result_value)) :=
  result <- job_context (run_body kwargs) ;;
  ret (true, result).
End CmdSession.

(** ** The web entry point (cmd_session.py, [process_web_cmd]) *)

(** What the entry point returns next to its flag. *)
Inductive web_result :=
| WebError (code : Z) (message : string)
| WebResult (result : list (value * result_value)).

(** Lines 204-207: the fields of the JSON document, then one entry per
    uploaded file. *)
Definition cmd_args_of (json_data : gmap string value) (files : list upload)
  : gmap string value :=
  foldl (fun args file => <[up_filename file := VBytes (up_file file)]> args)
    json_data files.

(** [CmdSession(cmd_config)]: the session of the request starts without a
    job and with an empty cache. *)
Definition new_session : M unit :=
  modify (set_job_id None) ;; modify (set_cache ∅).

(** [get_cmd_config] is the lookup of the command registry
    (servecmd/cmd_manager.py); [None] stands for any falsy answer. *)
Definition process_web_cmd (E : Env)
    (get_cmd_config : string -> option cmd_config)
    (cmd : string) (json_data : gmap string value) (files : list upload)
  : M (bool * web_result) :=
  let cmd_args := cmd_args_of json_data files in
  match get_cmd_config cmd with
  | None => ret (false, WebError 1 ("Command " +:+ cmd +:+ " not found."))
  | Some cmd_config =>
      new_session ;;
      bind_kwargs ["self"] cmd_args ;;
      r <- run E cmd_config cmd_args ;;
      ret (r.1, WebResult r.2)
  end.

(** ** Loading command files (cmd_session.py, [load_config] and
    [load_all_configs]) *)

(** [s.endswith(suffix)] *)
Fixpoint ends_with (suffix s : string) : bool :=
  String.eqb s suffix
  || match s with
     | String _ r => ends_with suffix r
     | EmptyString => false
     end.

(** [os.listdir] *)
Definition os_listdir (directory : string) : M (list string) :=
  s <- gets id ;;
  match resolve (fs s) (proc_cwd s) directory with
  | Some k =>
      if is_dir_at (fs s) k then ret (entries (fs s) k false)
      else raise (OSError directory)
  | None => raise (OSError directory)
  end.

Section Loader.
(** The parsers [json.load] and [yaml.safe_load] applied to the content
    of a file, and [config["name"]], for documents of some type [C]. *)
Context {C : Type} (json_load yaml_safe_load : string -> res C)
  (name_of : C -> res value).

(** The implicit [return None] of an unknown type is [None] here. *)
Definition load_config (filename : string) (type : option string)
  : M (option C) :=
  let type := match type with
              | Some ty => ty
              | None => List.last (split_on "."%char filename) ""
              end in
  content <- read_file filename ;;
  if String.eqb type "json" then
    config <- lift (json_load content) ;; ret (Some config)
  else if String.eqb type "yaml" || String.eqb type "yml" then
    config <- lift (yaml_safe_load content) ;; ret (Some config)
  else ret None.

Definition has_config_suffix (filename : string) : bool :=
  ends_with ".json" filename || ends_with ".yaml" filename
  || ends_with ".yml" filename.

Fixpoint load_all_configs_loop (directory : string) (names : list string)
    (configs : list (value * C)) : M (list (value * C)) :=
  match names with
  | [] => ret configs
  | filename :: rest =>
      if has_config_suffix filename then
        config <-
          load_config (rstrip_slash directory +:+ "/" +:+ filename) None ;;
        match config with
        | None => raise (TypeError "'NoneType' object is not subscriptable")
        | Some doc =>
            name <- lift (name_of doc) ;;
            load_all_configs_loop directory rest (dict_set name doc configs)
        end
      else load_all_configs_loop directory rest configs
  end.

Definition load_all_configs (directory : string) : M (list (value * C)) :=
  names <- os_listdir directory ;;
  load_all_configs_loop directory names [].

(** The parser that the suffix of a file name selects. *)
Definition parser_of (filename : string) : string -> res C :=
  if ends_with ".json" filename then json_load else yaml_safe_load.

(** What the loader found for file [f] of the directory. *)
Definition loaded_from (s : state) (directory f : string) (doc : C) : Prop :=
  exists content,
    open_rb (fs s) (proc_cwd s) (rstrip_slash directory +:+ "/" +:+ f)
    = Some content
    /\ parser_of f content = Ok doc.

End Loader.

(** ** A concrete environment, for the examples

    [shlex], [abspath] and [fnmatch] are replaced by simple stand-ins
    ([fnmatch] knows [*] and [?] only); the shell is a parameter and the
    process may delete everything. *)

Fixpoint simple_fnmatch (pat : string) : string -> bool :=
  match pat with
  | EmptyString => fun name => String.eqb name ""
  | String p pat' =>
      if Ascii.eqb p "*"%char then
        fix star (name : string) : bool :=
          simple_fnmatch pat' name
          || match name with
             | String _ name' => star name'
             | EmptyString => false
             end
      else fun name =>
        match name with
        | String c name' =>
            (Ascii.eqb p "?"%char || Ascii.eqb p c) && simple_fnmatch pat' name'
        | EmptyString => false
        end
  end.

Definition sample_env (sh : string -> string -> loc -> tree -> proc_result)
  : Env :=
  {| default_workdir := VStr "/srv/jobs";
     entropy := fun n => N.of_nat n;
     clock := fun n => 1000 + 7 * Z.of_nat n;
     shell := sh;
     shlex_split := fun s => Some (List.filter (fun w => negb (String.eqb w ""))
                                     (split_on " "%char s));
     shlex_join := fun l => String.concat " " l;
     abspath := fun _ p => p;
     fnmatch := fun name pat => simple_fnmatch pat name;
     undeletable := fun _ _ => false |}.

(** A shell that leaves the tree alone. *)
Definition quiet_shell (stdout stderr : string) (returncode : Z)
  : string -> string -> loc -> tree -> proc_result :=
  fun _ _ _ t => Exited t stdout stderr returncode.

Definition fresh_session (t : tree) : state :=
  State None ∅ t [] [] 0 0.

(** ** Vocabulary of the properties *)

Definition is_spawn (e : event) : bool :=
  match e with EvSpawn _ _ => true | _ => false end.

Definition is_log (e : event) : bool :=
  match e with EvLog _ _ => true | _ => false end.

(** [c] relates the state it starts in to the state it ends in by [P],
    whether it returns or raises. *)
Definition keeps (P : state -> state -> Prop) {A} (c : M A) : Prop :=
  forall s x s', c s = (x, s') -> P s s'.

(** Only events that are not process starts were added to the trace. *)
Definition spawn_free (s s' : state) : Prop :=
  exists evs,
    trace s' = trace s ++ evs /\ Forall (fun e => is_spawn e = false) evs.

(** The job and the working directory of the process are the same. *)
Definition same_job (s s' : state) : Prop :=
  job_id s' = job_id s /\ proc_cwd s' = proc_cwd s.

(** The job identifier the next [job_context] draws in state [s]. *)
Definition next_job_id (E : Env) (s : state) : string :=
  uuid_str (uuid4_int (entropy E (draws s))).

(** A template identifier: [[_a-zA-Z][_a-zA-Z0-9]*]. *)
Fixpoint all_id_chars (s : string) : bool :=
  match s with
  | EmptyString => true
  | String c r => is_id_char c && all_id_chars r
  end.

Definition is_identifier (s : string) : bool :=
  match s with
  | String c r => is_id_start c && all_id_chars r
  | EmptyString => false
  end.

(** Text that cannot continue an identifier written just before it. *)
Definition ends_identifier (s : string) : bool :=
  match s with
  | String c _ => negb (is_id_char c)
  | EmptyString => true
  end.

(** What a placeholder for [name], written [written], is replaced by:
    the string form of the value when the mapping has the name, the
    placeholder as it is written when not. *)
Definition placeholder_text (mapping : gmap string value)
    (name written : string) : string :=
  match mapping !! name with
  | Some v => py_str v
  | None => written
  end.

(** Text after a dollar sign that makes it neither an escape nor a
    placeholder: no dollar sign, no identifier and no identifier in
    braces comes first. *)
Definition stray (t : string) : Prop :=
  (forall r, t <> "$" +:+ r)
  /\ (forall name post, is_identifier name = true -> t <> name +:+ post)
  /\ (forall name post,
        is_identifier name = true -> t <> "{" +:+ name +:+ "}" +:+ post).

(** Substitution as the documentation of [string.Template] describes it,
    from left to right: text is copied, [$$] gives [$], a placeholder
    [$name] (the longest identifier after the dollar sign) or [${name}]
    gives its [placeholder_text], and any other dollar sign is copied. *)
Inductive renders (mapping : gmap string value) : string -> string -> Prop :=
| renders_end : renders mapping "" ""
| renders_text c t out :
    c <> "$"%char ->
    renders mapping t out ->
    renders mapping (String c t) (String c out)
| renders_escape t out :
    renders mapping t out ->
    renders mapping ("$$" +:+ t) ("$" +:+ out)
| renders_named name post out :
    is_identifier name = true ->
    ends_identifier post = true ->
    renders mapping post out ->
    renders mapping ("$" +:+ name +:+ post)
      (placeholder_text mapping name ("$" +:+ name) +:+ out)
| renders_braced name post out :
    is_identifier name = true ->
    renders mapping post out ->
    renders mapping ("${" +:+ name +:+ "}" +:+ post)
      (placeholder_text mapping name ("${" +:+ name +:+ "}") +:+ out)
| renders_stray t out :
    stray t ->
    renders mapping t out ->
    renders mapping ("$" +:+ t) ("$" +:+ out).

(** A match with one of the groups [get_identifiers] looks at. *)
Definition some_group (mo : match_obj) : Prop :=
  is_Some (opt_or (mo_named mo) (mo_braced mo))
  \/ is_Some (mo_invalid mo) \/ is_Some (mo_escaped mo).

(** The state in which the body of [job_context] starts. *)
Definition entered (E : Env) (s : state) : state :=
  set_job_id (Some (next_job_id E s)) (draw s).

(** No component of the path is [..]. *)
Definition dotdot_free (s : string) : Prop := ".." ∉ split_on "/"%char s.

(** Location [k] is the directory that [root] names or lies below it. *)
Definition inside (t : tree) (cwd : loc) (root : string) (k : loc) : Prop :=
  exists k0, resolve t cwd root = Some k0 /\ k0 `suffix_of` k.

Definition is_write (e : event) : bool :=
  match e with EvOpen true _ _ => true | _ => false end.

Definition is_read (e : event) : bool :=
  match e with EvOpen false _ _ => true | _ => false end.

(** Only events of the kind [kind] were added to the trace. *)
Definition adds (kind : event -> bool) (s s' : state) : Prop :=
  exists evs, trace s' = trace s ++ evs /\ Forall (fun e => kind e = true) evs.

(** Before the process starts a run opens files for writing and logs. *)
Definition before_spawn (e : event) : bool := is_write e || is_log e.

(** Once it has started a run opens files for reading and logs. *)
Definition after_spawn (e : event) : bool := is_log e || is_read e.

(** What [execute] leaves in the trace: nothing, or the start of the
    process in directory [cwd] and then log records and reads only. *)
Definition spawned_once (cwd : string) (evs : list event) : Prop :=
  evs = []
  \/ exists cmd rest,
       evs = EvSpawn cmd cwd :: rest
       /\ Forall (fun e => after_spawn e = true) rest.

(** [d[key]] on a dictionary kept in insertion order *)
Fixpoint dict_get {A} (key : value) (d : list (value * A)) : option A :=
  match d with
  | [] => None
  | (k, x) :: d' => if py_eq k key then Some x else dict_get key d'
  end.


(** The parameters of a command that have a specification:
    [self.cmd_config.get('params') or {}]. *)
Definition declared (cfg : cmd_config) : list (string * option param_config) :=
  match cfg_params cfg with
  | Given l => l
  | _ => []
  end.

(** Every parameter with a specification has been resolved. *)
Definition all_cached (cfg : cmd_config) (s : state) : Prop :=
  forall name pc,
    params_get (declared cfg) name = Some pc ->
    is_Some (_params_cache s !! name).

(** From a state where all declared parameters are resolved, nothing was
    written and nothing was added to the trace. *)
Definition settled (cfg : cmd_config) (s s' : state) : Prop :=
  all_cached cfg s ->
  all_cached cfg s' /\ fs s' = fs s /\ trace s' = trace s.


(** Nothing was taken out of the cache or changed in it. *)
Definition cache_kept (s s' : state) : Prop :=
  forall n v, _params_cache s !! n = Some v -> _params_cache s' !! n = Some v.

(** The result of [run] for a result of the block inside [job_context]. *)
Definition run_result {A} (r : res A) : res (bool * A) :=
  match r with
  | Ok v => Ok (true, v)
  | Raise e => Raise e
  end.

Definition not_write (e : event) : bool := negb (is_write e).

(** The identifier a match names, if it names one. *)
Definition mo_ident (mo : match_obj) : option string :=
  opt_or (mo_named mo) (mo_braced mo).

(** The matches of [$$] and of [$name]. *)
Definition mo_escape : match_obj := MatchObj "$$" (Some "$") None None None.

Definition mo_name (name : string) : match_obj :=
  MatchObj ("$" +:+ name) None (Some name) None None.

(** The value of a character of the base64 alphabet. *)
Definition b64_value (c : ascii) : option N :=
  let n := N_of_ascii c in
  if in_range 65 90 c then Some (n - 65)%N
  else if in_range 97 122 c then Some (n - 71)%N
  else if in_range 48 57 c then Some (n + 4)%N
  else if (n =? 43)%N then Some 62%N
  else if (n =? 47)%N then Some 63%N
  else None.

(** [base64.b64decode] on padded input without stray characters. *)
Fixpoint b64decode (s : string) : option string :=
  match s with
  | EmptyString => Some ""
  | String c1 (String c2 (String c3 (String c4 r))) =>
      match b64_value c1, b64_value c2 with
      | Some a, Some b =>
          let x := ascii_of_N (a * 4 + b / 16) in
          if Ascii.eqb c3 "="%char then
            if Ascii.eqb c4 "="%char && String.eqb r "" then Some (String x "")
            else None
          else
            match b64_value c3 with
            | Some c =>
                let y := ascii_of_N (b mod 16 * 16 + c / 4) in
                if Ascii.eqb c4 "="%char then
                  if String.eqb r "" then Some (String x (String y "")) else None
                else
                  match b64_value c4, b64decode r with
                  | Some d, Some out =>
                      let z := ascii_of_N (c mod 4 * 64 + d) in
                      Some (String x (String y (String z out)))
                  | _, _ => None
                  end
            | None => None
            end
      | _, _ => None
      end
  | _ => None
  end.

(** ** Examples: a command, its callers, a tree *)

Definition job1 : string := "00000000-0000-4000-8000-000000000000".

(** [cat] of an uploaded file [f], with a required plain parameter [g]
    and an optional one [x]. *)
Definition cat_params : list (string * option param_config) :=
  [("f", Some (ParamConfig VNone (VStr "file") VNone));
   ("x", Some (ParamConfig VNone VNone VNone));
   ("g", Some (ParamConfig (VBool true) VNone VNone))].

Definition cat_cfg : cmd_config :=
  CmdConfig (VStr "/w/") (Given cat_params)
    (Some [VStr "cat"; VStr "$f"; VStr "$g"])
    (Given [RetVal (VStr "stdout");
            RetDict (ReturnDict (Some (VStr "texts")) (Some (VStr "file_list"))
                       None (Some (VStr "*.txt")) None None)]).

(** The same with the required parameter declared first. *)
Definition strict_params : list (string * option param_config) :=
  [("x", Some (ParamConfig VNone VNone VNone));
   ("g", Some (ParamConfig (VBool true) VNone VNone));
   ("f", Some (ParamConfig VNone (VStr "file") VNone))].

Definition strict_cfg : cmd_config :=
  CmdConfig (VStr "/w/") (Given strict_params)
    (Some [VStr "cat"; VStr "$f"; VStr "$g"]) (Given [RetVal (VStr "stdout")]).

(** A command whose [file_list] pattern climbs out of the scratch
    directory. *)
Definition leak_entry : return_dict :=
  ReturnDict (Some (VStr "leak")) (Some (VStr "file_list")) None
    (Some (VStr "../secret")) None None.

Definition leak_cfg : cmd_config :=
  CmdConfig (VStr "/w") Missing (Some [VStr "true"])
    (Given [RetDict leak_entry]).

Definition texts_entry : return_dict :=
  ReturnDict (Some (VStr "texts")) (Some (VStr "file_list")) None
    (Some (VStr "*.txt")) None None.

Definition full_kwargs : gmap string value :=
  {[ "f" := VBytes "hello"; "g" := VStr "G" ]}.

Definition no_g_kwargs : gmap string value := {[ "f" := VBytes "hello" ]}.

Definition empty_g_kwargs : gmap string value := {[ "g" := VStr "" ]}.

(** The base directory, with a file next to the scratch directories. *)
Definition base_tree : tree :=
  {[ ["w"] := Dir; ["secret"; "w"] := File "top secret" ]}.

(** The tree while job [job1] runs, with two files in its scratch
    directory. *)
Definition job_tree : tree :=
  {[ ["w"] := Dir; ["secret"; "w"] := File "top secret";
     [job1; "w"] := Dir;
     ["a.txt"; job1; "w"] := File "A";
     ["b.log"; job1; "w"] := File "B" ]}.

Definition in_job (t : tree) : state :=
  State (Some job1) ∅ t [] [] 0 0.

Definition env_ok : Env := sample_env (quiet_shell "out" "warn" 3).

(** The process writes a byte to stderr that is not UTF-8. *)
Definition env_bad_stderr : Env :=
  sample_env (quiet_shell "out" (String "255"%char "") 0).

(** ** More examples: a second job, a broken command, a registry, a
    directory of command files, a request *)

Definition job2 : string := "11111111-1111-4111-8111-111111111111".

(** The tree while [job1] and [job2] run side by side. *)
Definition two_jobs_tree : tree :=
  <[["c.txt"; job2; "w"] := File "C"]> (<[[job2; "w"] := Dir]> job_tree).

(** A command file that says [params: null]. *)
Definition null_params_cfg : cmd_config :=
  CmdConfig (VStr "/w") Null (Some [VStr "true"]) Missing.

(** The entry [{name: copy, type: file, filename: f}] of a return list. *)
Definition copy_entry : return_dict :=
  ReturnDict (Some (VStr "copy")) (Some (VStr "file")) (Some (VStr "f"))
    None None None.

(** The entry [{name: raw, type: stdout}]. *)
Definition raw_entry : return_dict :=
  ReturnDict (Some (VStr "raw")) (Some (VStr "stdout")) None None None None.

(** A registry that knows [cat]. *)
Definition sample_registry (cmd : string) : option cmd_config :=
  if String.eqb cmd "cat" then Some cat_cfg else None.

(** A parser that takes a file for the text in it. *)
Definition text_doc (content : string) : res string := Ok content.

(** A directory in which two command files give the same name: a document
    is represented by its text, and its first character is its name. *)
Definition dup_tree : tree :=
  {[ ["conf"] := Dir;
     ["a.json"; "conf"] := File "c1";
     ["b.yml"; "conf"] := File "c2";
     ["README"; "conf"] := File "notes" ]}.

Definition head_name (doc : string) : res value :=
  Ok (VStr (substring 0 1 doc)).

(** Callers: one passes the undeclared [u], one a number for the file
    [f], one a [cwd] of their own; and the environment of a run. *)
Definition u_kwargs : gmap string value := {[ "u" := VInt 7 ]}.


Definition cwd_kwargs : gmap string value := {[ "cwd" := VStr "/etc" ]}.

Definition cwd_env : gmap string value := {[ "cwd" := VStr "/w/j" ]}.

Definition az_mapping : gmap string value :=
  {[ "a" := VInt 1; "z" := VInt 2 ]}.

Definition a_mapping : gmap string value := {[ "a" := VInt 1 ]}.

Definition fg_json : gmap string value :=
  {[ "f" := VStr "json"; "g" := VStr "G" ]}.

(** A form with a JSON part and a file. *)
Definition sample_form : list (string * form_value) :=
  [("meta", FormFile (Some "application/json") (Upload "meta.json" 7 "{a: 1}"));
   ("f", FormFile (Some "text/plain") (Upload "f" 5 "hello"))].

Definition sample_request : request string :=
  Request (Some "Multipart/Form-Data; boundary=x")
    (Raise (ValueError "not JSON")) (Ok sample_form).





(** * Properties *)

(** ** Strings, names and job identifiers *)

Lemma append_cons x (a b : string) : String x a +:+ b = String x (a +:+ b).
Proof. reflexivity. Qed.

Lemma append_nil (b : string) : "" +:+ b = b.
Proof. reflexivity. Qed.

Ltac str_norm := repeat (rewrite append_cons || rewrite append_nil).

Lemma append_assoc (a b c : string) : (a +:+ b) +:+ c = a +:+ (b +:+ c).
Proof. induction a as [|x a IH]; str_norm; [done|]. by rewrite IH. Qed.

Section StringFacts.



Lemma split_on_nonempty c s : split_on c s <> [].
Proof.
  destruct s as [|a s]; cbn [split_on]; [done|].
  destruct (Ascii.eqb a c); [done|]. by destruct (split_on c s).
Qed.

Lemma split_on_no_sep c s : str_mem c s = false -> split_on c s = [s].
Proof.
  induction s as [|a s IH]; cbn [split_on str_mem]; [done|].
  intros H. apply orb_false_iff in H as [Ha Hs].
  rewrite Ha, (IH Hs). done.
Qed.

Lemma split_on_app c a b :
  split_on c (a +:+ String c b) = split_on c a ++ split_on c b.
Proof.
  induction a as [|x a IH]; simpl.
  - rewrite Ascii.eqb_refl. done.
  - destruct (Ascii.eqb x c); rewrite IH; [done|].
    pose proof (split_on_nonempty c a). destruct (split_on c a); done.
Qed.





Lemma is_name_split n : is_name n = true -> split_on "/"%char n = [n].
Proof.
  unfold is_name. intros H. apply split_on_no_sep.
  apply andb_true_iff in H as [_ H]. by apply negb_true_iff in H.
Qed.

Lemma is_name_plain n :
  is_name n = true ->
  String.eqb n "" || String.eqb n "." = false /\ String.eqb n ".." = false.
Proof.
  unfold is_name. intros H.
  repeat (apply andb_true_iff in H as [H ?]).
  repeat match goal with H : negb _ = true |- _ => apply negb_true_iff in H end.
  rewrite H. auto.
Qed.
End StringFacts.

(** ** Path resolution and removal *)

Section TreeFacts.
Implicit Types (t : tree) (k cur : loc).

Lemma walk_app t cur l1 l2 :
  walk t cur (l1 ++ l2) = walk t cur l1 ≫= fun c => walk t c l2.
Proof.
  revert cur. induction l1 as [|c l1 IH]; intros cur; cbn; [done|].
  destruct (is_dir_at t cur); [|done].
  destruct (_ || _); [apply IH|]. destruct (String.eqb c ".."); apply IH.
Qed.

Lemma walk_name t cur n :
  is_name n = true ->
  walk t cur [n] = if is_dir_at t cur then Some (n :: cur) else None.
Proof.
  intros H. destruct (is_name_plain n H) as [H1 H2]. cbn. by rewrite H1, H2.
Qed.



Lemma held_spec (stuck : loc -> bool) t q :
  held stuck t q = true
  <-> exists q' nd, t !! q' = Some nd /\ stuck q' = true /\ q `suffix_of` q'.
Proof.
  unfold held. rewrite existsb_exists. split.
  - intros ([q' nd] & Hin & H). apply andb_true_iff in H as [Hs Hq].
    apply bool_decide_eq_true in Hq. exists q', nd. split; [|done].
    by apply elem_of_map_to_list, list_elem_of_In.
  - intros (q' & nd & Hq' & Hs & Hq). exists (q', nd). split.
    + by apply list_elem_of_In, elem_of_map_to_list.
    + cbn. rewrite Hs. by apply bool_decide_eq_true.
Qed.

(** Where nothing resists deletion nothing is held. *)
Lemma held_none (stuck : loc -> bool) t q :
  (forall q', stuck q' = false) -> held stuck t q = false.
Proof.
  intros H. destruct (held stuck t q) eqn:Hh; [|done].
  apply held_spec in Hh as (q' & nd & _ & Hs & _). by rewrite H in Hs.
Qed.

Lemma remove_below_lookup stuck k t q :
  remove_below stuck k t !! q
  = if decide (k `suffix_of` q)
    then if held stuck t q then t !! q else None
    else t !! q.
Proof.
  unfold remove_below. destruct (t !! q) as [nd|] eqn:Hq.
  - destruct (decide _) as [H|H].
    + destruct (held stuck t q) eqn:Hh.
      * apply map_lookup_filter_Some. split; [done|]. by right.
      * apply map_lookup_filter_None. right. intros nd' _ [Hn|Hn]; [done|].
        cbn in Hn. congruence.
    + apply map_lookup_filter_Some. split; [done|]. by left.
  - assert (filter (fun e : loc * node =>
                      ~ k `suffix_of` e.1 \/ held stuck t e.1 = true) t !! q
            = None) as ->.
    { apply map_lookup_filter_None. auto. }
    by destruct (decide _), (held stuck t q).
Qed.



End TreeFacts.

(** ** Relations that every step of a computation keeps *)

Section Keeps.
Context (P : state -> state -> Prop).
Hypothesis P_refl : forall s, P s s.
Hypothesis P_trans : forall s1 s2 s3, P s1 s2 -> P s2 s3 -> P s1 s3.

Lemma keeps_ret {A} (a : A) : keeps P (ret a).
Proof. intros s x s' [= _ <-]. apply P_refl. Qed.

Lemma keeps_raise {A} e : keeps P (@raise A e).
Proof. intros s x s' [= _ <-]. apply P_refl. Qed.

Lemma keeps_gets {A} (f : state -> A) : keeps P (gets f).
Proof. intros s x s' [= _ <-]. apply P_refl. Qed.

Lemma keeps_lift {A} (r : res A) : keeps P (lift r).
Proof. intros s x s' [= _ <-]. apply P_refl. Qed.

Lemma keeps_modify f : (forall s, P s (f s)) -> keeps P (modify f).
Proof. intros H s x s' [= _ <-]. apply H. Qed.

Lemma keeps_bind {A B} (c : M A) (k : A -> M B) :
  keeps P c -> (forall a, keeps P (k a)) -> keeps P (bind c k).
Proof.
  intros Hc Hk s x s'. unfold bind.
  destruct (c s) as [[a|e] s1] eqn:H1.
  - intros H2. eapply P_trans; [eapply Hc|eapply Hk]; eauto.
  - intros [= _ <-]. eapply Hc; eauto.
Qed.

Lemma keeps_try_finally {A} (c : M A) (f : M unit) :
  keeps P c -> keeps P f -> keeps P (try_finally c f).
Proof.
  intros Hc Hf s x s'. unfold try_finally.
  destruct (c s) as [r s1] eqn:H1. destruct (f s1) as [[u|e] s2] eqn:H2;
    intros [= _ <-]; (eapply P_trans; [eapply Hc|eapply Hf]; eauto).
Qed.

Lemma keeps_for_each {A} (l : list A) (f : A -> M unit) :
  (forall a, keeps P (f a)) -> keeps P (for_each l f).
Proof.
  intros Hf. induction l as [|a l IH]; cbn.
  - apply keeps_ret.
  - apply keeps_bind; auto.
Qed.

Lemma keeps_map_m {A B} (f : A -> M B) (l : list A) :
  (forall a, keeps P (f a)) -> keeps P (map_m f l).
Proof.
  intros Hf. induction l as [|a l IH]; cbn.
  - apply keeps_ret.
  - apply keeps_bind; [auto|]. intros b. apply keeps_bind; [auto|].
    intros bs. apply keeps_ret.
Qed.

Lemma keeps_bind_kwargs params kwargs : keeps P (bind_kwargs params kwargs).
Proof.
  unfold bind_kwargs. destruct (List.find _ _); [apply keeps_raise|apply keeps_ret].
Qed.
End Keeps.

Lemma spawn_free_refl s : spawn_free s s.
Proof. exists []. rewrite app_nil_r. auto. Qed.

Lemma spawn_free_trans s1 s2 s3 :
  spawn_free s1 s2 -> spawn_free s2 s3 -> spawn_free s1 s3.
Proof.
  intros (e1 & H1 & F1) (e2 & H2 & F2). exists (e1 ++ e2). split.
  - rewrite H2, H1, app_assoc. done.
  - apply Forall_app; auto.
Qed.

Lemma spawn_free_event e s : is_spawn e = false -> spawn_free s (add_event e s).
Proof. intros H. exists [e]. split; [done|]. repeat constructor. done. Qed.

Lemma spawn_free_same_trace s s' : trace s' = trace s -> spawn_free s s'.
Proof. intros H. exists []. rewrite app_nil_r. auto. Qed.

Create HintDb keeps.
#[export] Hint Resolve spawn_free_refl spawn_free_trans : keeps.

Ltac keeps_side := solve [eauto 2 with keeps].

Ltac keeps_step :=
  lazymatch goal with
  | |- keeps _ (ret _) => apply keeps_ret; keeps_side
  | |- keeps _ (raise _) => apply keeps_raise; keeps_side
  | |- keeps _ (gets _) => apply keeps_gets; keeps_side
  | |- keeps _ (lift _) => apply keeps_lift; keeps_side
  | |- keeps _ (bind_kwargs _ _) => apply keeps_bind_kwargs; keeps_side
  | |- keeps _ (bind _ _) => apply keeps_bind; [keeps_side| |intros ?]
  | |- keeps _ (modify _) => apply keeps_modify; intros ?
  | |- keeps _ (for_each _ _) => apply keeps_for_each; [keeps_side..|intros ?]
  | |- keeps _ (map_m _ _) => apply keeps_map_m; [keeps_side..|intros ?]
  | |- keeps _ (match ?x with _ => _ end) => destruct x
  | |- keeps _ (let _ := _ in _) => cbv zeta
  end.

Ltac spawn_free_tac :=
  repeat first
    [ keeps_step
    | apply spawn_free_event; reflexivity
    | apply spawn_free_same_trace; reflexivity ].

Section Quiet.
Context (E : Env) (cfg : cmd_config).
Abbreviation K := (keeps spawn_free).

Lemma get_job_path_quiet : K (get_job_path E cfg).
Proof. unfold get_job_path. spawn_free_tac. Qed.

Lemma get_job_file_path_quiet f : K (get_job_file_path E cfg f).
Proof. unfold get_job_file_path. spawn_free_tac. apply get_job_path_quiet. Qed.

Lemma ensure_job_path_quiet : K (ensure_job_path E cfg).
Proof. unfold ensure_job_path. spawn_free_tac. apply get_job_path_quiet. Qed.

Lemma clean_job_path_quiet : K (clean_job_path E cfg).
Proof. unfold clean_job_path. spawn_free_tac. apply get_job_path_quiet. Qed.

Lemma write_param_file_quiet p v : K (write_param_file p v).
Proof. unfold write_param_file. spawn_free_tac. Qed.

Lemma cache_store_quiet n v : K (cache_store n v).
Proof. unfold cache_store. spawn_free_tac. Qed.

Lemma get_params_loop_quiet names kwargs r0 :
  K (get_params_loop E cfg names kwargs r0).
Proof.
  revert r0. induction names as [|a names IH]; intros r0; cbn [get_params_loop];
    spawn_free_tac;
    auto using get_job_file_path_quiet, write_param_file_quiet, cache_store_quiet.
Qed.

Lemma get_params_quiet names kwargs : K (get_params E cfg names kwargs).
Proof. unfold get_params. spawn_free_tac. apply get_params_loop_quiet. Qed.

Lemma preprocess_params_quiet kwargs : K (preprocess_params E cfg kwargs).
Proof. unfold preprocess_params. spawn_free_tac. apply get_params_quiet. Qed.
End Quiet.

(** ** The parameter cache *)

Lemma bind_kwargs_ok params kwargs s :
  Forall (fun p => kwargs !! p = None) params ->
  bind_kwargs params kwargs s = (Ok tt, s).
Proof.
  intros H. unfold bind_kwargs.
  replace (List.find _ params) with (@None string); [done|].
  symmetry. induction H as [|p l Hp Hl IH]; [done|].
  cbn. rewrite Hp. rewrite bool_decide_eq_false_2; [exact IH|].
  intros [? ?]; discriminate.
Qed.

Lemma bind_kwargs_state params kwargs s x s' :
  bind_kwargs params kwargs s = (x, s') -> s' = s.
Proof.
  unfold bind_kwargs. destruct (List.find _ _); unfold raise, ret; congruence.
Qed.

Section Resolver.
Context (E : Env) (cfg : cmd_config).

Lemma get_job_path_state s x s' :
  get_job_path E cfg s = (x, s') -> s' = s.
Proof.
  unfold get_job_path, bind, gets, lift. destruct (job_path_of _ _ _); congruence.
Qed.

Lemma get_job_file_path_state f s x s' :
  get_job_file_path E cfg f s = (x, s') -> s' = s.
Proof.
  unfold get_job_file_path, bind.
  destruct (get_job_path E cfg s) as [[p|e] s1] eqn:H; apply get_job_path_state in H;
    unfold ret; congruence.
Qed.

Lemma write_param_file_cache path v s x s' :
  write_param_file path v s = (x, s') -> _params_cache s' = _params_cache s.
Proof.
  unfold write_param_file, bind, gets, modify, raise. cbn.
  destruct (open_wb _ _ _); [|intros [= _ <-]; done].
  destruct (to_write v); intros [= _ <-]; done.
Qed.

(** One resolution never changes a cache entry that is already there. *)
Lemma get_params_loop_cache_mono names kwargs r0 s x s' n v :
  get_params_loop E cfg names kwargs r0 s = (x, s') ->
  _params_cache s !! n = Some v -> _params_cache s' !! n = Some v.
Proof.
  revert r0 s. induction names as [|a names IH]; intros r0 s.
  - cbn. unfold ret. intros [= _ <-]. done.
  - cbn [get_params_loop]. unfold bind at 1. unfold gets at 1.
    destruct (_params_cache s !! a) as [va|] eqn:Ha; [apply IH|].
    destruct (params_get _ a) as [pc|].
    + destruct (_ && _). { unfold raise. intros [= _ <-]. done. }
      destruct (py_eq _ _).
      * unfold bind at 1.
        destruct (get_job_file_path E cfg _ s) as [[p|e] s1] eqn:H1;
          apply get_job_file_path_state in H1; subst s1; [|intros [= _ <-]; done].
        unfold bind at 1.
        destruct (write_param_file _ _ s) as [[[]|e] s2] eqn:H2;
          apply write_param_file_cache in H2; [|intros [= _ <-]; congruence].
        unfold bind at 1. unfold cache_store, bind, gets, modify. cbn.
        intros H Hn. eapply IH; [exact H|]. cbn. rewrite H2.
        rewrite lookup_insert_ne; [done|]. intros ->. congruence.
      * unfold bind at 1. unfold cache_store, bind, gets, modify. cbn.
        intros H Hn. eapply IH; [exact H|]. cbn.
        rewrite lookup_insert_ne; [done|]. intros ->. congruence.
    + destruct (kwargs !! a); [|apply IH].
      unfold bind at 1. unfold cache_store, bind, gets, modify. cbn.
      intros H Hn. eapply IH; [exact H|]. cbn.
      rewrite lookup_insert_ne; [done|]. intros ->. congruence.
Qed.

Lemma get_params_cache_mono names kwargs s x s' n v :
  get_params E cfg names kwargs s = (x, s') ->
  _params_cache s !! n = Some v -> _params_cache s' !! n = Some v.
Proof.
  unfold get_params. unfold bind at 1.
  destruct (bind_kwargs _ _ s) as [[[]|e] s1] eqn:H; apply bind_kwargs_state in H; subst s1.
  - apply get_params_loop_cache_mono.
  - intros [= _ <-]. done.
Qed.

(** What a successful resolution returns for a name is what the cache
    then holds for it. *)
Lemma get_params_loop_cached names kwargs r0 s r s' n v :
  get_params_loop E cfg names kwargs r0 s = (Ok r, s') ->
  r !! n = Some v ->
  _params_cache s' !! n = Some v \/ r0 !! n = Some v.
Proof.
  revert r0 s. induction names as [|a names IH]; intros r0 s.
  - cbn. unfold ret. intros [= <- <-]. auto.
  - cbn [get_params_loop]. unfold bind at 1. unfold gets at 1.
    assert (Hstep : forall s1 va,
      _params_cache s1 !! a = Some va ->
      get_params_loop E cfg names kwargs (<[a:=va]> r0) s1 = (Ok r, s') ->
      r !! n = Some v -> _params_cache s' !! n = Some v \/ r0 !! n = Some v).
    { intros s1 va Hva H Hn. destruct (IH _ _ H Hn) as [?|Hr]; [auto|].
      destruct (decide (a = n)) as [->|Hne].
      - rewrite lookup_insert_eq in Hr. injection Hr as ->. left.
        eapply get_params_loop_cache_mono; eauto.
      - rewrite lookup_insert_ne in Hr by done. auto. }
    destruct (_params_cache s !! a) as [va|] eqn:Ha; [eapply Hstep; eauto|].
    destruct (params_get _ a) as [pc|].
    + destruct (_ && _). { unfold raise. intros [= ]. }
      destruct (py_eq _ _).
      * unfold bind at 1.
        destruct (get_job_file_path E cfg _ s) as [[p|e] s1] eqn:H1;
          apply get_job_file_path_state in H1; subst s1; [|intros [= ]].
        unfold bind at 1.
        destruct (write_param_file _ _ s) as [[[]|e] s2] eqn:H2; [|intros [= ]].
        unfold bind at 1. unfold cache_store, bind, gets, modify. cbn.
        apply Hstep. cbn. apply lookup_insert_eq.
      * unfold bind at 1. unfold cache_store, bind, gets, modify. cbn.
        apply Hstep. cbn. apply lookup_insert_eq.
    + destruct (kwargs !! a); [|apply IH].
      unfold bind at 1. unfold cache_store, bind, gets, modify. cbn.
      apply Hstep. cbn. apply lookup_insert_eq.
Qed.

Lemma get_params_hit name v kwargs s :
  kwargs !! "self" = None ->
  _params_cache s !! name = Some v ->
  get_params E cfg [name] kwargs s = (Ok {[name := v]}, s).
Proof.
  intros Hself Hc. unfold get_params, bind.
  rewrite bind_kwargs_ok by (repeat constructor; done).
  cbn. unfold bind, gets. rewrite Hc. cbn. rewrite insert_empty. done.
Qed.

(** C3.  Once a resolution has returned a value for a name, every later
    resolution of that name, after whatever other resolutions and with
    whatever caller values, returns that same value and leaves the whole
    state as it is: no file is written, nothing is added to the trace,
    and the caller's values play no part. *)
Theorem repeated_resolution_hits_cache names kwargs s r s1 name v :
  get_params E cfg names kwargs s = (Ok r, s1) ->
  r !! name = Some v ->
  forall names' kwargs' x s2,
    get_params E cfg names' kwargs' s1 = (x, s2) ->
    forall kwargs'',
      kwargs'' !! "self" = None ->
      get_params E cfg [name] kwargs'' s2 = (Ok {[name := v]}, s2).
Proof.
  intros H1 Hr names' kwargs' x s2 H2 kwargs'' Hself.
  apply get_params_hit; [done|].
  eapply get_params_cache_mono; [exact H2|].
  unfold get_params in H1. unfold bind at 1 in H1.
  destruct (bind_kwargs _ _ s) as [[[]|e] s0] eqn:H; apply bind_kwargs_state in H; subst s0;
    [|discriminate].
  destruct (get_params_loop_cached _ _ _ _ _ _ _ _ H1 Hr) as [?|Hemp]; [done|].
  rewrite lookup_empty in Hemp. discriminate.
Qed.
End Resolver.

(** ** Declared parameters *)

Section Declared.
Context (E : Env) (cfg : cmd_config)
  (params : list (string * option param_config)).
Hypothesis Hparams : cfg_params cfg = Given params.

(** The first resolution of a declared parameter, spelled out. *)
Lemma get_params_one name pc kwargs s :
  params_get params name = Some pc ->
  kwargs !! "self" = None ->
  _params_cache s !! name = None ->
  get_params E cfg [name] kwargs s =
    let v := kwargs_get kwargs name in
    if py_truthy (pc_required pc) && bool_decide (v = VNone)
    then (Raise (ValueError ("Missing required param: " +:+ name)), s)
    else if py_eq (pc_type pc) (VStr "file") then
      let filename := py_or (pc_filename pc) (VStr name) in
      (path <- get_job_file_path E cfg (py_str filename) ;;
       write_param_file path v ;;
       cache_store name filename ;;
       ret ({[name := filename]} : gmap string value)) s
    else (Ok {[name := v]}, set_cache (<[name := v]> (_params_cache s)) s).
Proof.
  intros Hpc Hself Hc. unfold get_params. unfold bind at 1.
  rewrite bind_kwargs_ok by (repeat constructor; done).
  cbn [get_params_loop]. unfold bind at 1. unfold gets at 1.
  rewrite Hc, Hparams, Hpc. cbv zeta.
  destruct (_ && _); [done|].
  destruct (py_eq _ _).
  - unfold bind. destruct (get_job_file_path _ _ _ s) as [[p|e] s1]; [|done].
    destruct (write_param_file _ _ s1) as [[[]|e] s2]; [|done].
    destruct (cache_store _ _ s2) as [[[]|e] s3]; [|done].
    unfold ret. by rewrite insert_empty.
  - unfold bind, cache_store, bind, gets, modify, ret. cbn. by rewrite insert_empty.
Qed.

Lemma get_params_file name pc kwargs s jp k data fname :
  params_get params name = Some pc ->
  kwargs !! "self" = None ->
  _params_cache s !! name = None ->
  py_truthy (pc_required pc) && bool_decide (kwargs_get kwargs name = VNone)
  = false ->
  py_eq (pc_type pc) (VStr "file") = true ->
  py_or (pc_filename pc) (VStr name) = VStr fname ->
  to_write (kwargs_get kwargs name) = VBytes data ->
  job_path_of E cfg (job_id s) = Ok jp ->
  open_wb (fs s) (proc_cwd s) (jp +:+ "/" +:+ fname) = Some k ->
  get_params E cfg [name] kwargs s
  = (Ok {[name := VStr fname]},
     set_cache (<[name := VStr fname]> (_params_cache s))
       (set_fs (<[k := File data]> (fs s))
          (add_event (EvOpen true (jp +:+ "/" +:+ fname) (Some k)) s))).
Proof.
  intros Hpc Hself Hc Hreq Hty Hfn Hv Hjp Hopen.
  rewrite (get_params_one _ _ _ _ Hpc Hself Hc). cbv zeta.
  rewrite Hreq, Hty, Hfn.
  unfold bind, get_job_file_path, get_job_path, bind, gets, lift, ret.
  rewrite Hjp. cbn [py_str].
  unfold write_param_file, bind, gets, modify, id. cbn [fs proc_cwd add_event].
  rewrite Hopen. cbn [fs set_fs]. rewrite Hv. reflexivity.
Qed.

Lemma py_eq_file v : py_eq v (VStr "file") = true <-> v = VStr "file".
Proof.
  destruct v as [| | |x|]; cbn; try (split; [discriminate|discriminate]).
  destruct (String.eqb_spec x "file"); split; congruence.
Qed.

(** Resolving other names leaves a name that is not cached uncached. *)
Lemma get_params_loop_cache_other names kwargs r0 s x s' n :
  n ∉ names ->
  _params_cache s !! n = None ->
  get_params_loop E cfg names kwargs r0 s = (x, s') ->
  _params_cache s' !! n = None.
Proof.
  revert r0 s. induction names as [|a names IH]; intros r0 s Hn Hc.
  - cbn. unfold ret. intros [= _ <-]. done.
  - apply not_elem_of_cons in Hn as [Hne Hn].
    cbn [get_params_loop]. unfold bind at 1. unfold gets at 1.
    assert (Hnext : forall v r1 s1,
      _params_cache s1 = _params_cache s ->
      (bind (cache_store a v) (fun _ => get_params_loop E cfg names kwargs r1)) s1
      = (x, s') -> _params_cache s' !! n = None).
    { intros v r1 s1 Hs1. unfold bind, cache_store, bind, gets, modify. cbn.
      apply IH; [done|]. cbn. rewrite Hs1, lookup_insert_ne; done. }
    destruct (_params_cache s !! a); [by apply IH|].
    destruct (params_get _ a) as [pc|].
    + destruct (_ && _). { unfold raise. intros [= _ <-]. done. }
      destruct (py_eq _ _); [|by apply Hnext].
      unfold bind at 1.
      destruct (get_job_file_path E cfg _ s) as [[p|e] s1] eqn:H1;
        apply get_job_file_path_state in H1; subst s1; [|intros [= _ <-]; done].
      unfold bind at 1.
      destruct (write_param_file _ _ s) as [[[]|e] s2] eqn:H2;
        apply write_param_file_cache in H2; [|intros [= _ <-]; congruence].
      by apply Hnext.
    + destruct (kwargs !! a); [by apply Hnext|by apply IH].
Qed.

Lemma get_params_cache_other names kwargs s x s' n :
  n ∉ names ->
  _params_cache s !! n = None ->
  get_params E cfg names kwargs s = (x, s') ->
  _params_cache s' !! n = None.
Proof.
  intros Hn Hc. unfold get_params. unfold bind at 1.
  destruct (bind_kwargs _ _ s) as [[[]|e] s1] eqn:H; apply bind_kwargs_state in H; subst s1.
  - by apply get_params_loop_cache_other.
  - intros [= _ <-]. done.
Qed.

Lemma params_get_declared (l : list (string * option param_config)) name pc :
  params_get l name = Some pc -> name ∈ map fst l.
Proof.
  induction l as [|[k o] l IH]; cbn; [done|].
  destruct (String.eqb_spec k name) as [->|]; intros H.
  - apply elem_of_cons. auto.
  - apply elem_of_cons. auto.
Qed.

(** The pre-resolution pass stops with an exception when a required
    parameter that is not cached has no value. *)
Lemma for_each_missing_raises name pc kwargs l :
  params_get params name = Some pc ->
  py_truthy (pc_required pc) = true ->
  kwargs_get kwargs name = VNone ->
  name ∈ l ->
  forall s, _params_cache s !! name = None ->
  exists e s',
    for_each l (fun n => get_params E cfg [n] kwargs ;; ret tt) s
    = (Raise e, s').
Proof.
  intros Hpc Hreq Hv. induction l as [|a l IH]; intros Hin s Hc.
  - by apply elem_of_nil in Hin.
  - cbn [for_each]. unfold bind at 1. unfold bind at 1.
    destruct (get_params E cfg [a] kwargs s) as [[r|e] s1] eqn:Hg; [|eauto].
    unfold ret at 1.
    destruct (decide (a = name)) as [->|Hne].
    + exfalso. destruct (kwargs !! "self") eqn:Hself.
      * unfold get_params, bind, bind_kwargs in Hg. cbn in Hg. rewrite Hself in Hg.
        cbn in Hg. discriminate.
      * rewrite (get_params_one _ _ _ _ Hpc Hself Hc) in Hg. cbv zeta in Hg.
        rewrite Hreq, Hv in Hg. cbn in Hg. discriminate.
    + apply IH.
      * apply elem_of_cons in Hin as [?|?]; congruence.
      * eapply get_params_cache_other; [|exact Hc|exact Hg].
        intros H%list_elem_of_singleton. congruence.
Qed.

Lemma preprocess_params_missing_raises name pc kwargs s :
  params_get params name = Some pc ->
  py_truthy (pc_required pc) = true ->
  kwargs_get kwargs name = VNone ->
  _params_cache s !! name = None ->
  exists e s', preprocess_params E cfg kwargs s = (Raise e, s').
Proof.
  intros Hpc Hreq Hv Hc. unfold preprocess_params. unfold bind at 1.
  destruct (bind_kwargs _ _ s) as [[[]|e] s1] eqn:H; [|eauto].
  apply bind_kwargs_state in H; subst s1. rewrite Hparams.
  eapply for_each_missing_raises; eauto using params_get_declared.
Qed.
End Declared.

(** ** The job identifier stays put inside a run *)

Lemma same_job_refl s : same_job s s.
Proof. by split. Qed.

Lemma same_job_trans s1 s2 s3 : same_job s1 s2 -> same_job s2 s3 -> same_job s1 s3.
Proof. intros [? ?] [? ?]. split; congruence. Qed.

#[export] Hint Resolve same_job_refl same_job_trans : keeps.

Ltac same_job_tac :=
  repeat first [ keeps_step | (split; reflexivity) ].

Section Job.
Context (E : Env) (cfg : cmd_config).

Lemma get_job_path_same_job : keeps same_job (get_job_path E cfg).
Proof. unfold get_job_path. same_job_tac. Qed.

Lemma get_job_file_path_same_job f : keeps same_job (get_job_file_path E cfg f).
Proof. unfold get_job_file_path. same_job_tac. apply get_job_path_same_job. Qed.

Lemma write_param_file_same_job p v : keeps same_job (write_param_file p v).
Proof. unfold write_param_file. same_job_tac. Qed.

Lemma cache_store_same_job n v : keeps same_job (cache_store n v).
Proof. unfold cache_store. same_job_tac. Qed.

Lemma get_params_loop_same_job names kwargs r0 :
  keeps same_job (get_params_loop E cfg names kwargs r0).
Proof.
  revert r0. induction names as [|a names IH]; intros r0; cbn [get_params_loop];
    same_job_tac;
    auto using get_job_file_path_same_job, write_param_file_same_job,
      cache_store_same_job.
Qed.

Lemma get_params_same_job names kwargs :
  keeps same_job (get_params E cfg names kwargs).
Proof. unfold get_params. same_job_tac; apply get_params_loop_same_job. Qed.

Lemma preprocess_params_same_job kwargs :
  keeps same_job (preprocess_params E cfg kwargs).
Proof.
  unfold preprocess_params. same_job_tac. apply get_params_same_job.
Qed.

Lemma process_input_item_same_job item env kwargs :
  keeps same_job (process_input_item E cfg item env kwargs).
Proof.
  unfold process_input_item.
  destruct item; same_job_tac; apply get_params_same_job.
Qed.

Lemma prepare_cmd_same_job kwargs : keeps same_job (prepare_cmd E cfg kwargs).
Proof.
  unfold prepare_cmd. same_job_tac;
    auto using process_input_item_same_job, get_job_path_same_job.
Qed.

Lemma read_file_same_job p : keeps same_job (read_file p).
Proof. unfold read_file. same_job_tac. Qed.

Lemma decode_same_job b : keeps same_job (decode b).
Proof. unfold decode. same_job_tac. Qed.

Lemma json_log_info_same_job d : keeps same_job (json_log_info E d).
Proof. unfold json_log_info, now. same_job_tac. Qed.

Lemma execute_spawn_same_job cmd : keeps same_job (execute_spawn E cfg cmd).
Proof.
  unfold execute_spawn, now. same_job_tac;
    auto using decode_same_job, json_log_info_same_job, get_job_path_same_job.
Qed.

Lemma return_file_list_same_job d : keeps same_job (return_file_list E cfg d).
Proof.
  unfold return_file_list, read_one. same_job_tac;
    auto using read_file_same_job, get_job_file_path_same_job,
      get_job_path_same_job.
Qed.

Lemma return_entry_same_job out err item r :
  keeps same_job (return_entry E cfg out err item r).
Proof.
  unfold return_entry, item_key. destruct item.
  - same_job_tac; apply decode_same_job.
  - same_job_tac;
      auto using read_file_same_job, return_file_list_same_job,
        get_job_file_path_same_job.
Qed.

Lemma return_loop_same_job out err items r :
  keeps same_job (return_loop E cfg out err items r).
Proof.
  revert r. induction items as [|i items IH]; intros r; cbn [return_loop].
  - same_job_tac.
  - apply keeps_bind; [keeps_side| |auto]. apply return_entry_same_job.
Qed.

Lemma execute_same_job cmd kwargs : keeps same_job (execute E cfg cmd kwargs).
Proof.
  unfold execute. same_job_tac;
    auto using execute_spawn_same_job, return_loop_same_job.
Qed.

Lemma run_body_same_job kwargs : keeps same_job (run_body E cfg kwargs).
Proof.
  unfold run_body. same_job_tac;
    auto using preprocess_params_same_job, prepare_cmd_same_job,
      json_log_info_same_job, execute_same_job.
Qed.

Lemma ensure_job_path_same_job : keeps same_job (ensure_job_path E cfg).
Proof. unfold ensure_job_path. same_job_tac. apply get_job_path_same_job. Qed.

Lemma clean_job_path_same_job : keeps same_job (clean_job_path E cfg).
Proof. unfold clean_job_path. same_job_tac. apply get_job_path_same_job. Qed.
End Job.

(** ** The job context *)

Section Run.
Context (E : Env) (cfg : cmd_config).

Lemma job_path_of_shape j jp :
  job_path_of E cfg (Some j) = Ok jp -> exists p, jp = p +:+ String "/"%char j.
Proof.
  unfold job_path_of. destruct (py_or _ _); try discriminate.
  intros [= <-]. eauto.
Qed.

Lemma job_context_eq {A} (body : M A) s :
  job_context E cfg body s
  = try_finally (ensure_job_path E cfg ;; body)
      (clean_job_path E cfg ;; modify (set_job_id None)) (entered E s).
Proof. reflexivity. Qed.

Lemma clean_job_path_eq s jp :
  job_path_of E cfg (job_id s) = Ok jp ->
  clean_job_path E cfg s
  = (Ok tt,
     set_fs (rmtree (undeletable E (fs s)) (fs s) (proc_cwd s) jp)
       (add_event (EvRmtree jp) s)).
Proof.
  intros H. unfold clean_job_path, get_job_path, bind, gets, lift. rewrite H.
  reflexivity.
Qed.

Lemma clean_job_path_raises s e :
  job_path_of E cfg (job_id s) = Raise e ->
  clean_job_path E cfg s = (Raise e, s).
Proof.
  intros H. unfold clean_job_path, get_job_path, bind, gets, lift. by rewrite H.
Qed.

Lemma ensure_job_path_raises s e :
  job_path_of E cfg (job_id s) = Raise e ->
  ensure_job_path E cfg s = (Raise e, s).
Proof.
  intros H. unfold ensure_job_path, get_job_path, bind, gets, lift. by rewrite H.
Qed.


Lemma ensure_job_path_cache s x s' :
  ensure_job_path E cfg s = (x, s') -> _params_cache s' = _params_cache s.
Proof.
  unfold ensure_job_path, get_job_path, bind, gets, lift.
  destruct (job_path_of _ _ _); [|by intros [= _ <-]].
  unfold modify, id. cbn. destruct (makedirs _ _ _); by intros [= _ <-].
Qed.

Lemma cleanup_quiet :
  keeps spawn_free (clean_job_path E cfg ;; modify (set_job_id None)).
Proof. spawn_free_tac. apply clean_job_path_quiet. Qed.

Lemma spawn_free_entered s : spawn_free s (entered E s).
Proof. by apply spawn_free_same_trace. Qed.

(** A run whose pre-resolution pass raises ends with an exception and
    starts no process. *)
Lemma run_stops_at_preprocess kwargs s :
  (forall s1, _params_cache s1 = _params_cache s ->
     exists e s2, preprocess_params E cfg kwargs s1 = (Raise e, s2)) ->
  exists e s', run E cfg kwargs s = (Raise e, s') /\ spawn_free s s'.
Proof.
  intros Hpre. unfold run. unfold bind at 1. rewrite job_context_eq.
  unfold try_finally.
  assert (exists e s2,
    (ensure_job_path E cfg;; run_body E cfg kwargs) (entered E s) = (Raise e, s2)
    /\ spawn_free (entered E s) s2) as (e & s2 & -> & Hq).
  { unfold bind at 1.
    destruct (ensure_job_path E cfg (entered E s)) as [[[]|e] s1] eqn:He.
    - destruct (Hpre s1) as (e & s2 & Hp).
      { by rewrite (ensure_job_path_cache _ _ _ He). }
      exists e, s2. unfold run_body. unfold bind at 1. rewrite Hp. split; [done|].
      eapply spawn_free_trans.
      + eapply ensure_job_path_quiet; eauto.
      + eapply preprocess_params_quiet; eauto.
    - exists e, s1. split; [done|]. eapply ensure_job_path_quiet; eauto. }
  destruct ((clean_job_path E cfg;; modify (set_job_id None)) s2)
    as [[[]|e'] s3] eqn:Hc; apply cleanup_quiet in Hc;
    eexists _, _; (split; [reflexivity|]);
    eauto using spawn_free_trans, spawn_free_entered.
Qed.

(** What a run does when the scratch directory can be made and the block
    inside [job_context] raises without touching the job identifier. *)
Lemma run_body_raises_eq kwargs s jp t1 e s2 :
  job_path_of E cfg (Some (next_job_id E s)) = Ok jp ->
  makedirs (fs s) (proc_cwd s) jp = Some t1 ->
  run_body E cfg kwargs
    (set_fs t1 (add_event (EvMakedirs jp) (entered E s))) = (Raise e, s2) ->
  run E cfg kwargs s
  = (Raise e,
     set_job_id None
       (set_fs (rmtree (undeletable E (fs s2)) (fs s2) (proc_cwd s2) jp)
          (add_event (EvRmtree jp) s2))).
Proof.
  intros Hjp Hmk Hbody.
  assert (Hj : job_id s2 = Some (next_job_id E s)).
  { apply run_body_same_job in Hbody as [-> _]. done. }
  unfold run. unfold bind at 1. rewrite job_context_eq. unfold try_finally.
  unfold bind at 1.
  replace (ensure_job_path E cfg (entered E s))
    with (@Ok unit tt, set_fs t1 (add_event (EvMakedirs jp) (entered E s))).
  2:{ unfold ensure_job_path, get_job_path, bind, gets, lift. cbn [entered job_id set_job_id].
      rewrite Hjp. unfold modify, id. cbn. rewrite Hmk. reflexivity. }
  rewrite Hbody. unfold bind at 1.
  rewrite (clean_job_path_eq s2 jp) by (by rewrite Hj). reflexivity.
Qed.
End Run.

(** ** Resolution of declared parameters *)

Section ResolverClaims.
Context (E : Env) (cfg : cmd_config)
  (params : list (string * option param_config)).
Hypothesis Hparams : cfg_params cfg = Given params.

(** C2.  When a declared parameter is required and the caller supplies no
    value for it, resolving it raises the validation error that names it
    and changes nothing; and a run of such a command ends with an
    exception without a process having been started. *)
Theorem missing_required_param_rejected name pc kwargs :
  params_get params name = Some pc ->
  py_truthy (pc_required pc) = true ->
  kwargs_get kwargs name = VNone ->
  (forall s,
     kwargs !! "self" = None ->
     _params_cache s !! name = None ->
     get_params E cfg [name] kwargs s
     = (Raise (ValueError ("Missing required param: " +:+ name)), s))
  /\ (forall s,
        _params_cache s !! name = None ->
        exists e s', run E cfg kwargs s = (Raise e, s') /\ spawn_free s s').
Proof.
  intros Hpc Hreq Hv. split.
  - intros s Hself Hc. rewrite (get_params_one E cfg params Hparams _ _ _ _ Hpc Hself Hc).
    cbv zeta. by rewrite Hreq, Hv.
  - intros s Hc. apply run_stops_at_preprocess. intros s1 Hs1.
    eapply preprocess_params_missing_raises; eauto. by rewrite Hs1.
Qed.

(** C4.  A declared parameter of type [file], given bytes, text or (when it
    is not required) nothing: the bytes (none for no value) are written to
    the file [<scratch path>/<filename>], where the filename is the
    [filename] field of the specification or else the parameter's name,
    and the parameter resolves to that filename. *)
Theorem file_param_written_and_named name pc kwargs s jp k data fname :
  params_get params name = Some pc ->
  pc_type pc = VStr "file" ->
  (pc_filename pc = VNone /\ fname = name
   \/ pc_filename pc = VStr fname /\ fname <> "") ->
  (kwargs_get kwargs name = VNone /\ data = ""
     /\ py_truthy (pc_required pc) = false
   \/ kwargs_get kwargs name = VBytes data
   \/ kwargs_get kwargs name = VStr data) ->
  kwargs !! "self" = None ->
  _params_cache s !! name = None ->
  job_path_of E cfg (job_id s) = Ok jp ->
  open_wb (fs s) (proc_cwd s) (jp +:+ "/" +:+ fname) = Some k ->
  exists s',
    get_params E cfg [name] kwargs s = (Ok {[name := VStr fname]}, s')
    /\ fs s' = <[k := File data]> (fs s)
    /\ _params_cache s' = <[name := VStr fname]> (_params_cache s)
    /\ trace s' = trace s ++ [EvOpen true (jp +:+ "/" +:+ fname) (Some k)].
Proof.
  intros Hpc Hty Hfn Hv Hself Hc Hjp Hopen.
  eexists. split; [|split; [|split]]; cycle 1.
  4:{ eapply (get_params_file E cfg params Hparams); eauto.
      - destruct Hv as [(-> & _ & ->)|[->| ->]]; [by rewrite andb_false_l|..];
          by rewrite andb_false_r.
      - by rewrite Hty.
      - destruct Hfn as [[-> ->]|[-> Hne]]; [done|].
        unfold py_or. cbn. by destruct (String.eqb_spec fname "").
      - destruct Hv as [(-> & -> & _)|[->| ->]]; [done| |].
        + unfold to_write, py_or. cbn. by destruct (String.eqb_spec data "") as [->|].
        + unfold to_write, py_or. cbn. by destruct (String.eqb_spec data "") as [->|]. }
  all: reflexivity.
Qed.

(** C8, as the code has it.  A declared parameter that is not of type
    [file] and not required, for which the caller supplies no value,
    resolves to [None] (and [None] is what gets cached), not to the empty
    string. *)
Theorem optional_plain_param_absent_is_None name pc kwargs s :
  params_get params name = Some pc ->
  py_truthy (pc_required pc) = false ->
  py_eq (pc_type pc) (VStr "file") = false ->
  kwargs !! name = None ->
  kwargs !! "self" = None ->
  _params_cache s !! name = None ->
  get_params E cfg [name] kwargs s
  = (Ok {[name := VNone]},
     set_cache (<[name := VNone]> (_params_cache s)) s).
Proof.
  intros Hpc Hreq Hty Hv Hself Hc.
  rewrite (get_params_one E cfg params Hparams _ _ _ _ Hpc Hself Hc). cbv zeta.
  rewrite Hreq, Hty. unfold kwargs_get. by rewrite Hv.
Qed.

(** C10.  For a required declared parameter the caller supplies as the
    empty string or as empty bytes: resolution never raises the validation
    error; a parameter that is not of type [file] resolves to the empty
    value supplied; and for one of type [file] an empty file is written
    (once the path is computed and can be opened) and the parameter
    resolves to its filename. *)
Theorem empty_value_meets_required name pc kwargs s v :
  params_get params name = Some pc ->
  py_truthy (pc_required pc) = true ->
  kwargs !! name = Some v ->
  v = VStr "" \/ v = VBytes "" ->
  kwargs !! "self" = None ->
  _params_cache s !! name = None ->
  (forall msg s', get_params E cfg [name] kwargs s <> (Raise (ValueError msg), s'))
  /\ (py_eq (pc_type pc) (VStr "file") = false ->
      get_params E cfg [name] kwargs s
      = (Ok {[name := v]}, set_cache (<[name := v]> (_params_cache s)) s))
  /\ (forall jp k fname,
        pc_type pc = VStr "file" ->
        py_or (pc_filename pc) (VStr name) = VStr fname ->
        job_path_of E cfg (job_id s) = Ok jp ->
        open_wb (fs s) (proc_cwd s) (jp +:+ "/" +:+ fname) = Some k ->
        exists s',
          get_params E cfg [name] kwargs s = (Ok {[name := VStr fname]}, s')
          /\ fs s' = <[k := File ""]> (fs s)).
Proof.
  intros Hpc Hreq Hk Hv Hself Hc.
  assert (Hget : kwargs_get kwargs name = v) by (unfold kwargs_get; by rewrite Hk).
  assert (Hnn : bool_decide (v = VNone) = false).
  { apply bool_decide_eq_false. by destruct Hv as [-> | ->]. }
  assert (Hw : to_write v = VBytes "") by (by destruct Hv as [-> | ->]).
  split; [|split].
  - intros msg s'. rewrite (get_params_one E cfg params Hparams _ _ _ _ Hpc Hself Hc).
    cbv zeta. rewrite Hget, Hnn, andb_false_r.
    destruct (py_eq _ _); [|done].
    unfold bind at 1. unfold get_job_file_path, get_job_path, bind, gets, lift.
    unfold job_path_of. destruct (py_or (cfg_cwd cfg) _); try done.
    unfold ret at 1. unfold write_param_file, bind, gets, modify, id, raise.
    destruct (open_wb _ _ _); [|done]. rewrite Hw. done.
  - intros Hty. rewrite (get_params_one E cfg params Hparams _ _ _ _ Hpc Hself Hc).
    cbv zeta. by rewrite Hget, Hnn, andb_false_r, Hty.
  - intros jp k fname Hty Hfn Hjp Hopen. eexists. split.
    + eapply (get_params_file E cfg params Hparams); eauto.
      * by rewrite Hget, Hnn, andb_false_r.
      * by rewrite Hty.
      * by rewrite Hget.
    + reflexivity.
Qed.
End ResolverClaims.

(** ** Validation and materialisation are interleaved *)

Section EagerValidation.
Context (E : Env) (cfg : cmd_config)
  (params : list (string * option param_config)).
Hypothesis Hparams : cfg_params cfg = Given params.

Lemma params_get_app (pre post : list (string * option param_config)) name o :
  name ∉ map fst pre ->
  params_get (pre ++ (name, o) :: post) name = o.
Proof.
  induction pre as [|[k x] pre IH]; cbn; intros Hn.
  - by rewrite String.eqb_refl.
  - apply not_elem_of_cons in Hn as [Hne Hn].
    destruct (String.eqb_spec k name); [congruence|auto].
Qed.

(** Resolving a name that is not a [file] parameter touches neither the
    tree nor the trace, and can only fail as a missing required value. *)
Lemma get_params_plain_step a kwargs s x s' :
  kwargs !! "self" = None ->
  (forall pc, params_get params a = Some pc ->
              py_eq (pc_type pc) (VStr "file") = false) ->
  get_params E cfg [a] kwargs s = (x, s') ->
  fs s' = fs s /\ trace s' = trace s
  /\ (forall e, x = Raise e ->
                e = ValueError ("Missing required param: " +:+ a)).
Proof.
  intros Hself Hnf. unfold get_params. unfold bind at 1.
  rewrite bind_kwargs_ok by (repeat constructor; done).
  cbn [get_params_loop]. unfold bind at 1. unfold gets at 1.
  destruct (_params_cache s !! a). { cbn. intros [= <- <-]. done. }
  rewrite Hparams.
  destruct (params_get params a) as [pc|] eqn:Hpc.
  - cbv zeta. destruct (_ && _). { intros [= <- <-]. split; [done|]. split; [done|]. by intros e [= <-]. }
    rewrite (Hnf pc eq_refl).
    unfold bind, cache_store, bind, gets, modify, ret. cbn. intros [= <- <-]. done.
  - destruct (kwargs !! a).
    + unfold bind, cache_store, bind, gets, modify, ret. cbn. intros [= <- <-]. done.
    + cbn. intros [= <- <-]. done.
Qed.

Lemma for_each_fails_without_writing name pc kwargs rest pre :
  params_get params name = Some pc ->
  py_truthy (pc_required pc) = true ->
  kwargs_get kwargs name = VNone ->
  kwargs !! "self" = None ->
  name ∉ pre ->
  (forall n pc', n ∈ pre -> params_get params n = Some pc' ->
                 py_eq (pc_type pc') (VStr "file") = false) ->
  forall s, _params_cache s !! name = None ->
  exists q s',
    for_each (pre ++ name :: rest)
      (fun n => get_params E cfg [n] kwargs ;; ret tt) s
    = (Raise (ValueError ("Missing required param: " +:+ q)), s')
    /\ q ∈ pre ++ [name] /\ fs s' = fs s /\ trace s' = trace s
    /\ job_id s' = job_id s.
Proof.
  intros Hpc Hreq Hv Hself. induction pre as [|a pre IH]; intros Hn Hnf s Hc.
  - exists name, s. cbn [app for_each]. unfold bind at 1. unfold bind at 1.
    rewrite (get_params_one E cfg params Hparams _ _ _ _ Hpc Hself Hc). cbv zeta.
    rewrite Hreq, Hv. cbn. split; [done|]. split; [|done]. apply list_elem_of_singleton. done.
  - apply not_elem_of_cons in Hn as [Hne Hn].
    cbn [app for_each]. unfold bind at 1. unfold bind at 1.
    destruct (get_params E cfg [a] kwargs s) as [[r|e] s1] eqn:Hg.
    + destruct (get_params_plain_step _ _ _ _ _ Hself
                  (fun pc' => Hnf a pc' (list_elem_of_here _ _)) Hg) as (Hfs & Htr & _).
      pose proof (get_params_same_job E cfg _ _ _ _ _ Hg) as [Hj _].
      unfold ret at 1.
      destruct (IH Hn (fun n pc' Hin => Hnf n pc' (list_elem_of_further _ _ _ Hin)) s1)
        as (q & s' & -> & Hq & Hfs' & Htr' & Hj').
      { eapply get_params_cache_other; [|exact Hc|exact Hg].
        intros H%list_elem_of_singleton. congruence. }
      exists q, s'. split; [done|]. split; [by apply list_elem_of_further|].
      split; [congruence|]. split; congruence.
    + destruct (get_params_plain_step _ _ _ _ _ Hself
                  (fun pc' => Hnf a pc' (list_elem_of_here _ _)) Hg) as (Hfs & Htr & He).
      pose proof (get_params_same_job E cfg _ _ _ _ _ Hg) as [Hj _].
      rewrite (He e eq_refl). exists a, s1. split; [done|].
      split; [apply list_elem_of_here|done].
Qed.

Lemma for_each_app {A} (l1 l2 : list A) (f : A -> M unit) s :
  for_each (l1 ++ l2) f s = (for_each l1 f ;; for_each l2 f) s.
Proof.
  revert s. induction l1 as [|a l1 IH]; intros s; cbn [app for_each].
  - reflexivity.
  - unfold bind. destruct (f a s) as [[[]|e] s1]; [|done].
    rewrite IH. reflexivity.
Qed.

Lemma for_each_cache_other kwargs l name :
  name ∉ l ->
  forall s x s',
    _params_cache s !! name = None ->
    for_each l (fun n => get_params E cfg [n] kwargs ;; ret tt) s = (x, s') ->
    _params_cache s' !! name = None.
Proof.
  induction l as [|a l IH]; intros Hn s x s' Hc; cbn [for_each].
  - by intros [= _ <-].
  - apply not_elem_of_cons in Hn as [Hne Hn].
    unfold bind at 1. unfold bind at 1.
    destruct (get_params E cfg [a] kwargs s) as [[r|e] s1] eqn:Hg.
    + unfold ret at 1. apply IH; [done|].
      eapply get_params_cache_other; [|exact Hc|exact Hg].
      intros H%list_elem_of_singleton. congruence.
    + intros [= _ <-]. eapply get_params_cache_other; [|exact Hc|exact Hg].
      intros H%list_elem_of_singleton. congruence.
Qed.

(** C9, as the code has it.  Parameters are validated and materialised one
    by one in declaration order.  When a required parameter has no value
    and the parameters declared before it resolve, the pre-resolution pass
    raises the validation error that names it in the state those
    resolutions left, files written included.  When no parameter of type
    [file] is declared before it, the pass raises the validation error of
    a parameter declared up to that one, the tree and the trace being as
    they were; and when the scratch directory can be made, the run raises
    that error and all it did to the file system was to make and to
    remove the scratch directory. *)
Theorem validation_failure_writes_nothing pre name pc post kwargs s :
  params = pre ++ (name, Some pc) :: post ->
  name ∉ map fst pre ->
  py_truthy (pc_required pc) = true ->
  kwargs_get kwargs name = VNone ->
  kwargs !! "self" = None ->
  _params_cache s !! name = None ->
  (forall s1,
     for_each (map fst pre)
       (fun n => get_params E cfg [n] kwargs ;; ret tt) s = (Ok tt, s1) ->
     preprocess_params E cfg kwargs s
     = (Raise (ValueError ("Missing required param: " +:+ name)), s1))
  /\ ((forall n pc', n ∈ map fst pre -> params_get params n = Some pc' ->
                     py_eq (pc_type pc') (VStr "file") = false) ->
      (exists q s',
         preprocess_params E cfg kwargs s
         = (Raise (ValueError ("Missing required param: " +:+ q)), s')
         /\ q ∈ map fst pre ++ [name] /\ fs s' = fs s /\ trace s' = trace s)
      /\ (forall jp t1,
            job_path_of E cfg (Some (next_job_id E s)) = Ok jp ->
            makedirs (fs s) (proc_cwd s) jp = Some t1 ->
            exists q s',
              run E cfg kwargs s
              = (Raise (ValueError ("Missing required param: " +:+ q)), s')
              /\ q ∈ map fst pre ++ [name]
              /\ trace s' = trace s ++ [EvMakedirs jp; EvRmtree jp])).
Proof.
  intros Hsplit Hn Hreq Hv Hself Hc.
  assert (Hpc : params_get params name = Some pc).
  { rewrite Hsplit. by apply params_get_app. }
  assert (Heq : forall s0,
    preprocess_params E cfg kwargs s0
    = for_each (map fst pre ++ name :: map fst post)
        (fun n => get_params E cfg [n] kwargs ;; ret tt) s0).
  { intros s0. unfold preprocess_params. unfold bind at 1.
    rewrite bind_kwargs_ok by (repeat constructor; done).
    rewrite Hparams, Hsplit, map_app. reflexivity. }
  split.
  - intros s1 Hpre. rewrite Heq, for_each_app. unfold bind at 1. rewrite Hpre.
    cbn [for_each]. unfold bind at 1. unfold bind at 1.
    rewrite (get_params_one E cfg params Hparams _ _ _ _ Hpc Hself).
    + cbv zeta. by rewrite Hreq, Hv.
    + eapply for_each_cache_other; eauto.
  - intros Hnf.
    assert (Hpre : forall s0, _params_cache s0 !! name = None ->
      exists q s',
        preprocess_params E cfg kwargs s0
        = (Raise (ValueError ("Missing required param: " +:+ q)), s')
        /\ q ∈ map fst pre ++ [name] /\ fs s' = fs s0 /\ trace s' = trace s0
        /\ job_id s' = job_id s0).
    { intros s0 Hc0. rewrite Heq.
      eapply for_each_fails_without_writing; eauto. }
    split.
    + destruct (Hpre s Hc) as (q & s' & ? & ? & ? & ? & _). eauto 10.
    + intros jp t1 Hjp Hmk.
      destruct (Hpre (set_fs t1 (add_event (EvMakedirs jp) (entered E s))))
        as (q & s2 & Hp & Hq & Hfs & Htr & Hj); [done|].
      exists q. eexists. split.
      * eapply run_body_raises_eq; eauto. unfold run_body. unfold bind at 1.
        by rewrite Hp.
      * split; [done|]. cbn. rewrite Htr. cbn. by rewrite <- app_assoc.
Qed.
End EagerValidation.

(** ** The executor *)

Section Executor.
Context (E : Env) (cfg : cmd_config).

(** C7, as the code has it.  Whatever the exit code of the process, zero
    or not: when what it wrote to stderr is valid UTF-8 the executor
    returns the two captured streams and adds to the trace, after the
    process start, exactly one log record, holding the job identifier, the
    return code, the elapsed time and the decoded stderr; when it is not
    valid UTF-8, decoding raises and no record is written. *)
Theorem executor_logs_once cmd s jp t out err rc :
  job_path_of E cfg (job_id s) = Ok jp ->
  shell E cmd jp (proc_cwd s) (fs s) = Exited t out err rc ->
  (utf8_valid err = true ->
   exists s',
     execute_spawn E cfg cmd s = (Ok (out, err), s')
     /\ fs s' = t
     /\ trace s'
        = trace s
          ++ [EvSpawn cmd jp;
              EvLog (LogExec (job_id s) rc
                       (clock E (S (ticks s)) - clock E (ticks s)) err)
                (clock E (S (S (ticks s))))])
  /\ (utf8_valid err = false ->
      exists s',
        execute_spawn E cfg cmd s = (Raise UnicodeDecodeError, s')
        /\ trace s' = trace s ++ [EvSpawn cmd jp]).
Proof.
  intros Hjp Hsh.
  split; intros Hv; eexists;
    unfold execute_spawn, get_job_path, now, json_log_info, now, decode,
      decode_utf8, bind, gets, lift, modify, ret, raise, id;
    rewrite Hjp; cbn [tick fs proc_cwd]; rewrite Hsh, Hv; cbn.
  - split; [reflexivity|]. split; [reflexivity|].
    cbn [trace add_event tick set_fs]. by rewrite <- app_assoc.
  - split; reflexivity.
Qed.
End Executor.

(** ** Template substitution *)

Section TemplateFacts.
Context (mapping : gmap string value).

Lemma span_id_app a b :
  all_id_chars a = true -> ends_identifier b = true ->
  span_id (a +:+ b) = (a, b).
Proof.
  intros Ha Hb. induction a as [|x a IH]; str_norm.
  - destruct b as [|c b]; [done|]. cbn [span_id ends_identifier] in *.
    apply negb_true_iff in Hb. by rewrite Hb.
  - cbn [all_id_chars] in Ha. apply andb_true_iff in Ha as [Hx Ha].
    cbn [span_id]. rewrite Hx, (IH Ha). done.
Qed.

Lemma scan_skip a b : scan (String.length a) (a +:+ b) = scan 0 b.
Proof. induction a as [|x a IH]; str_norm; [done|]. exact IH. Qed.

Lemma match_at_text c r : Ascii.eqb c "$"%char = false -> match_at (String c r) = None.
Proof. intros H. unfold match_at. by rewrite H. Qed.

(** Text without a dollar sign is copied. *)
Lemma sub_loop_text pre x :
  str_mem "$"%char pre = false ->
  sub_loop mapping (scan 0 (pre +:+ x))
  = match sub_loop mapping (scan 0 x) with
    | Ok out => Ok (pre +:+ out)
    | Raise e => Raise e
    end.
Proof.
  intros H. induction pre as [|c pre IH]; str_norm.
  - by destruct (sub_loop _ _).
  - cbn [str_mem] in H. apply orb_false_iff in H as [Hc Hp].
    cbn [scan]. rewrite (match_at_text _ _ Hc). cbn [sub_loop].
    rewrite (IH Hp). by destruct (sub_loop _ (scan 0 x)).
Qed.

Lemma span_id_start c r :
  is_id_start c = true ->
  (span_id (String c r)).1 = String c (span_id r).1
  /\ (span_id (String c r)).2 = (span_id r).2.
Proof.
  intros H. cbn [span_id]. unfold is_id_char. rewrite H. cbn [orb].
  by destruct (span_id r).
Qed.

Lemma convert_named id :
  id <> "" ->
  exists r, convert mapping (MatchObj ("$" +:+ id) None (Some id) None None) = Ok r.
Proof.
  intros H. unfold convert. cbn [mo_named mo_braced opt_or mo_group].
  destruct (String.eqb_spec id ""); [done|]. destruct (mapping !! id); by eexists.
Qed.

Lemma convert_braced id :
  id <> "" ->
  exists r,
    convert mapping (MatchObj ("${" +:+ id +:+ "}") None None (Some id) None)
    = Ok r.
Proof.
  intros H. unfold convert. cbn [mo_named mo_braced opt_or mo_group].
  destruct (mapping !! id); by eexists.
Qed.

Lemma convert_match_at s mo :
  match_at s = Some mo -> exists r, convert mapping mo = Ok r.
Proof.
  unfold match_at. destruct s as [|d r]; [done|].
  destruct (Ascii.eqb d "$"%char); [|done].
  destruct r as [|c r']. { intros [= <-]. by eexists. }
  destruct (Ascii.eqb c "$"%char). { intros [= <-]. by eexists. }
  destruct (is_id_start c) eqn:Hc.
  { intros [= <-]. apply convert_named.
    change ((span_id (String c r')).1 <> "").
    destruct (span_id_start c r' Hc) as [-> _]. done. }
  destruct (_ && _) eqn:Hb; [|intros [= <-]; by eexists].
  intros [= <-]. apply convert_braced.
  destruct r' as [|c' r'']; [by rewrite andb_false_r in Hb|].
  apply andb_true_iff in Hb as [_ Hc'].
  change ((span_id (String c' r'')).1 <> "").
  destruct (span_id_start c' r'' Hc') as [-> _]. done.
Qed.

Lemma sub_loop_total skip s : exists out, sub_loop mapping (scan skip s) = Ok out.
Proof.
  revert skip. induction s as [|c r IH]; intros skip; cbn [scan].
  - by eexists.
  - destruct skip; [|apply IH].
    destruct (match_at (String c r)) as [mo|] eqn:Hm.
    + cbn [sub_loop]. destruct (convert_match_at _ _ Hm) as [x ->].
      destruct (IH (String.length (mo_group mo) - 1)%nat) as [out ->]. by eexists.
    + cbn [sub_loop]. destruct (IH 0%nat) as [out ->]. by eexists.
Qed.

Lemma scan_match c r mo :
  match_at (String c r) = Some mo ->
  scan 0 (String c r) = inr mo :: scan (String.length (mo_group mo) - 1) r.
Proof. intros H. cbn [scan]. by rewrite H. Qed.

Lemma is_identifier_inv name :
  is_identifier name = true ->
  exists c r, name = String c r /\ is_id_start c = true
              /\ all_id_chars name = true /\ Ascii.eqb c "$"%char = false.
Proof.
  destruct name as [|c r]; [done|]. cbn. intros H.
  apply andb_true_iff in H as [Hc Hr]. exists c, r.
  split; [done|]. split; [done|]. split.
  - unfold is_id_char. by rewrite Hc, Hr.
  - destruct (Ascii.eqb_spec c "$"%char) as [->|]; done.
Qed.

Lemma sub_loop_named name post :
  is_identifier name = true -> ends_identifier post = true ->
  sub_loop mapping (scan 0 ("$" +:+ name +:+ post))
  = match sub_loop mapping (scan 0 post) with
    | Ok out =>
        Ok (match mapping !! name with
            | Some v => py_str v
            | None => "$" +:+ name
            end +:+ out)
    | Raise e => Raise e
    end.
Proof.
  intros Hn Hp. destruct (is_identifier_inv _ Hn) as (c & r & Hname & Hc & Hall & Hd).
  assert (Hm : match_at ("$" +:+ name +:+ post)
               = Some (MatchObj ("$" +:+ name) None (Some name) None None)).
  { pose proof (span_id_app name post Hall Hp) as Hs. subst name.
    revert Hs. str_norm. intros Hs. unfold match_at. rewrite Hs, Hd, Hc. done. }
  revert Hm. str_norm. intros Hm.
  rewrite (scan_match _ _ _ Hm). cbn [mo_group sub_loop].
  replace (String.length (String "$" name) - 1)%nat with (String.length name)
    by (cbn [String.length]; lia).
  rewrite scan_skip. unfold convert. cbn [mo_named mo_braced opt_or mo_group].
  rewrite Hname. cbn [String.eqb]. rewrite <- Hname.
  destruct (mapping !! name); by destruct (sub_loop _ _).
Qed.

Lemma sub_loop_braced name post :
  is_identifier name = true ->
  sub_loop mapping (scan 0 ("${" +:+ name +:+ "}" +:+ post))
  = match sub_loop mapping (scan 0 post) with
    | Ok out =>
        Ok (match mapping !! name with
            | Some v => py_str v
            | None => "${" +:+ name +:+ "}"
            end +:+ out)
    | Raise e => Raise e
    end.
Proof.
  intros Hn. destruct (is_identifier_inv _ Hn) as (c & r & Hname & Hc & Hall & Hd).
  assert (Hm : match_at ("${" +:+ name +:+ "}" +:+ post)
               = Some (MatchObj ("${" +:+ name +:+ "}") None None (Some name) None)).
  { pose proof (span_id_app name (String "}" post) Hall eq_refl) as Hs.
    subst name. revert Hs. str_norm. intros Hs. unfold match_at.
    rewrite Hs. cbn [fst snd starts_with]. rewrite Hc. done. }
  revert Hm. str_norm. intros Hm.
  rewrite (scan_match _ _ _ Hm). cbn [mo_group sub_loop].
  replace (String.length (String "$" (String "{" (name +:+ "}"))) - 1)%nat
    with (String.length (String "{" (name +:+ "}"))) by (cbn [String.length]; lia).
  replace (String "{" (name +:+ String "}" post))
    with ((String "{" (name +:+ "}")) +:+ post).
  2:{ str_norm. by rewrite append_assoc. }
  rewrite scan_skip. unfold convert. cbn [mo_named mo_braced opt_or mo_group].
  rewrite Hname. cbn [String.eqb]. rewrite <- Hname.
  destruct (mapping !! name); by destruct (sub_loop _ _).
Qed.

Lemma safe_substitute_first_placeholder template pre name post :
  str_mem "$"%char pre = false ->
  is_identifier name = true ->
  (template = pre +:+ "$" +:+ name +:+ post /\ ends_identifier post = true
   \/ template = pre +:+ "${" +:+ name +:+ "}" +:+ post) ->
  exists out,
    safe_substitute post mapping = Ok out
    /\ (forall v, mapping !! name = Some v ->
          safe_substitute template mapping = Ok (pre +:+ py_str v +:+ out))
    /\ (mapping !! name = None ->
        exists written,
          template = pre +:+ written +:+ post
          /\ safe_substitute template mapping = Ok (pre +:+ written +:+ out)).
Proof.
  unfold safe_substitute. intros Hpre Hn Hshape.
  destruct (sub_loop_total 0 post) as [out Hout]. exists out. split; [done|].
  destruct Hshape as [[-> Hp]| ->]; rewrite (sub_loop_text _ _ Hpre).
  - rewrite (sub_loop_named _ _ Hn Hp), Hout. split.
    + intros v ->. done.
    + intros ->. exists ("$" +:+ name). by rewrite !append_assoc.
  - rewrite (sub_loop_braced _ _ Hn), Hout. split.
    + intros v ->. done.
    + intros ->. exists ("${" +:+ name +:+ "}"). by rewrite !append_assoc.
Qed.
End TemplateFacts.

Lemma match_at_some_group s mo : match_at s = Some mo -> some_group mo.
Proof.
  unfold match_at, some_group. destruct s as [|d r]; [done|].
  destruct (Ascii.eqb d "$"%char); [|done].
  destruct r as [|c r']. { intros [= <-]. cbn. eauto. }
  destruct (Ascii.eqb c "$"%char). { intros [= <-]. cbn. eauto. }
  destruct (is_id_start c) eqn:Hc.
  { intros [= <-]. left. cbn [mo_named mo_braced].
    change (is_Some (opt_or (Some (span_id (String c r')).1) None)).
    destruct (span_id_start c r' Hc) as [-> _]. cbn. eauto. }
  destruct (_ && _) eqn:Hb; [|intros [= <-]; cbn; eauto].
  intros [= <-]. left. cbn [mo_named mo_braced opt_or]. eauto.
Qed.

Lemma finditer_some_group s : Forall some_group (finditer s).
Proof.
  unfold finditer. generalize 0%nat as skip.
  induction s as [|c r IH]; intros skip; cbn [scan]; [constructor|].
  destruct skip; [|apply IH].
  destruct (match_at (String c r)) as [mo|] eqn:Hm; cbn [omap list_omap].
  - constructor; [by eapply match_at_some_group|apply IH].
  - apply IH.
Qed.

Lemma get_identifiers_total template :
  exists ids, get_identifiers template = Ok ids.
Proof.
  unfold get_identifiers. generalize (@nil string) as ids.
  induction (finditer_some_group template) as [|mo mos Hmo _ IH]; intros ids.
  - by eexists.
  - cbn [get_identifiers_loop].
    destruct (opt_or (mo_named mo) (mo_braced mo)) as [named|] eqn:Ho.
    + destruct (bool_decide _); apply IH.
    + destruct Hmo as [[? H]|[[x Hx]|[x Hx]]].
      * rewrite Ho in H. done.
      * rewrite Hx. apply IH.
      * rewrite Hx. destruct (mo_invalid mo); apply IH.
Qed.

(** ** Substitution as rendering *)

Lemma span_id_chars s : all_id_chars (span_id s).1 = true.
Proof.
  induction s as [|c r IH]; [done|]. cbn [span_id].
  destruct (is_id_char c) eqn:Hc; [|done].
  destruct (span_id r) as [a b]. cbn in *. by rewrite Hc, IH.
Qed.

Lemma span_id_identifier c r :
  is_id_start c = true -> is_identifier (span_id (String c r)).1 = true.
Proof.
  intros Hc. destruct (span_id_start c r Hc) as [-> _]. cbn.
  by rewrite Hc, span_id_chars.
Qed.

Lemma span_id_split s : s = (span_id s).1 +:+ (span_id s).2.
Proof.
  induction s as [|c r IH]; [done|]. cbn [span_id].
  destruct (is_id_char c); [|done]. destruct (span_id r) as [a b].
  cbn in *. str_norm. by rewrite <- IH.
Qed.

Lemma span_id_rest s : ends_identifier (span_id s).2 = true.
Proof.
  induction s as [|c r IH]; [done|]. cbn [span_id].
  destruct (is_id_char c) eqn:Hc.
  - by destruct (span_id r) as [a b].
  - cbn. by rewrite Hc.
Qed.

Lemma length_append (a b : string) :
  String.length (a +:+ b) = (String.length a + String.length b)%nat.
Proof. induction a as [|c a IH]; str_norm; cbn; [done|]. by rewrite IH. Qed.

Lemma starts_with_inv c s :
  starts_with c s = true -> exists r, s = String c r.
Proof.
  destruct s as [|a r]; [done|]. cbn. intros ->%Ascii.eqb_eq. eauto.
Qed.

Lemma is_identifier_start name post :
  is_identifier name = true ->
  exists c r, name +:+ post = String c r /\ is_id_start c = true.
Proof.
  destruct name as [|c r]; [done|]. cbn. intros [Hc _]%andb_true_iff.
  exists c, (r +:+ post). by str_norm.
Qed.

Section Rendering.
Context (mapping : gmap string value).

Lemma match_at_stray t :
  stray t -> match_at ("$" +:+ t) = Some mo_is_invalid.
Proof.
  intros (Hesc & Hname & Hbrace). str_norm. unfold match_at. cbn [Ascii.eqb Bool.eqb].
  destruct t as [|c r]; [done|].
  destruct (Ascii.eqb_spec c "$"%char) as [->|_].
  { by destruct (Hesc r). }
  destruct (is_id_start c) eqn:Hc.
  { destruct (Hname (String c "") r); [by cbn; rewrite Hc|by str_norm]. }
  destruct (Ascii.eqb_spec c "{"%char) as [->|_]; [|done]. cbn [andb].
  destruct (starts_with "}"%char (span_id r).2) eqn:Hs; [|done]. cbn [andb].
  destruct r as [|c' r']; [done|]. destruct (is_id_start c') eqn:Hc'; [|done].
  exfalso. apply starts_with_inv in Hs as [post Hpost].
  apply (Hbrace (span_id (String c' r')).1 post).
  - by apply span_id_identifier.
  - str_norm. f_equal. rewrite (span_id_split (String c' r')) at 1.
    by rewrite Hpost.
Qed.

Lemma sub_loop_stray t :
  stray t ->
  sub_loop mapping (scan 0 ("$" +:+ t))
  = match sub_loop mapping (scan 0 t) with
    | Ok out => Ok ("$" +:+ out)
    | Raise e => Raise e
    end.
Proof.
  intros H%match_at_stray. revert H. str_norm. intros H.
  rewrite (scan_match _ _ _ H). reflexivity.
Qed.

Lemma renders_sound template out :
  renders mapping template out -> safe_substitute template mapping = Ok out.
Proof.
  unfold safe_substitute.
  induction 1 as [|c t out Hc _ IH|t out _ IH|name post out Hn Hp _ IH
                   |name post out Hn _ IH|t out Hs _ IH].
  - reflexivity.
  - cbn [scan]. rewrite match_at_text.
    + cbn [sub_loop]. by rewrite IH.
    + by destruct (Ascii.eqb_spec c "$"%char).
  - change (scan 0 ("$$" +:+ t))
      with (inr (MatchObj "$$" (Some "$") None None None) :: scan 0 t).
    cbn [sub_loop convert mo_named mo_braced mo_escaped opt_or]. by rewrite IH.
  - rewrite (sub_loop_named _ _ _ Hn Hp), IH. reflexivity.
  - rewrite (sub_loop_braced _ _ _ Hn), IH. reflexivity.
  - rewrite (sub_loop_stray _ Hs), IH. reflexivity.
Qed.

Lemma stray_empty : stray "".
Proof.
  split; [|split].
  - intros r. by str_norm.
  - intros name post Hn. by destruct (is_identifier_start name post Hn) as (c & r & -> & _).
  - intros name post _. by str_norm.
Qed.

Lemma renders_total_aux n : forall template,
  (String.length template <= n)%nat -> exists out, renders mapping template out.
Proof.
  induction n as [|n IH]; intros template Hlen.
  { destruct template; [|cbn in Hlen; lia]. exists "". constructor. }
  destruct template as [|c r]; [exists ""; constructor|].
  cbn [String.length] in Hlen.
  destruct (Ascii.eqb_spec c "$"%char) as [->|Hc].
  2:{ destruct (IH r) as [out Hout]; [lia|]. exists (String c out).
      by constructor. }
  destruct r as [|c2 r2].
  { exists ("$" +:+ ""). apply (renders_stray _ "" ""); [apply stray_empty|constructor]. }
  cbn [String.length] in Hlen.
  destruct (Ascii.eqb_spec c2 "$"%char) as [->|Hc2].
  { destruct (IH r2) as [out Hout]; [lia|]. exists ("$" +:+ out).
    by apply (renders_escape _ r2 out). }
  destruct (is_id_start c2) eqn:Hid.
  { pose proof (span_id_split (String c2 r2)) as Hsplit.
    pose proof (span_id_identifier c2 r2 Hid) as Hn.
    pose proof (span_id_rest (String c2 r2)) as Hp.
    destruct (IH (span_id (String c2 r2)).2) as [out Hout].
    { apply (f_equal String.length) in Hsplit. rewrite length_append in Hsplit.
      cbn [String.length] in Hsplit. lia. }
    eexists. rewrite Hsplit.
    apply (renders_named _ _ _ _ Hn Hp Hout). }
  destruct (Ascii.eqb c2 "{"%char
            && starts_with "}"%char (span_id r2).2
            && match r2 with
               | String c' _ => is_id_start c'
               | EmptyString => false
               end) eqn:Hb.
  { apply andb_true_iff in Hb as [[Hc2'%Ascii.eqb_eq Hs]%andb_true_iff Hid'].
    subst c2. destruct r2 as [|c3 r3]; [done|].
    apply starts_with_inv in Hs as [post Hpost].
    pose proof (span_id_split (String c3 r3)) as Hsplit. rewrite Hpost in Hsplit.
    pose proof (span_id_identifier c3 r3 Hid') as Hn.
    destruct (IH post) as [out Hout].
    { apply (f_equal String.length) in Hsplit. rewrite length_append in Hsplit.
      cbn [String.length] in Hsplit, Hlen. lia. }
    eexists. rewrite Hsplit.
    apply (renders_braced _ _ _ _ Hn Hout). }
  destruct (IH (String c2 r2)) as [out Hout]; [cbn; lia|].
  exists ("$" +:+ out). apply (renders_stray _ (String c2 r2) out); [|done].
  split; [|split].
  - intros r. str_norm. by intros [= -> _].
  - intros name post Hn H.
    destruct (is_identifier_start name post Hn) as (c' & r' & Heq & Hc').
    rewrite Heq in H. injection H as -> _. congruence.
  - intros name post Hn. str_norm. intros [= -> Hr2].
    destruct (is_identifier_inv _ Hn) as (c' & r' & Hname & Hc' & Hall & _).
    pose proof (span_id_app name (String "}" post) Hall eq_refl) as Hs.
    rewrite <- Hr2 in Hs. rewrite Hs in Hb. cbn [fst snd starts_with] in Hb.
    rewrite Hr2, Hname in Hb. revert Hb. str_norm. rewrite Hc'. done.
Qed.

Lemma renders_complete template out :
  safe_substitute template mapping = Ok out -> renders mapping template out.
Proof.
  intros H. destruct (renders_total_aux _ template (le_n _)) as [out' Hout'].
  pose proof (renders_sound _ _ Hout') as H'. congruence.
Qed.
End Rendering.

(** C5.  Substitution never fails, whatever the template and the mapping,
    and its result is the rendering of the template: from left to right,
    every placeholder [$name] or [${name}] whose name the mapping has is
    replaced by [str] of the value, every placeholder whose name the
    mapping lacks is left as it is written, [$$] gives [$], any other
    dollar sign and all other text are copied.  Rendering a command item
    that declares no identifier returns the item as it is; otherwise the
    identifiers are resolved with [get_params], whose failure is the only
    failure, and the item is substituted in the resolved values laid over
    the environment. *)
Theorem safe_substitute_replaces_known_keeps_unknown
    (mapping : gmap string value) (template : string) :
  (exists out, safe_substitute template mapping = Ok out)
  /\ (forall out,
        safe_substitute template mapping = Ok out
        <-> renders mapping template out)
  /\ (forall E cfg kwargs s,
        Forall (fun p => kwargs !! p = None) ["self"; "item"; "cmd_env"] ->
        exists ids,
          get_identifiers template = Ok ids
          /\ process_input_item E cfg (VStr template) mapping kwargs s
             = match ids with
               | [] => (Ok template, s)
               | _ :: _ =>
                   match get_params E cfg ids kwargs s with
                   | (Ok pv, s') =>
                       (safe_substitute template (pv ∪ mapping), s')
                   | (Raise e, s') => (Raise e, s')
                   end
               end).
Proof.
  split; [apply sub_loop_total|]. split.
  - intros out. split; [apply renders_complete|apply renders_sound].
  - intros E cfg kwargs s Hkw.
    destruct (get_identifiers_total template) as [ids Hids].
    exists ids. split; [done|].
    unfold process_input_item. unfold bind at 1.
    rewrite (bind_kwargs_ok _ _ _ Hkw). cbn [py_str].
    unfold bind at 1. rewrite Hids. unfold lift at 1.
    destruct ids as [|i ids]; [reflexivity|].
    unfold bind at 1.
    by destruct (get_params E cfg (i :: ids) kwargs s) as [[pv|e] s'].
Qed.

(** ** Paths without [..] *)

Section PathFacts.

Abbreviation comps := (split_on "/"%char).

Lemma comps_head s : exists h t, comps s = h :: t.
Proof. pose proof (split_on_nonempty "/"%char s). destruct (comps s); [done|eauto]. Qed.

Lemma comps_cons c r :
  comps (String c r)
  = if Ascii.eqb c "/"%char then "" :: comps r
    else match comps r with
         | h :: t => String c h :: t
         | [] => [String c ""]
         end.
Proof. reflexivity. Qed.

(** Stripping trailing slashes only drops trailing empty components. *)
Lemma comps_rstrip s : comps (rstrip_slash s) `prefix_of` comps s.
Proof.
  induction s as [|c r IH]; [done|].
  cbn [rstrip_slash]. rewrite (comps_cons c r).
  destruct (rstrip_slash r) as [|c' r'] eqn:Hr.
  - destruct (Ascii.eqb c "/"%char) eqn:Hc.
    + apply prefix_cons, prefix_nil.
    + rewrite comps_cons, Hc. cbn [split_on].
      destruct (comps r) as [|h t]; [done|].
      apply prefix_cons_inv_1 in IH as <-. apply prefix_cons, prefix_nil.
  - rewrite (comps_cons c (String c' r')).
    destruct (Ascii.eqb c "/"%char); [by apply prefix_cons|].
    destruct (comps_head (String c' r')) as (h' & t' & Hh'). rewrite Hh' in IH |- *.
    destruct (comps r) as [|h t]; [by apply prefix_nil_inv in IH|].
    pose proof (prefix_cons_inv_1 _ _ _ _ IH) as ->.
    apply prefix_cons. by apply prefix_cons_inv_2 in IH.
Qed.

Lemma head_tail_spec p h t :
  head_tail p = (h, t) ->
  str_mem "/"%char t = false
  /\ (h = "" /\ p = t \/ exists h', h = h' +:+ "/" /\ p = h' +:+ "/" +:+ t).
Proof.
  revert h t. induction p as [|c r IH]; intros h t.
  - cbn. intros [= <- <-]. auto.
  - cbn [head_tail]. destruct (head_tail r) as [h0 t0].
    destruct (IH _ _ eq_refl) as [Ht0 Hshape].
    destruct (Ascii.eqb_spec c "/"%char) as [->|Hc].
    + intros [= <- <-]. split; [done|]. right.
      destruct Hshape as [[-> ->]|(h' & -> & ->)].
      * exists "". done.
      * exists (String "/" h'). done.
    + destruct (String.eqb_spec h0 "") as [->|Hne].
      * intros [= <- <-]. destruct Hshape as [[_ ->]|(h' & Hh & _)].
        -- split; [|by left]. cbn. rewrite Ht0.
           by destruct (Ascii.eqb_spec c "/"%char).
        -- by destruct h'.
      * intros [= <- <-]. split; [done|]. right.
        destruct Hshape as [[-> _]|(h' & -> & ->)]; [done|].
        exists (String c h'). done.
Qed.

Lemma dotdot_free_app a b :
  dotdot_free (a +:+ String "/"%char b) <-> dotdot_free a /\ dotdot_free b.
Proof.
  unfold dotdot_free. rewrite split_on_app, elem_of_app. tauto.
Qed.

Lemma dotdot_free_atom n :
  str_mem "/"%char n = false -> n <> ".." -> dotdot_free n.
Proof.
  intros Hs Hn. unfold dotdot_free. rewrite (split_on_no_sep _ _ Hs).
  intros H%list_elem_of_singleton. congruence.
Qed.

Lemma dotdot_free_atom_inv n :
  str_mem "/"%char n = false -> dotdot_free n -> n <> "..".
Proof.
  intros Hs. unfold dotdot_free. rewrite (split_on_no_sep _ _ Hs).
  intros H ->. apply H. by apply list_elem_of_singleton.
Qed.

Lemma dotdot_free_rstrip s : dotdot_free s -> dotdot_free (rstrip_slash s).
Proof.
  unfold dotdot_free. intros H Hin. apply H.
  destruct (comps_rstrip s) as [k ->]. apply elem_of_app. auto.
Qed.

Lemma os_path_split_dotdot p d b :
  os_path_split p = (d, b) ->
  dotdot_free p ->
  dotdot_free d /\ str_mem "/"%char b = false /\ b <> "..".
Proof.
  unfold os_path_split. destruct (head_tail p) as [h t] eqn:Hht.
  destruct (head_tail_spec _ _ _ Hht) as [Ht Hshape].
  intros [= <- <-] Hp.
  destruct Hshape as [[-> ->]|(h' & -> & ->)].
  - cbn. split; [|split; [done|]].
    + unfold dotdot_free. cbn. by intros ?%list_elem_of_singleton.
    + by apply dotdot_free_atom_inv.
  - apply dotdot_free_app in Hp as [Hh' Ht'].
    assert (Hh : dotdot_free (h' +:+ "/")).
    { apply dotdot_free_app. split; [done|]. unfold dotdot_free. cbn.
      by intros ?%list_elem_of_singleton. }
    split; [|split; [done|by apply dotdot_free_atom_inv]].
    destruct (_ && _); [by apply dotdot_free_rstrip|done].
Qed.

Lemma ends_with_slash_inv d :
  ends_with_slash d = true -> exists d', d = d' +:+ "/".
Proof.
  induction d as [|c r IH]; [done|]. cbn [ends_with_slash].
  destruct r as [|c' r'].
  - intros ->%Ascii.eqb_eq. by exists "".
  - intros H. destruct (IH H) as [d' ->]. by exists (String c d').
Qed.

Lemma starts_with_no_slash n :
  str_mem "/"%char n = false -> starts_with "/"%char n = false.
Proof. destruct n as [|c r]; [done|]. cbn. by intros [? ?]%orb_false_iff. Qed.

Lemma os_path_join_dotdot d n :
  dotdot_free d -> str_mem "/"%char n = false -> n <> ".." ->
  dotdot_free (os_path_join d n).
Proof.
  intros Hd Hs Hn. unfold os_path_join. rewrite (starts_with_no_slash _ Hs).
  destruct (String.eqb_spec d "") as [->|Hne]; cbn [orb].
  - by apply dotdot_free_atom.
  - destruct (ends_with_slash d) eqn:He.
    + destruct (ends_with_slash_inv _ He) as [d' ->].
      rewrite append_assoc. apply dotdot_free_app. split; [|by apply dotdot_free_atom].
      by apply dotdot_free_app in Hd as [? _].
    + apply dotdot_free_app. split; [done|by apply dotdot_free_atom].
Qed.

(** Without [..] a walk only goes down. *)
Lemma walk_descends t cur l k :
  ".." ∉ l -> walk t cur l = Some k -> cur `suffix_of` k.
Proof.
  revert cur. induction l as [|c l IH]; intros cur Hl; cbn [walk].
  - by intros [= <-].
  - apply not_elem_of_cons in Hl as [Hc Hl].
    destruct (is_dir_at t cur); [|done].
    destruct (_ || _); [by apply IH|].
    destruct (String.eqb_spec c ".."); [done|].
    intros H. apply IH in H; [|done]. by apply suffix_cons_l in H.
Qed.
End PathFacts.

(** ** What [glob] can match *)

Section GlobFacts.
Context (E : Env) (t : tree) (cwd : loc).
Hypothesis Hok : tree_ok t.

Lemma entries_names k b n : n ∈ entries t k b -> is_name n = true.
Proof.
  unfold entries. intros H. apply list_elem_of_omap in H as ([q nd] & Hin & Hf).
  apply elem_of_map_to_list in Hin. cbn in Hf.
  destruct q as [|n' k']; [done|].
  destruct (_ && _); [|done]. injection Hf as ->.
  pose proof (Hok _ _ Hin) as Hall. by apply Forall_cons_1 in Hall as [? _].
Qed.

Lemma is_name_atom n :
  is_name n = true -> str_mem "/"%char n = false /\ n <> "..".
Proof.
  unfold is_name. intros H. repeat (apply andb_true_iff in H as [H ?]).
  repeat match goal with H : negb _ = true |- _ => apply negb_true_iff in H end.
  split; [done|]. intros ->. done.
Qed.

Lemma _glob1_names dirname pattern dironly n :
  n ∈ _glob1 E t cwd dirname pattern dironly -> is_name n = true.
Proof.
  unfold _glob1, _listdir. intros H.
  apply list_elem_of_In, filter_In in H as [H _]. apply list_elem_of_In in H.
  assert (Hin : n ∈ match resolve t cwd (if String.eqb dirname "" then "." else dirname) with
                    | Some k => if is_dir_at t k then entries t k dironly else []
                    | None => []
                    end).
  { destruct (negb (_ishidden pattern)); [|done].
    apply list_elem_of_In, filter_In in H as [H _]. by apply list_elem_of_In. }
  destruct (resolve _ _ _); [|by apply elem_of_nil in Hin].
  destruct (is_dir_at _ _); [|by apply elem_of_nil in Hin].
  by apply entries_names in Hin.
Qed.

Lemma _glob0_names dirname basename dironly n :
  n ∈ _glob0 t cwd dirname basename dironly -> n = basename.
Proof.
  unfold _glob0. destruct (negb (String.eqb basename ""));
    [destruct (lexists _ _ _)|destruct (isdir _ _ _)];
    first [by intros ->%list_elem_of_singleton|by intros ?%elem_of_nil].
Qed.

(** Matches of a pattern without a [..] component have none either. *)
Lemma _iglob_in_dotdot fuel pathname root_dir dironly m :
  dotdot_free pathname ->
  m ∈ _iglob_in E t cwd fuel pathname root_dir dironly ->
  dotdot_free m.
Proof.
  revert pathname dironly m. induction fuel as [|fuel IH]; intros pathname dironly m Hp.
  - by intros ?%elem_of_nil.
  - cbn [_iglob_in]. destruct (os_path_split pathname) as [dirname basename] eqn:Hsplit.
    destruct (os_path_split_dotdot _ _ _ Hsplit Hp) as (Hd & Hb1 & Hb2).
    destruct (negb (has_magic pathname)).
    { destruct (negb (String.eqb basename ""));
        [destruct (lexists _ _ _)|destruct (isdir _ _ _)];
        first [by intros ->%list_elem_of_singleton|by intros ?%elem_of_nil]. }
    destruct (String.eqb dirname "").
    { intros H. apply _glob1_names in H. apply is_name_atom in H as [? ?].
      by apply dotdot_free_atom. }
    intros H. apply list_elem_of_In, in_flat_map in H as (d & Hdin & Hm).
    apply in_map_iff in Hm as (n & <- & Hn).
    apply list_elem_of_In in Hdin, Hn.
    apply os_path_join_dotdot.
    + destruct (_ && _).
      * by apply IH in Hdin.
      * by apply list_elem_of_singleton in Hdin as ->.
    + destruct (has_magic basename).
      * by apply _glob1_names, is_name_atom in Hn as [? ?].
      * by apply _glob0_names in Hn as ->.
    + destruct (has_magic basename).
      * by apply _glob1_names, is_name_atom in Hn as [? ?].
      * by apply _glob0_names in Hn as ->.
Qed.

Lemma glob_dotdot pathname root_dir m :
  dotdot_free pathname -> m ∈ glob E t cwd pathname root_dir -> dotdot_free m.
Proof.
  intros Hp. unfold glob, _iglob.
  set (it := _iglob_in _ _ _ _ _ _ _).
  assert (Hit : forall x, x ∈ it -> dotdot_free x).
  { intros x. by apply _iglob_in_dotdot. }
  destruct (String.eqb pathname ""); [|by apply Hit].
  destruct it as [|x rest]; [by apply Hit|].
  destruct (String.eqb x ""); [|by apply Hit].
  intros H. apply Hit. by apply list_elem_of_further.
Qed.

(** A file opened under [root] by a name without [..] lies inside it. *)
Lemma resolve_under root m k :
  root <> "" -> dotdot_free m ->
  resolve t cwd (root +:+ "/" +:+ m) = Some k -> inside t cwd root k.
Proof.
  intros Hroot Hm. unfold inside, resolve.
  destruct root as [|c r]; [done|].
  change (String c r +:+ "/" +:+ m) with (String c (r +:+ String "/"%char m)).
  cbn [String.eqb]. unfold start_of. cbn [starts_with].
  change (String c (r +:+ String "/"%char m)) with (String c r +:+ String "/"%char m).
  rewrite split_on_app, walk_app.
  destruct (walk t _ (split_on _ (String c r))) as [k0|]; [|done].
  cbn [mbind option_bind]. intros H. exists k0. split; [done|].
  eapply walk_descends; eauto.
Qed.
End GlobFacts.

Section GlobFuel.
Context (E : Env) (tr : tree) (cwd : loc).

Lemma rstrip_slash_length s :
  rstrip_slash s = s \/ (String.length (rstrip_slash s) < String.length s)%nat.
Proof.
  induction s as [|c r IH]; [by left|]. cbn [rstrip_slash].
  destruct (rstrip_slash r) as [|c' r'] eqn:Hr.
  - destruct (Ascii.eqb c "/"%char).
    + right. cbn. lia.
    + destruct IH as [<-|IH]; [by left|]. right. cbn in *. lia.
  - destruct IH as [<-|IH]; [by left|]. right. cbn in *. lia.
Qed.

Lemma head_tail_length p h t :
  head_tail p = (h, t) ->
  (String.length h + String.length t = String.length p)%nat.
Proof.
  revert h t. induction p as [|c r IH]; intros h t; cbn [head_tail].
  - by intros [= <- <-].
  - destruct (head_tail r) as [h0 t0]. specialize (IH _ _ eq_refl).
    destruct (Ascii.eqb c "/"%char); [intros [= <- <-]; cbn; lia|].
    destruct (String.eqb_spec h0 "") as [->|]; intros [= <- <-]; cbn in *; lia.
Qed.

Lemma os_path_split_shorter p d b :
  os_path_split p = (d, b) -> d = p \/ (String.length d < String.length p)%nat.
Proof.
  unfold os_path_split. destruct (head_tail p) as [h t] eqn:Hht.
  pose proof (head_tail_length _ _ _ Hht) as Hlen.
  assert (Hh : h = p \/ (String.length h < String.length p)%nat).
  { destruct t as [|c t'].
    - left. destruct (head_tail_spec _ _ _ Hht) as [_ [[-> ->]|(h' & -> & ->)]]; [done|].
      done.
    - right. cbn in Hlen. lia. }
  intros [= <- <-]. destruct (_ && _); [|done].
  destruct (rstrip_slash_length h) as [->|Hlt]; [done|].
  right. destruct Hh as [->|Hh]; lia.
Qed.

(** More fuel than the length of the pattern changes nothing: the model of
    [_iglob] never stops for lack of fuel. *)
Lemma _iglob_in_fuel n m pathname root_dir dironly :
  (String.length pathname < n)%nat -> (String.length pathname < m)%nat ->
  _iglob_in E tr cwd n pathname root_dir dironly
  = _iglob_in E tr cwd m pathname root_dir dironly.
Proof.
  revert m pathname dironly. induction n as [|n IH]; intros m pathname dironly Hn Hm; [lia|].
  destruct m as [|m]; [lia|]. cbn [_iglob_in].
  destruct (os_path_split pathname) as [dirname basename] eqn:Hsplit.
  destruct (negb (has_magic pathname)); [done|].
  destruct (String.eqb dirname ""); [done|].
  destruct (String.eqb_spec dirname pathname) as [Heq|Hne]; [done|].
  cbn [negb andb]. destruct (has_magic dirname); [|done].
  destruct (os_path_split_shorter _ _ _ Hsplit) as [?|Hlt]; [done|].
  rewrite (IH m) by lia. done.
Qed.
End GlobFuel.

(** ** Reading the matches *)

Section FileList.
Context (E : Env) (cfg : cmd_config).

Lemma read_one_eq d jp m s :
  job_path_of E cfg (job_id s) = Ok jp ->
  read_one E cfg d m s
  = (match open_rb (fs s) (proc_cwd s) (jp +:+ "/" +:+ m) with
     | Some content => Ok (m, mk_payload d content)
     | None => Raise (OSError (jp +:+ "/" +:+ m))
     end,
     add_event
       (EvOpen false (jp +:+ "/" +:+ m)
          (resolve (fs s) (proc_cwd s) (jp +:+ "/" +:+ m))) s).
Proof.
  intros Hjp.
  unfold read_one, get_job_file_path, get_job_path, read_file, bind, gets,
    lift, ret, modify, raise, id.
  rewrite Hjp. cbn [fs proc_cwd add_event]. by destruct (open_rb _ _ _).
Qed.

Lemma open_rb_inv t cwd p content :
  open_rb t cwd p = Some content ->
  exists k, resolve t cwd p = Some k /\ t !! k = Some (File content).
Proof.
  unfold open_rb. destruct (resolve t cwd p) as [k|]; [|done].
  destruct (fs_lookup t k) as [[|c]|] eqn:Hl; try done.
  intros [= <-]. exists k. split; [done|]. by destruct k.
Qed.

Lemma read_loop d jp l :
  forall s r s',
    job_path_of E cfg (job_id s) = Ok jp ->
    map_m (read_one E cfg d) l s = (r, s') ->
    fs s' = fs s /\ proc_cwd s' = proc_cwd s /\ job_id s' = job_id s
    /\ (exists evs,
          trace s' = trace s ++ evs
          /\ Forall (fun ev => exists m,
                       m ∈ l
                       /\ ev = EvOpen false (jp +:+ "/" +:+ m)
                                 (resolve (fs s) (proc_cwd s) (jp +:+ "/" +:+ m)))
               evs)
    /\ (forall out, r = Ok out ->
          Forall (fun e => e.1 ∈ l
                    /\ exists k content,
                         resolve (fs s) (proc_cwd s) (jp +:+ "/" +:+ e.1) = Some k
                         /\ fs s !! k = Some (File content)
                         /\ e.2 = mk_payload d content) out).
Proof.
  induction l as [|m l IH]; intros s r s' Hjp; cbn [map_m].
  - intros [= <- <-]. repeat split; try done.
    + exists []. by rewrite app_nil_r.
    + by intros out [= <-].
  - unfold bind at 1. rewrite (read_one_eq _ _ _ _ Hjp).
    set (path := jp +:+ "/" +:+ m).
    set (ev := EvOpen false path (resolve (fs s) (proc_cwd s) path)).
    assert (Hev0 : exists m0, m0 ∈ m :: l /\
      ev = EvOpen false (jp +:+ "/" +:+ m0)
             (resolve (fs s) (proc_cwd s) (jp +:+ "/" +:+ m0))).
    { exists m. split; [apply list_elem_of_here|done]. }
    destruct (open_rb (fs s) (proc_cwd s) path) as [content|] eqn:Hopen.
    2:{ intros [= <- <-]. repeat split; try done.
        exists [ev]. split; [done|]. by constructor. }
    apply open_rb_inv in Hopen as (k & Hres & Hk).
    unfold bind at 1.
    destruct (map_m (read_one E cfg d) l (add_event ev s)) as [[out|e] s2] eqn:Hrest;
      destruct (IH (add_event ev s) _ _ Hjp Hrest)
        as (Hfs & Hcwd & Hj & (evs & Htr & Hev) & Hout);
      intros [= <- <-]; (split; [done|]); (split; [done|]); (split; [done|]).
    + split.
      * exists (ev :: evs). split; [rewrite Htr; cbn; by rewrite <- app_assoc|].
        constructor; [done|].
        eapply Forall_impl; [exact Hev|]. cbn. intros ? (m' & ? & ?).
        exists m'. split; [by apply list_elem_of_further|done].
      * intros ? [= <-]. constructor.
        -- cbn. split; [apply list_elem_of_here|]. by exists k, content.
        -- eapply Forall_impl; [exact (Hout _ eq_refl)|]. cbn.
           intros e' [? ?]. split; [by apply list_elem_of_further|done].
    + split; [|by intros ? [= ]].
      exists (ev :: evs). split; [rewrite Htr; cbn; by rewrite <- app_assoc|].
      constructor; [done|].
      eapply Forall_impl; [exact Hev|]. cbn. intros ? (m' & ? & ?).
      exists m'. split; [by apply list_elem_of_further|done].
Qed.
End FileList.

Section FileListClaim.
Context (E : Env) (cfg : cmd_config).

Lemma job_path_of_nonempty j jp : job_path_of E cfg j = Ok jp -> jp <> "".
Proof.
  unfold job_path_of. destruct (py_or _ _); try discriminate.
  intros [= <-]. by destruct (rstrip_slash s).
Qed.

(** C6, as the code has it.  For a structured [file_list] entry the glob
    pattern is evaluated with the scratch directory as [root_dir] and every
    match is opened as [<scratch path>/<match>].  When no component of the
    pattern is [..], no component of a match is [..] either: the path that
    is opened goes down from the scratch directory by name and never up.
    In a tree of directories and regular files, which is what [tree] is,
    the location such a path names, and so every file whose content is
    returned, lies inside the scratch directory.  Symbolic links are not
    part of [tree]: where a link that the command left in its scratch
    directory leads is not covered by this statement. *)
Theorem file_list_stays_in_scratch d s r s' jp pattern :
  job_path_of E cfg (job_id s) = Ok jp ->
  rd_glob d = Some (VStr pattern) ->
  ".." ∉ split_on "/"%char pattern ->
  tree_ok (fs s) ->
  return_file_list E cfg d s = (r, s') ->
  (exists evs,
     trace s' = trace s ++ evs
     /\ Forall (fun ev => exists m,
                  m ∈ glob E (fs s) (proc_cwd s) pattern jp
                  /\ dotdot_free m
                  /\ ev = EvOpen false (jp +:+ "/" +:+ m)
                            (resolve (fs s) (proc_cwd s) (jp +:+ "/" +:+ m))
                  /\ forall k,
                       resolve (fs s) (proc_cwd s) (jp +:+ "/" +:+ m) = Some k ->
                       inside (fs s) (proc_cwd s) jp k)
          evs)
  /\ (forall out, r = Ok out ->
        Forall (fun e => e.1 ∈ glob E (fs s) (proc_cwd s) pattern jp
                  /\ dotdot_free e.1
                  /\ exists k content,
                       resolve (fs s) (proc_cwd s) (jp +:+ "/" +:+ e.1) = Some k
                       /\ inside (fs s) (proc_cwd s) jp k
                       /\ fs s !! k = Some (File content)
                       /\ e.2 = mk_payload d content) out).
Proof.
  intros Hjp Hglob Hdd Hok.
  assert (Hfree : forall m,
    m ∈ glob E (fs s) (proc_cwd s) pattern jp -> dotdot_free m).
  { intros m. by apply glob_dotdot. }
  assert (Hin : forall m k,
    m ∈ glob E (fs s) (proc_cwd s) pattern jp ->
    resolve (fs s) (proc_cwd s) (jp +:+ "/" +:+ m) = Some k ->
    inside (fs s) (proc_cwd s) jp k).
  { intros m k Hm. apply resolve_under.
    - by eapply job_path_of_nonempty.
    - by apply Hfree. }
  assert (Heq : return_file_list E cfg d s
    = map_m (read_one E cfg d)
        (if py_truthy (VStr pattern)
         then glob E (fs s) (proc_cwd s) pattern jp else []) s).
  { unfold return_file_list, get_job_path. unfold bind at 1. unfold bind at 1.
    unfold gets at 1. unfold lift at 1. rewrite Hjp, Hglob. cbn [default from_option id].
    destruct (py_truthy (VStr pattern)); reflexivity. }
  rewrite Heq. clear Heq. intros Hloop.
  apply (read_loop E cfg d jp) in Hloop as (_ & _ & _ & (evs & Htr & Hev) & Hout);
    [|done].
  assert (Hsub : forall m,
    m ∈ (if py_truthy (VStr pattern)
         then glob E (fs s) (proc_cwd s) pattern jp else []) ->
    m ∈ glob E (fs s) (proc_cwd s) pattern jp).
  { intros m. destruct (py_truthy _); [done|by intros ?%elem_of_nil]. }
  split.
  - exists evs. split; [done|]. eapply Forall_impl; [exact Hev|]. cbn.
    intros ev (m & Hm & ->). exists m. apply Hsub in Hm.
    split; [done|]. split; [by apply Hfree|]. split; [done|].
    intros k. by apply Hin.
  - intros out ->. eapply Forall_impl; [exact (Hout _ eq_refl)|]. cbn.
    intros e (Hm & k & content & Hres & Hk & He). apply Hsub in Hm.
    split; [done|]. split; [by apply Hfree|]. exists k, content.
    split; [done|]. split; [by eapply Hin|done].
Qed.
End FileListClaim.

(** * The properties at work on the examples *)

Ltac decide_it := refine (bool_decide_unpack _ _); vm_compute; exact I.

Lemma tree_ok_decide (t : tree) :
  bool_decide
    (map_Forall (fun (q : loc) (_ : node) =>
                   Forall (fun n => is_name n = true) q) t) = true ->
  tree_ok t.
Proof.
  intros H q nd Hq. apply bool_decide_eq_true_1 in H. exact (H q nd Hq).
Qed.

Lemma job_tree_ok : tree_ok job_tree.
Proof. apply tree_ok_decide. vm_compute. reflexivity. Qed.

Lemma run_pair {A} (c : M A) s : c s = ((c s).1, (c s).2).
Proof. by destruct (c s). Qed.


(** [g] is required and the caller leaves it out. *)
Lemma missing_required_param_rejected_witness :
  get_params env_ok cat_cfg ["g"] no_g_kwargs (in_job job_tree)
  = (Raise (ValueError "Missing required param: g"), in_job job_tree).
Proof.
  apply (proj1 (missing_required_param_rejected env_ok cat_cfg cat_params
                  eq_refl "g" (ParamConfig (VBool true) VNone VNone)
                  no_g_kwargs eq_refl eq_refl eq_refl));
    reflexivity.
Defined.

(** [g] resolved once, then [x], then [g] again by a caller without it. *)
Lemma repeated_resolution_hits_cache_witness :
  let s1 := (get_params env_ok cat_cfg ["g"] full_kwargs (in_job job_tree)).2 in
  let s2 := (get_params env_ok cat_cfg ["x"] full_kwargs s1).2 in
  get_params env_ok cat_cfg ["g"] ∅ s2 = (Ok {["g" := VStr "G"]}, s2).
Proof.
  cbv zeta.
  apply (repeated_resolution_hits_cache env_ok cat_cfg ["g"] full_kwargs
           (in_job job_tree) _ _ "g" (VStr "G") (run_pair _ _)
           ltac:(vm_compute; reflexivity)
           ["x"] full_kwargs _ _ (run_pair _ _)).
  reflexivity.
Defined.

(** The bytes of [f] land in [<scratch>/f] and [f] resolves to that name. *)
Lemma file_param_written_and_named_witness :
  exists s',
    get_params env_ok cat_cfg ["f"] full_kwargs (in_job job_tree)
    = (Ok {["f" := VStr "f"]}, s')
    /\ fs s' = <[["f"; job1; "w"] := File "hello"]> job_tree
    /\ _params_cache s' = <["f" := VStr "f"]> ∅
    /\ trace s' = [] ++ [EvOpen true ("/w/" +:+ job1 +:+ "/" +:+ "f")
                           (Some ["f"; job1; "w"])].
Proof.
  apply (file_param_written_and_named env_ok cat_cfg cat_params eq_refl
           "f" (ParamConfig VNone (VStr "file") VNone) full_kwargs
           (in_job job_tree) ("/w/" +:+ job1) ["f"; job1; "w"] "hello" "f").
  - reflexivity.
  - reflexivity.
  - left. split; reflexivity.
  - right. left. reflexivity.
  - reflexivity.
  - reflexivity.
  - reflexivity.
  - vm_compute. reflexivity.
Defined.

(** An escape, a known [$a], an unknown [${b}] and a dollar sign at the
    end; and the item [echo $x $$] with the optional [x] left out. *)
Lemma safe_substitute_replaces_known_keeps_unknown_witness :
  renders {["a" := VStr "A"]} "$$ $a ${b} $" "$ A ${b} $"
  /\ safe_substitute "$$ $a ${b} $" {["a" := VStr "A"]} = Ok "$ A ${b} $"
  /\ (process_input_item env_ok cat_cfg (VStr "echo $x $$") ∅ full_kwargs
        (in_job job_tree)).1 = Ok "echo None $".
Proof.
  pose proof (proj1 (proj2 (safe_substitute_replaces_known_keeps_unknown
                              {["a" := VStr "A"]} "$$ $a ${b} $"))
                "$ A ${b} $") as [Hto Hfrom].
  assert (Hr : renders {["a" := VStr "A"]} "$$ $a ${b} $" "$ A ${b} $").
  { apply Hto. vm_compute. reflexivity. }
  split; [exact Hr|]. split; [exact (Hfrom Hr)|].
  destruct (proj2 (proj2 (safe_substitute_replaces_known_keeps_unknown
                            ∅ "echo $x $$"))
              env_ok cat_cfg full_kwargs (in_job job_tree)
              ltac:(repeat constructor))
    as (ids & Hids & ->).
  vm_compute in Hids. injection Hids as <-.
  vm_compute. reflexivity.
Defined.

(** [*.txt] in the scratch directory of [job1]. *)
Lemma file_list_stays_in_scratch_witness :
  Forall (fun e =>
            e.1 ∈ glob env_ok job_tree [] "*.txt" ("/w/" +:+ job1)
            /\ dotdot_free e.1
            /\ exists k content,
                 resolve job_tree [] ("/w/" +:+ job1 +:+ "/" +:+ e.1) = Some k
                 /\ inside job_tree [] ("/w/" +:+ job1) k
                 /\ job_tree !! k = Some (File content)
                 /\ e.2 = mk_payload texts_entry content)
    [("a.txt", mk_payload texts_entry "A")].
Proof.
  refine (proj2 (file_list_stays_in_scratch env_ok cat_cfg texts_entry
                   (in_job job_tree) _ _ ("/w/" +:+ job1) "*.txt"
                   _ _ _ job_tree_ok (run_pair _ _)) _ _).
  - reflexivity.
  - reflexivity.
  - decide_it.
  - vm_compute. reflexivity.
Defined.

(** Exit code 3 and a warning on stderr. *)
Lemma executor_logs_once_witness :
  exists s',
    execute_spawn env_ok cat_cfg "cat f G" (in_job job_tree)
    = (Ok ("out", "warn"), s')
    /\ fs s' = job_tree
    /\ trace s'
       = [] ++ [EvSpawn "cat f G" ("/w/" +:+ job1);
                EvLog (LogExec (Some job1) 3 (1007 - 1000) "warn") 1014].
Proof.
  apply (proj1 (executor_logs_once env_ok cat_cfg "cat f G" (in_job job_tree)
                  ("/w/" +:+ job1) job_tree "out" "warn" 3
                  ltac:(reflexivity) ltac:(reflexivity))).
  reflexivity.
Defined.

(** [x] is optional and plain, and absent. *)
Lemma optional_plain_param_absent_is_None_witness :
  get_params env_ok cat_cfg ["x"] full_kwargs (in_job job_tree)
  = (Ok {["x" := VNone]}, set_cache (<["x" := VNone]> ∅) (in_job job_tree)).
Proof.
  apply (optional_plain_param_absent_is_None env_ok cat_cfg cat_params eq_refl
           "x" (ParamConfig VNone VNone VNone) full_kwargs (in_job job_tree));
    reflexivity.
Defined.

(** With [g] declared before the file parameter, a run without [g] makes
    and removes the scratch directory and does nothing else. *)
Lemma validation_failure_writes_nothing_witness :
  exists q s',
    run env_ok strict_cfg no_g_kwargs (fresh_session base_tree)
    = (Raise (ValueError ("Missing required param: " +:+ q)), s')
    /\ q ∈ map fst [("x", Some (ParamConfig VNone VNone VNone))] ++ ["g"]
    /\ trace s' = [] ++ [EvMakedirs ("/w/" +:+ job1); EvRmtree ("/w/" +:+ job1)].
Proof.
  refine (proj2 (proj2 (validation_failure_writes_nothing env_ok strict_cfg
                          strict_params eq_refl
                          [("x", Some (ParamConfig VNone VNone VNone))] "g"
                          (ParamConfig (VBool true) VNone VNone)
                          [("f", Some (ParamConfig VNone (VStr "file") VNone))]
                          no_g_kwargs (fresh_session base_tree)
                          eq_refl _ eq_refl eq_refl eq_refl eq_refl) _)
            ("/w/" +:+ job1)
            (<[[job1; "w"] := Dir]> base_tree) _ _).
  - decide_it.
  - intros n pc' Hin%list_elem_of_singleton. subst n.
    vm_compute. intros [= <-]. reflexivity.
  - reflexivity.
  - vm_compute. reflexivity.
Defined.

(** [g] is required and supplied as the empty string. *)
Lemma empty_value_meets_required_witness :
  get_params env_ok cat_cfg ["g"] empty_g_kwargs (in_job job_tree)
  = (Ok {["g" := VStr ""]},
     set_cache (<["g" := VStr ""]> ∅) (in_job job_tree)).
Proof.
  apply (proj1 (proj2 (empty_value_meets_required env_ok cat_cfg cat_params
                         eq_refl "g" (ParamConfig (VBool true) VNone VNone)
                         empty_g_kwargs (in_job job_tree) (VStr "")
                         eq_refl eq_refl eq_refl (or_introl eq_refl)
                         eq_refl eq_refl))).
  reflexivity.
Defined.

(** ** Where the specification and the code part *)


(** C6: the pattern [../secret] matches the file next to the scratch
    directory; the run opens it, at a location outside the scratch
    directory, and returns its content. *)
Lemma glob_escapes_scratch :
  let r := run env_ok leak_cfg ∅ (fresh_session base_tree) in
  r.1 = Ok (true,
            [(VStr "leak",
              RList [("../secret",
                      Payload (to_base64 "top secret") (VStr "")
                        (VStr "base64"))]);
             (VStr "job_id", RJobId (Some job1))])
  /\ EvOpen false ("/w/" +:+ job1 +:+ "/../secret") (Some ["secret"; "w"])
     ∈ trace r.2
  /\ ~ inside (<[[job1; "w"] := Dir]> base_tree) [] ("/w/" +:+ job1)
         ["secret"; "w"].
Proof.
  cbv zeta. split; [vm_compute; reflexivity|]. split.
  - apply list_elem_of_In. vm_compute. tauto.
  - intros (k0 & Hres & Hsuf). vm_compute in Hres. injection Hres as <-.
    revert Hsuf. refine (bool_decide_unpack _ _). vm_compute. exact I.
Qed.

(** C7: a process that exits with code 0 after writing the byte 255 to
    stderr: the executor raises and no log record is written. *)
Lemma undecodable_stderr_not_logged :
  let r := execute_spawn env_bad_stderr cat_cfg "cat f G" (in_job job_tree) in
  r.1 = Raise UnicodeDecodeError
  /\ trace r.2 = [EvSpawn "cat f G" ("/w/" +:+ job1)]
  /\ List.filter is_log (trace r.2) = []
  /\ (execute env_bad_stderr cat_cfg "cat f G" ∅ (in_job job_tree)).1
     = Raise UnicodeDecodeError.
Proof. cbv zeta. repeat split; vm_compute; reflexivity. Qed.

(** C8: the optional plain parameter [x], absent, resolves to [None], and
    [None] is what a template gets. *)
Lemma absent_optional_param_is_not_empty :
  let r := get_params env_ok cat_cfg ["x"] full_kwargs (in_job job_tree) in
  r.1 = Ok {["x" := VNone]}
  /\ r.1 <> Ok {["x" := VStr ""]}
  /\ (process_input_item env_ok cat_cfg (VStr "echo $x") ∅ full_kwargs
        (in_job job_tree)).1 = Ok "echo None".
Proof.
  cbv zeta.
  assert (H : (get_params env_ok cat_cfg ["x"] full_kwargs (in_job job_tree)).1
              = Ok {["x" := VNone]}) by (vm_compute; reflexivity).
  split; [exact H|]. split; [|vm_compute; reflexivity].
  rewrite H. intros Heq. discriminate Heq.
Qed.

(** C9: [f] is declared before the required [g]; a caller who sends [f]
    and not [g] gets the validation error after [f] has been written to
    the scratch directory. *)
Lemma file_written_before_validation_fails :
  let r := run env_ok cat_cfg no_g_kwargs (fresh_session base_tree) in
  let p := preprocess_params env_ok cat_cfg no_g_kwargs (in_job job_tree) in
  r.1 = Raise (ValueError "Missing required param: g")
  /\ EvOpen true ("/w/" +:+ job1 +:+ "/f") (Some ["f"; job1; "w"]) ∈ trace r.2
  /\ p.1 = Raise (ValueError "Missing required param: g")
  /\ job_tree !! ["f"; job1; "w"] = None
  /\ fs p.2 !! ["f"; job1; "w"] = Some (File "hello").
Proof.
  cbv zeta. split; [vm_compute; reflexivity|]. split.
  - apply list_elem_of_In. vm_compute. tauto.
  - repeat split; vm_compute; reflexivity.
Qed.

(** * Further properties *)

(** ** Computations that return, dictionaries, the cache *)

Lemma py_eq_refl v : py_eq v v = true.
Proof.
  destruct v as [|b|z|x|x]; cbn; try done.
  - by destruct b.
  - apply Z.eqb_refl.
  - apply String.eqb_refl.
  - apply String.eqb_refl.
Qed.

Lemma dict_get_set {A} key (v : A) d : dict_get key (dict_set key v d) = Some v.
Proof.
  induction d as [|[k x] d IH]; cbn.
  - by rewrite py_eq_refl.
  - destruct (py_eq k key) eqn:Hk; cbn; by rewrite Hk.
Qed.

Lemma bind_Ok_inv {A B} (c : M A) (k : A -> M B) s b s' :
  (x <- c ;; k x) s = (Ok b, s') ->
  exists a s1, c s = (Ok a, s1) /\ k a s1 = (Ok b, s').
Proof. unfold bind. destruct (c s) as [[a|e] s1]; [eauto|done]. Qed.

Lemma set_cache_twice c c' s : set_cache c (set_cache c' s) = set_cache c s.
Proof. reflexivity. Qed.

Lemma set_cache_same s : set_cache (_params_cache s) s = s.
Proof. by destruct s. Qed.


(** ** Making and removing the scratch directory *)

Section ScratchDirectory.
Context (E : Env) (cfg : cmd_config).

Lemma is_dir_at_mono (t t' : tree) x :
  t ⊆ t' -> is_dir_at t x = true -> is_dir_at t' x = true.
Proof.
  intros Hsub. unfold is_dir_at, fs_lookup. destruct x as [|n x]; [done|].
  destruct (t !! (n :: x)) as [[|c]|] eqn:Hl; try done.
  by rewrite (lookup_weaken _ _ _ _ Hl Hsub).
Qed.

Lemma makedirs_walk_grows comps : forall (t : tree) cur t',
  makedirs_walk t cur comps = Some t' -> t ⊆ t'.
Proof.
  induction comps as [|c rest IH]; intros t cur t'; cbn [makedirs_walk].
  - by intros [= <-].
  - destruct (is_dir_at t cur); [|done].
    destruct (_ || _); [apply IH|].
    destruct (String.eqb c ".."); [apply IH|].
    unfold fs_lookup. destruct (t !! (c :: cur)) as [[|x]|] eqn:Hl; [apply IH|done|].
    intros H%IH. etrans; [|exact H]. by apply insert_subseteq.
Qed.

(** After [makedirs] the path, when it ends in a proper name, names a
    directory. *)
Lemma makedirs_walk_made l n : forall (t : tree) cur t',
  is_name n = true ->
  makedirs_walk t cur (l ++ [n]) = Some t' ->
  exists d, walk t' cur (l ++ [n]) = Some (n :: d)
            /\ is_dir_at t' (n :: d) = true.
Proof.
  induction l as [|c rest IH]; intros t cur t' Hn.
  - cbn [app makedirs_walk walk]. destruct (is_name_plain n Hn) as [H1 H2].
    rewrite H1, H2. destruct (is_dir_at t cur) eqn:Hd; [|done].
    unfold fs_lookup at 1.
    destruct (t !! (n :: cur)) as [[|x]|] eqn:Hl; [| done |]; intros [= <-].
    + rewrite Hd. exists cur. split; [done|]. unfold is_dir_at, fs_lookup. by rewrite Hl.
    + assert (Hsub : t ⊆ <[n :: cur := Dir]> t) by (by apply insert_subseteq).
      rewrite (is_dir_at_mono _ _ _ Hsub Hd). exists cur. split; [done|].
      unfold is_dir_at, fs_lookup. by rewrite lookup_insert_eq.
  - cbn [app makedirs_walk walk]. destruct (is_dir_at t cur) eqn:Hd; [|done].
    assert (Hcur : forall t0, t ⊆ t0 -> is_dir_at t0 cur = true).
    { intros t0 Hsub. by eapply is_dir_at_mono. }
    destruct (_ || _).
    { intros H. rewrite (Hcur _ (makedirs_walk_grows _ _ _ _ H)). by eapply IH. }
    destruct (String.eqb c "..").
    { intros H. rewrite (Hcur _ (makedirs_walk_grows _ _ _ _ H)). by eapply IH. }
    unfold fs_lookup at 1. destruct (t !! (c :: cur)) as [[|x]|] eqn:Hl; [|done|].
    + intros H. rewrite (Hcur _ (makedirs_walk_grows _ _ _ _ H)). by eapply IH.
    + intros H. rewrite (Hcur t').
      * by eapply IH.
      * etrans; [|exact (makedirs_walk_grows _ _ _ _ H)]. by apply insert_subseteq.
Qed.

(** X1.  When [ensure_job_path] returns, the scratch path of the job names
    a directory, and every entry the tree had is still there. *)
Theorem ensure_job_path_makes_directory s s' j jp :
  job_id s = Some j ->
  is_name j = true ->
  job_path_of E cfg (Some j) = Ok jp ->
  ensure_job_path E cfg s = (Ok tt, s') ->
  isdir (fs s') (proc_cwd s') jp = true
  /\ fs s ⊆ fs s'
  /\ trace s' = trace s ++ [EvMakedirs jp].
Proof.
  intros Hj Hn Hjp. unfold ensure_job_path, get_job_path, bind, gets, lift.
  rewrite Hj, Hjp. unfold modify, id, raise. cbn [fs proc_cwd add_event].
  destruct (makedirs (fs s) (proc_cwd s) jp) as [t|] eqn:Hmk; [|done].
  intros [= <-]. cbn [fs proc_cwd trace set_fs add_event].
  destruct (job_path_of_shape E cfg _ _ Hjp) as [p ->].
  unfold makedirs in Hmk. unfold isdir, resolve.
  destruct (String.eqb _ ""); [done|].
  rewrite split_on_app, (is_name_split _ Hn) in Hmk |- *.
  split; [|split; [by eapply makedirs_walk_grows|done]].
  destruct (makedirs_walk_made _ _ _ _ _ Hn Hmk) as (d & -> & Hd). exact Hd.
Qed.

(** X2.  [clean_job_path] touches nothing outside the scratch directory:
    every location of the tree is left as it was, or lies in the scratch
    directory (which was a directory) and is gone. *)
Theorem clean_job_path_stays_inside s jp :
  job_path_of E cfg (job_id s) = Ok jp ->
  exists s',
    clean_job_path E cfg s = (Ok tt, s')
    /\ forall q,
         fs s' !! q = fs s !! q
         \/ (fs s' !! q = None
             /\ exists k, resolve (fs s) (proc_cwd s) jp = Some k
                          /\ is_dir_at (fs s) k = true /\ k `suffix_of` q).
Proof.
  intros Hjp. rewrite (clean_job_path_eq E cfg _ _ Hjp). eexists. split; [done|].
  intros q. cbn [fs set_fs add_event]. unfold rmtree.
  destruct (resolve (fs s) (proc_cwd s) jp) as [k|] eqn:Hr; [|by left].
  destruct (is_dir_at (fs s) k) eqn:Hd; [|by left].
  rewrite remove_below_lookup. destruct (decide (k `suffix_of` q)); [|by left].
  destruct (held _ _ q); [by left|].
  right. split; [done|]. by exists k.
Qed.
End ScratchDirectory.

(** ** Scratch directories of different jobs *)

Section Jobs.
Context (E : Env) (cfg : cmd_config).

Lemma start_of_child cwd p n m :
  start_of cwd (p +:+ String "/"%char n) = start_of cwd (p +:+ String "/"%char m).
Proof. unfold start_of. destruct p; str_norm; reflexivity. Qed.

(** Two names under the same path resolve to entries of one directory. *)
Lemma resolve_siblings t cwd p n m k1 k2 :
  is_name n = true -> is_name m = true ->
  resolve t cwd (p +:+ String "/"%char n) = Some k1 ->
  resolve t cwd (p +:+ String "/"%char m) = Some k2 ->
  exists d, k1 = n :: d /\ k2 = m :: d.
Proof.
  intros Hn Hm. unfold resolve.
  destruct (String.eqb _ ""); [done|]. destruct (String.eqb _ ""); [done|].
  rewrite (start_of_child cwd p m n).
  rewrite !split_on_app, (is_name_split n Hn), (is_name_split m Hm), !walk_app.
  destruct (walk t _ (split_on _ p)) as [d|]; [|done]. cbn [mbind option_bind].
  rewrite (walk_name _ _ _ Hn), (walk_name _ _ _ Hm).
  destruct (is_dir_at t d); [|done]. intros [= <-] [= <-]. eauto.
Qed.

Lemma job_path_of_base j1 j2 jp1 jp2 :
  job_path_of E cfg (Some j1) = Ok jp1 ->
  job_path_of E cfg (Some j2) = Ok jp2 ->
  exists p, jp1 = p +:+ String "/"%char j1 /\ jp2 = p +:+ String "/"%char j2.
Proof.
  unfold job_path_of. destruct (py_or _ _); try discriminate.
  intros [= <-] [= <-]. eauto.
Qed.

(** X3.  Removing the scratch directory of one job leaves what lies in
    the scratch directory of any other job as it is. *)
Theorem cleanup_spares_other_jobs s j1 j2 jp1 jp2 k2 q :
  job_id s = Some j1 ->
  is_name j1 = true -> is_name j2 = true -> j1 <> j2 ->
  job_path_of E cfg (Some j1) = Ok jp1 ->
  job_path_of E cfg (Some j2) = Ok jp2 ->
  resolve (fs s) (proc_cwd s) jp2 = Some k2 ->
  k2 `suffix_of` q ->
  exists s', clean_job_path E cfg s = (Ok tt, s') /\ fs s' !! q = fs s !! q.
Proof.
  intros Hj Hn1 Hn2 Hne Hjp1 Hjp2 Hr2 Hq.
  rewrite (clean_job_path_eq E cfg s jp1) by (by rewrite Hj).
  eexists. split; [done|]. cbn [fs set_fs add_event]. unfold rmtree.
  destruct (resolve (fs s) (proc_cwd s) jp1) as [k1|] eqn:Hr1; [|done].
  destruct (is_dir_at (fs s) k1); [|done].
  rewrite remove_below_lookup, decide_False; [done|]. intros Hq1.
  destruct (job_path_of_base _ _ _ _ Hjp1 Hjp2) as (p & -> & ->).
  destruct (resolve_siblings _ _ _ _ _ _ _ Hn1 Hn2 Hr1 Hr2) as (d & -> & ->).
  destruct Hq as [l2 Hl2], Hq1 as [l1 Hl1]. rewrite Hl1 in Hl2.
  apply app_inj_2 in Hl2 as [_ [= ?]]; done.
Qed.
End Jobs.


(** ** The events of a run *)

Lemma adds_refl kind s : adds kind s s.
Proof. exists []. by rewrite app_nil_r. Qed.

Lemma adds_trans kind s1 s2 s3 :
  adds kind s1 s2 -> adds kind s2 s3 -> adds kind s1 s3.
Proof.
  intros (e1 & H1 & F1) (e2 & H2 & F2). exists (e1 ++ e2). split.
  - by rewrite H2, H1, app_assoc.
  - by apply Forall_app.
Qed.

Lemma adds_event kind e s : kind e = true -> adds kind s (add_event e s).
Proof. intros H. exists [e]. split; [done|]. by repeat constructor. Qed.

Lemma adds_same_trace kind s s' : trace s' = trace s -> adds kind s s'.
Proof. intros H. exists []. by rewrite app_nil_r. Qed.

#[export] Hint Resolve adds_refl adds_trans : keeps.

Ltac adds_tac :=
  repeat first
    [ keeps_step
    | apply adds_event; reflexivity
    | apply adds_same_trace; reflexivity ].

Section Events.
Context (E : Env) (cfg : cmd_config).

Lemma get_job_path_adds kind : keeps (adds kind) (get_job_path E cfg).
Proof. unfold get_job_path. adds_tac. Qed.

Lemma get_job_file_path_adds kind f :
  keeps (adds kind) (get_job_file_path E cfg f).
Proof. unfold get_job_file_path. adds_tac. apply get_job_path_adds. Qed.

Lemma json_log_info_adds kind d :
  (forall e, is_log e = true -> kind e = true) ->
  keeps (adds kind) (json_log_info E d).
Proof.
  intros H. unfold json_log_info, now. adds_tac. apply adds_event, H. reflexivity.
Qed.

Lemma write_param_file_adds p v : keeps (adds before_spawn) (write_param_file p v).
Proof. unfold write_param_file. adds_tac. Qed.

Lemma cache_store_adds kind n v : keeps (adds kind) (cache_store n v).
Proof. unfold cache_store. adds_tac. Qed.

Lemma get_params_loop_adds names kwargs r0 :
  keeps (adds before_spawn) (get_params_loop E cfg names kwargs r0).
Proof.
  revert r0. induction names as [|a names IH]; intros r0; cbn [get_params_loop];
    adds_tac;
    auto using get_job_file_path_adds, write_param_file_adds, cache_store_adds.
Qed.

Lemma get_params_adds names kwargs :
  keeps (adds before_spawn) (get_params E cfg names kwargs).
Proof. unfold get_params. adds_tac. apply get_params_loop_adds. Qed.

Lemma preprocess_params_adds kwargs :
  keeps (adds before_spawn) (preprocess_params E cfg kwargs).
Proof. unfold preprocess_params. adds_tac. apply get_params_adds. Qed.

Lemma process_input_item_adds item env kwargs :
  keeps (adds before_spawn) (process_input_item E cfg item env kwargs).
Proof.
  unfold process_input_item. destruct item; adds_tac; apply get_params_adds.
Qed.

Lemma prepare_cmd_adds kwargs :
  keeps (adds before_spawn) (prepare_cmd E cfg kwargs).
Proof.
  unfold prepare_cmd. adds_tac;
    auto using process_input_item_adds, get_job_path_adds.
Qed.

Lemma read_file_adds p : keeps (adds after_spawn) (read_file p).
Proof. unfold read_file. adds_tac. Qed.

Lemma decode_adds kind b : keeps (adds kind) (decode b).
Proof. unfold decode. adds_tac. Qed.

Lemma return_file_list_adds d :
  keeps (adds after_spawn) (return_file_list E cfg d).
Proof.
  unfold return_file_list, read_one. adds_tac;
    auto using read_file_adds, get_job_file_path_adds, get_job_path_adds.
Qed.

Lemma return_entry_adds out err item r :
  keeps (adds after_spawn) (return_entry E cfg out err item r).
Proof.
  unfold return_entry, item_key. destruct item.
  - adds_tac; apply decode_adds.
  - adds_tac;
      auto using read_file_adds, return_file_list_adds, get_job_file_path_adds.
Qed.

Lemma return_loop_adds out err items r :
  keeps (adds after_spawn) (return_loop E cfg out err items r).
Proof.
  revert r. induction items as [|i items IH]; intros r; cbn [return_loop].
  - adds_tac.
  - apply keeps_bind; [keeps_side| |auto]. apply return_entry_adds.
Qed.

Lemma execute_spawn_trace cmd s x s' jp :
  job_path_of E cfg (job_id s) = Ok jp ->
  execute_spawn E cfg cmd s = (x, s') ->
  exists evs,
    trace s' = trace s ++ evs
    /\ Forall (fun e => after_spawn e = true) (tail evs)
    /\ match x with
       | Ok _ => head evs = Some (EvSpawn cmd jp)
       | Raise _ => evs = [] \/ head evs = Some (EvSpawn cmd jp)
       end.
Proof.
  intros Hjp.
  unfold execute_spawn, get_job_path, now, bind, gets, lift, modify, id, ret.
  rewrite Hjp. cbv beta iota zeta. cbn [trace tick job_id fs proc_cwd].
  destruct (shell E cmd jp (proc_cwd s) (fs s)) as [e|t out err rc].
  { unfold raise. intros [= <- <-]. exists []. cbn. rewrite app_nil_r. auto. }
  cbn [trace tick add_event set_fs ticks job_id]. unfold decode.
  destruct (decode_utf8 err) as [text|].
  - unfold ret, json_log_info, now, bind, gets, modify. cbn.
    intros [= <- <-]. cbn. eexists [_; _].
    split; [by rewrite <- ?app_assoc|]. cbn.
    split; [|done]. by repeat constructor.
  - unfold raise. intros [= <- <-]. cbn. eexists [_]. split; [done|]. cbn. auto.
Qed.

Lemma execute_trace cmd kwargs s x s' jp :
  job_path_of E cfg (job_id s) = Ok jp ->
  execute E cfg cmd kwargs s = (x, s') ->
  exists evs,
    trace s' = trace s ++ evs /\ spawned_once jp evs
    /\ (forall v, x = Ok v -> evs <> []).
Proof.
  intros Hjp. unfold execute. unfold bind at 1.
  destruct (bind_kwargs _ kwargs s) as [[[]|e] s0] eqn:Hb;
    apply bind_kwargs_state in Hb as ->.
  2:{ intros [= <- <-]. exists []. rewrite app_nil_r.
      split; [done|]. split; [by left|done]. }
  unfold bind at 1.
  destruct (execute_spawn E cfg cmd s) as [[o|e] s1] eqn:Hs;
    destruct (execute_spawn_trace _ _ _ _ _ Hjp Hs) as (evs & Ht & Hrest & Hhd).
  2:{ intros [= <- <-]. exists evs. split; [done|]. split; [|done].
      destruct Hhd as [->|Hhd]; [by left|]. right.
      destruct evs as [|e0 rest]; [done|]. injection Hhd as ->. eauto. }
  destruct evs as [|e0 rest]; [done|]. injection Hhd as ->. cbn in Hrest.
  intros Hk.
  assert (Hadds : adds after_spawn s1 s').
  { revert Hk. apply (keeps_bind (adds after_spawn) (adds_trans _)).
    - destruct (cfg_return cfg); adds_tac. apply return_loop_adds.
    - intros r. adds_tac. }
  destruct Hadds as (more & Hm & Fm). exists (EvSpawn cmd jp :: rest ++ more).
  split; [|split; [|done]].
  - rewrite Hm, Ht. by rewrite <- app_assoc.
  - right. exists cmd, (rest ++ more). split; [done|]. by apply Forall_app.
Qed.

Lemma run_body_trace kwargs s x s' jp :
  job_path_of E cfg (job_id s) = Ok jp ->
  run_body E cfg kwargs s = (x, s') ->
  exists pre post,
    trace s' = trace s ++ pre ++ post
    /\ Forall (fun e => before_spawn e = true) pre /\ spawned_once jp post
    /\ (forall v, x = Ok v -> post <> []).
Proof.
  intros Hjp. unfold run_body.
  pose (front := (preprocess_params E cfg kwargs ;;
                  cmd <- prepare_cmd E cfg kwargs ;;
                  job <- gets job_id ;;
                  json_log_info E (LogCmd job cmd) ;; ret cmd) : M string).
  assert (Hfront : forall s0,
    (preprocess_params E cfg kwargs ;;
     cmd <- prepare_cmd E cfg kwargs ;;
     job <- gets job_id ;;
     json_log_info E (LogCmd job cmd) ;; execute E cfg cmd kwargs) s0
    = (cmd <- front ;; execute E cfg cmd kwargs) s0).
  { intros s0. unfold front, bind, gets, ret.
    destruct (preprocess_params E cfg kwargs s0) as [[[]|?] ?]; [|done].
    destruct (prepare_cmd E cfg kwargs _) as [[?|?] ?]; [|done].
    destruct (json_log_info E _ _) as [[[]|?] ?]; done. }
  assert (Hadds : keeps (adds before_spawn) front).
  { unfold front. adds_tac;
      auto using preprocess_params_adds, prepare_cmd_adds.
    apply json_log_info_adds. intros e He. unfold before_spawn.
    rewrite He. apply orb_true_r. }
  assert (Hsame : keeps same_job front).
  { unfold front. same_job_tac;
      auto using preprocess_params_same_job, prepare_cmd_same_job,
        json_log_info_same_job. }
  rewrite Hfront. unfold bind at 1.
  destruct (front s) as [[cmd|e] s1] eqn:Hf;
    destruct (Hadds _ _ _ Hf) as (pre & Hp & Fp);
    destruct (Hsame _ _ _ Hf) as [Hj _].
  - intros Hx.
    apply (execute_trace _ _ _ _ _ jp) in Hx as (post & Hq & Fq & Hok);
      [|by rewrite Hj].
    exists pre, post. split; [|done]. by rewrite Hq, Hp, app_assoc.
  - intros [= <- <-]. exists pre, []. rewrite app_nil_r.
    split; [done|]. split; [done|]. split; [by left|done].
Qed.

Lemma ensure_job_path_eq s jp :
  job_path_of E cfg (job_id s) = Ok jp ->
  ensure_job_path E cfg s
  = match makedirs (fs s) (proc_cwd s) jp with
    | Some t => (Ok tt, set_fs t (add_event (EvMakedirs jp) s))
    | None => (Raise (OSError jp), add_event (EvMakedirs jp) s)
    end.
Proof.
  intros H. unfold ensure_job_path, get_job_path, bind, gets, lift. rewrite H.
  unfold modify, id. cbn. by destruct (makedirs _ _ _).
Qed.

(** X4.  The trace of a run: the scratch directory is made first and
    removed last; in between come write-opens and log records, then at most
    one process start, in the scratch directory, followed by log records
    and read-opens only.  A run that returns has started its process, and
    every run leaves the session without a job. *)
Theorem run_trace_shape kwargs s r s' jp :
  job_path_of E cfg (Some (next_job_id E s)) = Ok jp ->
  run E cfg kwargs s = (r, s') ->
  exists pre post,
    trace s' = trace s ++ EvMakedirs jp :: pre ++ post ++ [EvRmtree jp]
    /\ Forall (fun e => before_spawn e = true) pre
    /\ spawned_once jp post
    /\ (forall v, r = Ok v -> post <> [])
    /\ job_id s' = None.
Proof.
  intros Hjp Hrun. unfold run in Hrun. unfold bind at 1 in Hrun.
  rewrite job_context_eq in Hrun. unfold try_finally in Hrun.
  destruct ((ensure_job_path E cfg;; run_body E cfg kwargs) (entered E s))
    as [r1 s1] eqn:Hbody.
  assert (Hsame : same_job (entered E s) s1).
  { eapply (keeps_bind same_job same_job_trans); [| |exact Hbody].
    - apply ensure_job_path_same_job.
    - intros ?. apply run_body_same_job. }
  destruct Hsame as [Hj Hc]. cbn in Hj.
  assert (Hin : exists pre post,
    trace s1 = trace s ++ EvMakedirs jp :: pre ++ post
    /\ Forall (fun e => before_spawn e = true) pre /\ spawned_once jp post
    /\ (forall v, r1 = Ok v -> post <> [])).
  { revert Hbody. unfold bind at 1.
    rewrite (ensure_job_path_eq _ jp) by done.
    destruct (makedirs _ _ jp) as [t|].
    - intros Hb. apply (run_body_trace _ _ _ _ jp) in Hb; [|done].
      destruct Hb as (pre & post & Ht & Fp & Fq & Hok). exists pre, post.
      split; [|done]. rewrite Ht. cbn. by rewrite <- app_assoc.
    - intros [= <- <-]. exists [], []. cbn. split; [done|]. split; [done|].
      split; [by left|done]. }
  destruct Hin as (pre & post & Ht & Fp & Fq & Hok). exists pre, post.
  unfold bind at 1 in Hrun.
  rewrite (clean_job_path_eq E cfg s1 jp) in Hrun by (by rewrite Hj).
  unfold modify in Hrun. cbn in Hrun.
  assert (trace s' = trace s1 ++ [EvRmtree jp] /\ job_id s' = None
          /\ forall v, r = Ok v -> exists v1, r1 = Ok v1) as (-> & -> & Hr).
  { destruct r1; injection Hrun as <- <-; repeat split; eauto; done. }
  split.
  { rewrite Ht. rewrite <- !app_assoc. cbn. by rewrite <- !app_assoc. }
  split; [done|]. split; [done|]. split; [|done].
  intros v Hv. destruct (Hr v Hv) as [v1 Hv1]. by eapply Hok.
Qed.
End Events.

(** ** The result of a run *)

Section Result.
Context (E : Env) (cfg : cmd_config).

Lemma execute_result cmd kwargs s res s' :
  execute E cfg cmd kwargs s = (Ok res, s') ->
  dict_get (VStr "job_id") res = Some (RJobId (job_id s)).
Proof.
  unfold execute.
  intros ([] & s0 & Hb & H)%bind_Ok_inv. apply bind_kwargs_state in Hb as ->.
  apply bind_Ok_inv in H as (o & s1 & Hs & H).
  apply execute_spawn_same_job in Hs as [Hj1 _].
  apply bind_Ok_inv in H as (r & s2 & Hr & H).
  assert (Hj2 : job_id s2 = job_id s1).
  { revert Hr. destruct (cfg_return cfg); [by intros [= _ <-]|done|].
    by intros [? _]%return_loop_same_job. }
  revert H. unfold bind, gets, ret. intros [= <- <-]. rewrite dict_get_set.
  by rewrite Hj2, Hj1.
Qed.

(** X5.  A run that returns gives the flag [True] and a result whose
    [job_id] entry is the identifier drawn for the job, whatever the
    [return] list stored under that key; the session is left without a
    job. *)
Theorem run_result_names_job kwargs s b res s' :
  run E cfg kwargs s = (Ok (b, res), s') ->
  b = true
  /\ dict_get (VStr "job_id") res = Some (RJobId (Some (next_job_id E s)))
  /\ job_id s' = None.
Proof.
  intros Hrun. unfold run in Hrun. unfold bind at 1 in Hrun.
  rewrite job_context_eq in Hrun. unfold try_finally in Hrun.
  destruct ((ensure_job_path E cfg;; run_body E cfg kwargs) (entered E s))
    as [r1 s1] eqn:Hbody.
  destruct ((clean_job_path E cfg;; modify (set_job_id None)) s1)
    as [[[]|e] s2] eqn:Hclean; [|done].
  destruct r1 as [res1|e]; [|done]. injection Hrun as <- <- <-.
  split; [done|]. split.
  - revert Hbody. unfold bind at 1.
    destruct (ensure_job_path E cfg (entered E s)) as [[[]|e] s0] eqn:He; [|done].
    apply ensure_job_path_same_job in He as [Hj0 _]. cbn in Hj0.
    unfold run_body. unfold bind at 1.
    destruct (preprocess_params E cfg kwargs s0) as [[[]|e] s3] eqn:Hp; [|done].
    apply preprocess_params_same_job in Hp as [Hj3 _]. unfold bind at 1.
    destruct (prepare_cmd E cfg kwargs s3) as [[cmd|e] s4] eqn:Hc; [|done].
    apply prepare_cmd_same_job in Hc as [Hj4 _].
    unfold bind at 1, gets at 1. unfold bind at 1.
    destruct (json_log_info E _ s4) as [[[]|e] s5] eqn:Hl; [|done].
    apply json_log_info_same_job in Hl as [Hj5 _].
    intros Hx%execute_result. rewrite Hx. do 2 f_equal. congruence.
  - revert Hclean. unfold bind at 1.
    destruct (clean_job_path E cfg s1) as [[[]|e] s3]; [|done].
    unfold modify. by intros [= <-].
Qed.
End Result.

(** ** Names without a specification *)

Section Undeclared.
Context (E : Env) (cfg : cmd_config).

Lemma get_params_loop_undeclared names kwargs : forall r0 s,
  Forall (fun n => params_get (declared cfg) n = None) names ->
  (forall n, n ∈ names ->
     _params_cache s !! n = None \/ _params_cache s !! n = kwargs !! n) ->
  exists r c,
    get_params_loop E cfg names kwargs r0 s = (Ok r, set_cache c s)
    /\ (forall n, r !! n = match (if decide (n ∈ names) then kwargs !! n else None)
                           with Some v => Some v | None => r0 !! n end)
    /\ (forall n, c !! n = match (if decide (n ∈ names) then kwargs !! n else None)
                           with Some v => Some v | None => _params_cache s !! n end).
Proof.
  induction names as [|a names IH]; intros r0 s Hall Hc.
  - exists r0, (_params_cache s). cbn. unfold ret. rewrite set_cache_same.
    split; [done|].
    split; intros n; by rewrite decide_False by apply not_elem_of_nil.
  - apply Forall_cons in Hall as [Ha Hall].
    assert (Hpick : forall n (o : option value),
      (n = a -> kwargs !! a = None -> o = None) ->
      (n = a -> forall v, kwargs !! a = Some v -> a ∉ names -> o = Some v) ->
      match (if decide (n ∈ names) then kwargs !! n else None)
      with Some v => Some v | None => o end
      = match (if decide (n ∈ a :: names) then kwargs !! n else None)
        with Some v => Some v | None => o end).
    { intros n o H1 H2. destruct (decide (n ∈ names)) as [Hin|Hin].
      - rewrite decide_True by (by apply list_elem_of_further). done.
      - destruct (decide (n = a)) as [->|Hne].
        + rewrite decide_True by apply list_elem_of_here.
          destruct (kwargs !! a) as [v|] eqn:Hk; [by apply H2|done].
        + rewrite decide_False; [done|].
          intros [?|?]%elem_of_cons; done. }
    cbn [get_params_loop]. unfold bind at 1, gets at 1.
    destruct (_params_cache s !! a) as [v|] eqn:Hca.
    { assert (Hka : kwargs !! a = Some v).
      { destruct (Hc a) as [?|?]; [apply list_elem_of_here|congruence..]. }
      destruct (IH (<[a:=v]> r0) s Hall) as (r & c & -> & Hr & Hcc).
      { intros n Hn. apply Hc. by apply list_elem_of_further. }
      exists r, c. split; [done|]. split; intros n.
      - rewrite Hr. destruct (decide (n = a)) as [->|Hne].
        + rewrite lookup_insert_eq. rewrite (Hpick a (Some v)); [|congruence..].
          rewrite decide_True by apply list_elem_of_here. by rewrite Hka.
        + rewrite lookup_insert_ne by done. apply Hpick; congruence.
      - rewrite Hcc. apply Hpick; congruence. }
    fold (declared cfg). rewrite Ha.
    destruct (kwargs !! a) as [v|] eqn:Hk.
    + unfold bind at 1, cache_store, bind, gets, modify. cbn [fst snd].
      destruct (IH (<[a:=v]> r0) (set_cache (<[a:=v]> (_params_cache s)) s) Hall)
        as (r & c & -> & Hr & Hcc).
      { intros n Hn. cbn. destruct (decide (n = a)) as [->|Hne].
        - right. by rewrite lookup_insert_eq.
        - rewrite lookup_insert_ne by done. apply Hc. by apply list_elem_of_further. }
      exists r, c. split; [done|]. split; intros n.
      * rewrite Hr. destruct (decide (n = a)) as [->|Hne].
        -- rewrite lookup_insert_eq. rewrite (Hpick a (Some v)); [|congruence..].
           rewrite decide_True by apply list_elem_of_here. by rewrite Hk.
        -- rewrite lookup_insert_ne by done. apply Hpick; congruence.
      * rewrite Hcc. cbn. destruct (decide (n = a)) as [->|Hne].
        -- rewrite lookup_insert_eq. rewrite (Hpick a (Some v)); [|congruence..].
           rewrite decide_True by apply list_elem_of_here. by rewrite Hk.
        -- rewrite lookup_insert_ne by done. apply Hpick; congruence.
    + destruct (IH r0 s Hall) as (r & c & -> & Hr & Hcc).
      { intros n Hn. apply Hc. by apply list_elem_of_further. }
      exists r, c. split; [done|]. split; intros n.
      * rewrite Hr. destruct (decide (n ∈ names)) as [Hin|Hin].
        -- rewrite decide_True by (by apply list_elem_of_further). done.
        -- destruct (decide (n = a)) as [->|Hne].
           ++ rewrite decide_True by apply list_elem_of_here. by rewrite Hk.
           ++ rewrite decide_False; [done|]. intros [?|?]%elem_of_cons; done.
      * rewrite Hcc. destruct (decide (n ∈ names)) as [Hin|Hin].
        -- rewrite decide_True by (by apply list_elem_of_further). done.
        -- destruct (decide (n = a)) as [->|Hne].
           ++ rewrite decide_True by apply list_elem_of_here. by rewrite Hk.
           ++ rewrite decide_False; [done|]. intros [?|?]%elem_of_cons; done.
Qed.

(** X6.  Names that have no specification and are not cached resolve to
    what the caller passed for them and to nothing else: names the caller
    did not pass are left out of the result.  The values are cached; no
    file is written and nothing is logged. *)
Theorem undeclared_names_pass_through names kwargs s :
  kwargs !! "self" = None ->
  Forall (fun n => params_get (declared cfg) n = None
                   /\ _params_cache s !! n = None) names ->
  exists r,
    get_params E cfg names kwargs s
    = (Ok r, set_cache (r ∪ _params_cache s) s)
    /\ forall n, r !! n = if decide (n ∈ names) then kwargs !! n else None.
Proof.
  intros Hself Hall. unfold get_params, bind.
  rewrite bind_kwargs_ok by (repeat constructor; done).
  destruct (get_params_loop_undeclared names kwargs ∅ s) as (r & c & -> & Hr & Hc).
  - eapply Forall_impl; [exact Hall|]. by intros n [? _].
  - intros n Hn. left. rewrite Forall_forall in Hall. by apply Hall.
  - exists r. assert (Hr' : forall n,
      r !! n = if decide (n ∈ names) then kwargs !! n else None).
    { intros n. rewrite Hr, lookup_empty. by destruct (if decide _ then _ else _). }
    split; [|done]. do 2 f_equal. apply map_eq. intros n.
    rewrite Hc, lookup_union, Hr'.
    by destruct (if decide _ then _ else _), (_params_cache s !! n).
Qed.
End Undeclared.

(** ** Files are written by the pre-resolution pass only *)

Lemma declared_given cfg name pc :
  params_get (declared cfg) name = Some pc ->
  cfg_params cfg = Given (declared cfg).
Proof. unfold declared. by destruct (cfg_params cfg). Qed.

Lemma settled_refl cfg s : settled cfg s s.
Proof. by intros H. Qed.

Lemma settled_trans cfg s1 s2 s3 :
  settled cfg s1 s2 -> settled cfg s2 s3 -> settled cfg s1 s3.
Proof.
  intros H12 H23 H1. destruct (H12 H1) as (H2 & ? & ?).
  destruct (H23 H2) as (H3 & ? & ?). split; [done|]. split; congruence.
Qed.

#[export] Hint Resolve settled_refl settled_trans : keeps.

Ltac settled_tac :=
  repeat first [ keeps_step | (intros ?; by repeat split) ].

Section Settled.
Context (E : Env) (cfg : cmd_config).


Lemma all_cached_store name v s :
  all_cached cfg s -> all_cached cfg (set_cache (<[name := v]> (_params_cache s)) s).
Proof.
  intros H n pc Hn. cbn. destruct (decide (n = name)) as [->|Hne].
  - by rewrite lookup_insert_eq.
  - rewrite lookup_insert_ne by done. by eapply H.
Qed.

Lemma get_params_loop_settled names kwargs : forall r0,
  keeps (settled cfg) (get_params_loop E cfg names kwargs r0).
Proof.
  induction names as [|a names IH]; intros r0 s x s'; cbn [get_params_loop].
  { unfold ret. by intros [= _ <-]. }
  unfold bind at 1, gets at 1. intros Hrun Hall. revert Hrun.
  destruct (_params_cache s !! a) as [v|] eqn:Hca; [intros H; by eapply IH|].
  fold (declared cfg).
  destruct (params_get (declared cfg) a) as [pc|] eqn:Hpc.
  { destruct (Hall _ _ Hpc) as [v Hv]. congruence. }
  destruct (kwargs !! a) as [v|]; [|intros H; by eapply IH].
  unfold bind at 1, cache_store, bind, gets, modify. cbn [fst snd].
  intros H. apply IH in H. destruct H as (H1 & H2 & H3).
  - by apply all_cached_store.
  - done.
Qed.

Lemma get_params_settled names kwargs :
  keeps (settled cfg) (get_params E cfg names kwargs).
Proof. unfold get_params. settled_tac. apply get_params_loop_settled. Qed.

Lemma process_input_item_settled item env kwargs :
  keeps (settled cfg) (process_input_item E cfg item env kwargs).
Proof.
  unfold process_input_item. destruct item; settled_tac; apply get_params_settled.
Qed.

Lemma get_job_path_settled : keeps (settled cfg) (get_job_path E cfg).
Proof. unfold get_job_path. settled_tac. Qed.

Lemma prepare_cmd_settled kwargs : keeps (settled cfg) (prepare_cmd E cfg kwargs).
Proof.
  unfold prepare_cmd. settled_tac;
    auto using process_input_item_settled, get_job_path_settled.
Qed.

(** A successful resolution of one name leaves it cached when it has a
    specification. *)
Lemma get_params_caches_declared name pc kwargs s r s' :
  params_get (declared cfg) name = Some pc ->
  get_params E cfg [name] kwargs s = (Ok r, s') ->
  is_Some (_params_cache s' !! name).
Proof.
  intros Hpc Hrun.
  destruct (_params_cache s !! name) as [v|] eqn:Hc.
  { exists v. eapply get_params_cache_mono; eauto. }
  destruct (kwargs !! "self") eqn:Hself.
  { unfold get_params, bind, bind_kwargs in Hrun. cbn in Hrun.
    rewrite Hself in Hrun. cbn in Hrun. discriminate. }
  assert (Hr : is_Some (r !! name)).
  { revert Hrun.
    rewrite (get_params_one E cfg _ (declared_given _ _ _ Hpc) _ _ _ _ Hpc Hself Hc).
    cbv zeta. destruct (_ && _); [done|]. destruct (py_eq _ _).
    - intros (p & s1 & _ & H)%bind_Ok_inv.
      apply bind_Ok_inv in H as ([] & s2 & _ & H).
      apply bind_Ok_inv in H as ([] & s3 & _ & H).
      revert H. unfold ret. intros [= <- _]. by rewrite lookup_singleton_eq.
    - intros [= <- _]. by rewrite lookup_singleton_eq. }
  destruct Hr as [v Hv]. exists v.
  revert Hrun. unfold get_params.
  intros ([] & s0 & Hb & H)%bind_Ok_inv. apply bind_kwargs_state in Hb as ->.
  destruct (get_params_loop_cached _ _ _ _ _ _ _ _ _ _ H Hv) as [?|He]; [done|].
  by rewrite lookup_empty in He.
Qed.

Lemma for_each_caches kwargs l : forall s s',
  for_each l (fun n => get_params E cfg [n] kwargs ;; ret tt) s = (Ok tt, s') ->
  forall name pc,
    name ∈ l -> params_get (declared cfg) name = Some pc ->
    is_Some (_params_cache s' !! name).
Proof.
  induction l as [|a l IH]; intros s s' Hrun name pc Hin Hpc.
  { by apply elem_of_nil in Hin. }
  cbn [for_each] in Hrun.
  apply bind_Ok_inv in Hrun as ([] & s1 & Ha & Hrest).
  apply bind_Ok_inv in Ha as (r & s1' & Ha & Hret).
  revert Hret. unfold ret. intros [= <-].
  destruct (decide (name ∈ l)) as [Hl|Hl]; [by eapply IH|].
  apply elem_of_cons in Hin as [->|?]; [|done].
  destruct (get_params_caches_declared _ _ _ _ _ _ Hpc Ha) as [v Hv].
  exists v. clear IH Hl Ha. revert s1' Hv Hrest.
  induction l as [|b l IHl]; intros s1 Hv; cbn [for_each].
  - unfold ret. by intros [= <-].
  - intros ([] & s2 & Hb & Hrest)%bind_Ok_inv.
    apply bind_Ok_inv in Hb as (r' & s2' & Hb & Hret).
    revert Hret. unfold ret. intros [= <-].
    eapply IHl; [|exact Hrest]. eapply get_params_cache_mono; eauto.
Qed.

(** The pre-resolution pass leaves every declared parameter cached. *)
Lemma preprocess_params_all_cached kwargs s s1 :
  preprocess_params E cfg kwargs s = (Ok tt, s1) -> all_cached cfg s1.
Proof.
  unfold preprocess_params.
  intros ([] & s0 & Hb & H)%bind_Ok_inv. apply bind_kwargs_state in Hb as ->.
  intros name pc Hpc. revert H. rewrite (declared_given _ _ _ Hpc).
  intros H. eapply for_each_caches; eauto using params_get_declared.
Qed.

(** X8.  Once the pre-resolution pass has returned, building the command
    line writes no file and adds nothing to the trace, whatever values it
    is given: every declared parameter is answered from the cache. *)
Theorem prepare_cmd_after_preprocess_is_quiet kwargs kwargs' s s1 x s2 :
  preprocess_params E cfg kwargs s = (Ok tt, s1) ->
  prepare_cmd E cfg kwargs' s1 = (x, s2) ->
  fs s2 = fs s1 /\ trace s2 = trace s1.
Proof.
  intros Hpre Hcmd.
  apply preprocess_params_all_cached in Hpre.
  by destruct (prepare_cmd_settled _ _ _ _ Hcmd Hpre) as (_ & ? & ?).
Qed.
End Settled.

(** ** Items with and without placeholders *)

Lemma append_empty_r (a : string) : a +:+ "" = a.
Proof. induction a as [|c a IH]; str_norm; [done|]. by rewrite IH. Qed.

Lemma finditer_text pre x :
  str_mem "$"%char pre = false -> finditer (pre +:+ x) = finditer x.
Proof.
  intros H. induction pre as [|c pre IH]; str_norm; [done|].
  cbn [str_mem] in H. apply orb_false_iff in H as [Hc Hp].
  unfold finditer. cbn [scan]. rewrite (match_at_text _ _ Hc). cbn [omap list_omap].
  by apply IH.
Qed.

Lemma scan_escape x : scan 0 ("$$" +:+ x) = inr mo_escape :: scan 0 x.
Proof. reflexivity. Qed.

Lemma match_at_name name post :
  is_identifier name = true -> ends_identifier post = true ->
  match_at ("$" +:+ name +:+ post) = Some (mo_name name).
Proof.
  intros Hn Hp. destruct (is_identifier_inv _ Hn) as (c & r & Hname & Hc & Hall & Hd).
  pose proof (span_id_app name post Hall Hp) as Hs. subst name.
  revert Hs. str_norm. intros Hs. unfold match_at. by rewrite Hs, Hd, Hc.
Qed.

Lemma scan_name name post :
  is_identifier name = true -> ends_identifier post = true ->
  scan 0 ("$" +:+ name +:+ post) = inr (mo_name name) :: scan 0 post.
Proof.
  intros Hn Hp. pose proof (match_at_name _ _ Hn Hp) as Hm.
  revert Hm. str_norm. intros Hm. rewrite (scan_match _ _ _ Hm).
  unfold mo_name. cbn [mo_group]. str_norm.
  replace (String.length (String "$" name) - 1)%nat with (String.length name)
    by (cbn [String.length]; lia).
  by rewrite scan_skip.
Qed.

Lemma opt_or_name name :
  is_identifier name = true ->
  opt_or (mo_named (mo_name name)) (mo_braced (mo_name name)) = Some name.
Proof. destruct name; [done|]. reflexivity. Qed.

Section Items.
Context (E : Env) (cfg : cmd_config).

(** An item [pre $name post] with no other dollar sign. *)
Lemma one_name_identifiers pre name post :
  str_mem "$"%char pre = false -> str_mem "$"%char post = false ->
  is_identifier name = true -> ends_identifier post = true ->
  get_identifiers (pre +:+ "$" +:+ name +:+ post) = Ok [name].
Proof.
  intros Hpre Hpost Hn He. unfold get_identifiers.
  rewrite (finditer_text _ _ Hpre). unfold finditer.
  rewrite (scan_name _ _ Hn He). cbn [omap list_omap].
  fold (finditer post).
  rewrite <- (append_empty_r post), (finditer_text _ _ Hpost).
  cbn [finditer scan omap list_omap get_identifiers_loop].
  rewrite (opt_or_name _ Hn). reflexivity.
Qed.

Lemma one_name_substitute mapping pre name post :
  str_mem "$"%char pre = false -> str_mem "$"%char post = false ->
  is_identifier name = true -> ends_identifier post = true ->
  safe_substitute (pre +:+ "$" +:+ name +:+ post) mapping
  = Ok (pre +:+ match mapping !! name with
                | Some v => py_str v
                | None => "$" +:+ name
                end +:+ post).
Proof.
  intros Hpre Hpost Hn He. unfold safe_substitute.
  rewrite (sub_loop_text _ _ _ Hpre), (sub_loop_named _ _ _ Hn He).
  rewrite <- (append_empty_r post) at 1. rewrite (sub_loop_text _ _ _ Hpost).
  cbn [scan sub_loop]. by rewrite append_empty_r.
Qed.

Lemma get_params_undeclared_one name kwargs s :
  kwargs !! "self" = None ->
  params_get (declared cfg) name = None ->
  _params_cache s !! name = None ->
  get_params E cfg [name] kwargs s
  = match kwargs !! name with
    | Some v => (Ok {[name := v]}, set_cache (<[name := v]> (_params_cache s)) s)
    | None => (Ok ∅, s)
    end.
Proof.
  intros Hself Hp Hc. unfold get_params, bind.
  rewrite bind_kwargs_ok by (repeat constructor; done).
  cbn [get_params_loop]. unfold bind, gets. rewrite Hc. fold (declared cfg).
  rewrite Hp. destruct (kwargs !! name); [|done].
  unfold cache_store, bind, gets, modify, ret. cbn. by rewrite insert_empty.
Qed.

Lemma process_input_item_eq template env kwargs s ids :
  Forall (fun p => kwargs !! p = None) ["self"; "item"; "cmd_env"] ->
  get_identifiers template = Ok ids ->
  process_input_item E cfg (VStr template) env kwargs s
  = match ids with
    | [] => (Ok template, s)
    | _ =>
        match get_params E cfg ids kwargs s with
        | (Ok pv, s') => (safe_substitute template (pv ∪ env), s')
        | (Raise e, s') => (Raise e, s')
        end
    end.
Proof.
  intros Hkw Hids. unfold process_input_item. unfold bind at 1.
  rewrite (bind_kwargs_ok _ _ _ Hkw). cbn [py_str].
  unfold bind at 1. rewrite Hids. unfold lift at 1.
  destruct ids as [|i ids]; [reflexivity|].
  unfold bind at 1. by destruct (get_params E cfg (i :: ids) kwargs s) as [[pv|e] s'].
Qed.

(** X9.  The escape [$$] is collapsed to [$] only in an item that also
    has a placeholder: an item without placeholders is returned as it is
    written, dollar signs doubled, and the state is left alone. *)
Theorem dollar_escape_kept_without_placeholder pre post name w env kwargs s :
  Forall (fun p => kwargs !! p = None) ["self"; "item"; "cmd_env"] ->
  str_mem "$"%char pre = false -> str_mem "$"%char post = false ->
  is_identifier name = true ->
  params_get (declared cfg) name = None ->
  _params_cache s !! name = None ->
  kwargs !! name = None ->
  env !! name = Some w ->
  process_input_item E cfg (VStr (pre +:+ "$$" +:+ post)) env kwargs s
  = (Ok (pre +:+ "$$" +:+ post), s)
  /\ process_input_item E cfg (VStr (pre +:+ "$$" +:+ post +:+ "$" +:+ name))
       env kwargs s
     = (Ok (pre +:+ "$" +:+ post +:+ py_str w), s).
Proof.
  intros Hkw Hpre Hpost Hn Hp Hc Hk Hw. split.
  - rewrite (process_input_item_eq _ _ _ _ [] Hkw); [done|].
    unfold get_identifiers.
    rewrite (finditer_text _ _ Hpre). unfold finditer. rewrite scan_escape.
    cbn [omap list_omap]. fold (finditer post).
    rewrite <- (append_empty_r post), (finditer_text _ _ Hpost). reflexivity.
  - assert (Hself : kwargs !! "self" = None) by (by inversion Hkw).
    assert (Hids : get_identifiers (pre +:+ "$$" +:+ post +:+ "$" +:+ name)
                   = Ok [name]).
    { unfold get_identifiers. rewrite (finditer_text _ _ Hpre).
      unfold finditer. rewrite scan_escape. cbn [omap list_omap].
      fold (finditer (post +:+ "$" +:+ name)). rewrite (finditer_text _ _ Hpost).
      unfold finditer.
      replace ("$" +:+ name) with ("$" +:+ name +:+ "")
        by (by rewrite append_empty_r).
      rewrite (scan_name name "" Hn eq_refl).
      cbn [scan omap list_omap get_identifiers_loop].
      by rewrite (opt_or_name _ Hn). }
    rewrite (process_input_item_eq _ _ _ _ _ Hkw Hids).
    rewrite (get_params_undeclared_one _ _ _ Hself Hp Hc), Hk.
    unfold safe_substitute. rewrite (sub_loop_text _ _ _ Hpre), scan_escape.
    cbn [sub_loop convert mo_escape mo_named mo_braced mo_escaped opt_or].
    rewrite (sub_loop_text _ _ _ Hpost).
    replace ("$" +:+ name) with ("$" +:+ name +:+ "")
      by (by rewrite append_empty_r).
    rewrite (sub_loop_named _ name "" Hn eq_refl). cbn [scan sub_loop].
    rewrite lookup_union, lookup_empty, Hw. cbn. str_norm.
    by rewrite !append_empty_r.
Qed.

(** X10.  A value the caller passes under a name wins over the run's own
    environment: in an item [$name] it replaces what [cmd_env] holds
    for that name ([cwd], [cwd_abs]). *)
Theorem caller_value_shadows_cmd_env pre name post v env kwargs s :
  Forall (fun p => kwargs !! p = None) ["self"; "item"; "cmd_env"] ->
  str_mem "$"%char pre = false -> str_mem "$"%char post = false ->
  is_identifier name = true -> ends_identifier post = true ->
  params_get (declared cfg) name = None ->
  _params_cache s !! name = None ->
  kwargs !! name = Some v ->
  process_input_item E cfg (VStr (pre +:+ "$" +:+ name +:+ post)) env kwargs s
  = (Ok (pre +:+ py_str v +:+ post),
     set_cache (<[name := v]> (_params_cache s)) s).
Proof.
  intros Hkw Hpre Hpost Hn He Hp Hc Hk.
  assert (Hself : kwargs !! "self" = None) by (by inversion Hkw).
  rewrite (process_input_item_eq _ _ _ _ _ Hkw
             (one_name_identifiers _ _ _ Hpre Hpost Hn He)).
  rewrite (get_params_undeclared_one _ _ _ Hself Hp Hc), Hk.
  rewrite (one_name_substitute _ _ _ _ Hpre Hpost Hn He).
  by rewrite lookup_union, lookup_singleton_eq, union_Some_l.
Qed.
End Items.

(** ** The identifiers of a template *)

Lemma match_at_identifier s mo id :
  match_at s = Some mo -> mo_ident mo = Some id -> is_identifier id = true.
Proof.
  unfold match_at, mo_ident. destruct s as [|d r]; [done|].
  destruct (Ascii.eqb d "$"%char); [|done].
  destruct r as [|c r']. { by intros [= <-]. }
  destruct (Ascii.eqb c "$"%char). { by intros [= <-]. }
  destruct (is_id_start c) eqn:Hc.
  { intros [= <-]. cbn [mo_named mo_braced].
    change (opt_or (Some (span_id (String c r')).1) None = Some id
            -> is_identifier id = true).
    pose proof (span_id_identifier c r' Hc) as Hi. revert Hi.
    generalize (span_id (String c r')).1. intros x Hx.
    destruct x; [done|]. cbn [opt_or String.eqb]. by intros [= <-]. }
  destruct (_ && _) eqn:Hb; [|by intros [= <-]].
  intros [= <-]. cbn [mo_named mo_braced opt_or]. intros [= <-].
  destruct r' as [|c' r'']; [by rewrite andb_false_r in Hb|].
  apply andb_true_iff in Hb as [_ Hc']. by apply span_id_identifier.
Qed.

Lemma scan_identifier s : forall skip mo id,
  inr mo ∈ scan skip s -> mo_ident mo = Some id -> is_identifier id = true.
Proof.
  induction s as [|c r IH]; intros skip mo id; cbn [scan].
  { by intros ?%elem_of_nil. }
  destruct skip; [|apply IH].
  destruct (match_at (String c r)) as [mo'|] eqn:Hm.
  - intros [[= <-]|Hin]%elem_of_cons; [by eapply match_at_identifier|].
    by eapply IH.
  - intros [[=]|Hin]%elem_of_cons. by eapply IH.
Qed.

Lemma elem_of_finditer s mo : mo ∈ finditer s <-> inr mo ∈ scan 0 s.
Proof.
  unfold finditer. rewrite list_elem_of_omap. split.
  - intros ([c|mo'] & Hin & Heq); [done|]. by injection Heq as ->.
  - intros Hin. by exists (inr mo).
Qed.

Lemma get_identifiers_loop_spec mos : forall ids0 ids,
  get_identifiers_loop mos ids0 = Ok ids ->
  (NoDup ids0 -> NoDup ids)
  /\ forall id, id ∈ ids <-> id ∈ ids0 \/ exists mo, mo ∈ mos /\ mo_ident mo = Some id.
Proof.
  induction mos as [|mo mos IH]; intros ids0 ids; cbn [get_identifiers_loop].
  { intros [= <-]. split; [done|]. intros id. split; [auto|].
    intros [?|(mo & []%elem_of_nil & _)]. done. }
  fold (mo_ident mo). destruct (mo_ident mo) as [named|] eqn:Hid.
  - destruct (bool_decide (named ∈ ids0)) eqn:Hin.
    + apply bool_decide_eq_true in Hin. intros [Hnd Hiff]%IH. split; [done|].
      intros id. rewrite Hiff. split.
      * intros [?|(mo' & Hmo & Hi)]; [auto|]. right. exists mo'.
        split; [by apply list_elem_of_further|done].
      * intros [?|(mo' & [->|Hmo]%elem_of_cons & Hi)]; [auto| |eauto].
        left. congruence.
    + apply bool_decide_eq_false in Hin. intros [Hnd Hiff]%IH. split.
      * intros H0. apply Hnd. apply NoDup_app. split; [done|].
        split; [|apply NoDup_singleton].
        intros x Hx ->%list_elem_of_singleton. done.
      * intros id. rewrite Hiff, elem_of_app, list_elem_of_singleton. split.
        -- intros [[?| ->]|(mo' & Hmo & Hi)]; [auto| |].
           ++ right. exists mo. split; [apply list_elem_of_here|done].
           ++ right. exists mo'. split; [by apply list_elem_of_further|done].
        -- intros [?|(mo' & [->|Hmo]%elem_of_cons & Hi)]; [auto| |eauto].
           left. right. congruence.
  - assert (Hskip : forall ids',
      get_identifiers_loop mos ids0 = Ok ids' ->
      (NoDup ids0 -> NoDup ids')
      /\ forall id, id ∈ ids' <->
           id ∈ ids0 \/ exists mo', mo' ∈ mo :: mos /\ mo_ident mo' = Some id).
    { intros ids' [Hnd Hiff]%IH. split; [done|]. intros id. rewrite Hiff. split.
      - intros [?|(mo' & Hmo & Hi)]; [auto|]. right. exists mo'.
        split; [by apply list_elem_of_further|done].
      - intros [?|(mo' & [->|Hmo]%elem_of_cons & Hi)]; [auto|congruence|eauto]. }
    destruct (mo_invalid mo), (mo_escaped mo); try apply Hskip. done.
Qed.

(** X11.  [get_identifiers] returns each identifier of the template once,
    and nothing else: the list has no duplicates, its members are the
    names of the [$name] and [${name}] matches, and each is a well-formed
    identifier. *)
Theorem get_identifiers_lists_each_name_once template ids :
  get_identifiers template = Ok ids ->
  NoDup ids
  /\ Forall (fun id => is_identifier id = true) ids
  /\ forall id, id ∈ ids <-> exists mo, mo ∈ finditer template /\ mo_ident mo = Some id.
Proof.
  intros [Hnd Hiff]%get_identifiers_loop_spec.
  assert (Hiff' : forall id,
    id ∈ ids <-> exists mo, mo ∈ finditer template /\ mo_ident mo = Some id).
  { intros id. rewrite Hiff. split; [|auto]. by intros [?%elem_of_nil|?]. }
  split; [apply Hnd, NoDup_nil_2|]. split; [|done].
  apply Forall_forall. intros id (mo & Hmo%elem_of_finditer & Hid)%Hiff'.
  by eapply scan_identifier.
Qed.

Lemma sub_loop_agree (m1 m2 : gmap string value) segs :
  (forall mo id, inr mo ∈ segs -> mo_ident mo = Some id -> m1 !! id = m2 !! id) ->
  sub_loop m1 segs = sub_loop m2 segs.
Proof.
  induction segs as [|[c|mo] segs IH]; intros H; cbn [sub_loop]; [done| |].
  - rewrite IH; [done|]. intros mo id Hin. apply H. by apply list_elem_of_further.
  - rewrite IH by (intros mo' id Hin; apply H; by apply list_elem_of_further).
    replace (convert m1 mo) with (convert m2 mo); [done|].
    unfold convert. fold (mo_ident mo).
    destruct (mo_ident mo) as [id|] eqn:Hid; [|done].
    by rewrite (H mo id (list_elem_of_here _ _) Hid).
Qed.

(** X12.  The result of a substitution depends on the mapping only at the
    identifiers of the template: two mappings that agree on what
    [get_identifiers] returns give the same text. *)
Theorem safe_substitute_reads_identifiers_only template ids
    (m1 m2 : gmap string value) :
  get_identifiers template = Ok ids ->
  Forall (fun id => m1 !! id = m2 !! id) ids ->
  safe_substitute template m1 = safe_substitute template m2.
Proof.
  intros [_ Hiff]%get_identifiers_loop_spec Hagree. apply sub_loop_agree.
  intros mo id Hin Hid. rewrite Forall_forall in Hagree.
  apply Hagree, Hiff. right. exists mo. by rewrite elem_of_finditer.
Qed.

(** ** Base64 *)

Lemma b64_value_char n : (n < 64)%N -> b64_value (b64_char n) = Some n.
Proof.
  intros H. destruct n as [|p]; [reflexivity|].
  do 6 (try destruct p as [p|p|]); try reflexivity; lia.
Qed.

Lemma b64_char_not_pad n : (n < 64)%N -> Ascii.eqb (b64_char n) "="%char = false.
Proof.
  intros H. destruct (Ascii.eqb_spec (b64_char n) "="%char) as [Heq|]; [|done].
  pose proof (b64_value_char n H) as Hv. rewrite Heq in Hv. discriminate.
Qed.

Lemma byte_bound a : (N_of_ascii a < 256)%N.
Proof. apply N_ascii_bounded. Qed.

Ltac b64_arith :=
  zify; Z.to_euclidean_division_equations; lia.

Lemma b64decode_encode_aux n : forall data,
  (String.length data <= n)%nat -> b64decode (b64encode data) = Some data.
Proof.
  induction n as [|n IH]; intros data Hlen.
  { destruct data; [done|]. cbn in Hlen. lia. }
  destruct data as [|a [|b [|c r]]]; [done| | |].
  - cbn [b64encode]. pose proof (byte_bound a) as Ha.
    set (x := N_of_ascii a) in *.
    cbn [b64decode].
    rewrite !b64_value_char by b64_arith. cbn.
    replace (x / 4 * 4 + x mod 4 * 16 / 16)%N with x by b64_arith.
    unfold x. by rewrite ascii_N_embedding.
  - cbn [b64encode]. pose proof (byte_bound a) as Ha. pose proof (byte_bound b) as Hb.
    set (x := N_of_ascii a) in *. set (y := N_of_ascii b) in *.
    cbn [b64decode].
    rewrite !b64_value_char by b64_arith.
    rewrite b64_char_not_pad by b64_arith. cbn.
    replace (x / 4 * 4 + (x mod 4 * 16 + y / 16) / 16)%N with x by b64_arith.
    replace ((x mod 4 * 16 + y / 16) mod 16 * 16 + y mod 16 * 4 / 4)%N with y
      by b64_arith.
    unfold x, y. by rewrite !ascii_N_embedding.
  - cbn [b64encode]. pose proof (byte_bound a) as Ha. pose proof (byte_bound b) as Hb.
    pose proof (byte_bound c) as Hc.
    set (x := N_of_ascii a) in *. set (y := N_of_ascii b) in *.
    set (z := N_of_ascii c) in *.
    cbn [b64decode].
    rewrite !b64_value_char by b64_arith.
    rewrite !b64_char_not_pad by b64_arith.
    rewrite IH by (cbn in Hlen; lia).
    replace (x / 4 * 4 + (x mod 4 * 16 + y / 16) / 16)%N with x by b64_arith.
    replace ((x mod 4 * 16 + y / 16) mod 16 * 16 + (y mod 16 * 4 + z / 64) / 4)%N
      with y by b64_arith.
    replace ((y mod 16 * 4 + z / 64) mod 4 * 64 + z mod 64)%N with z by b64_arith.
    unfold x, y, z. by rewrite !ascii_N_embedding.
Qed.

Lemma b64encode_length_aux n : forall data,
  (String.length data <= n)%nat ->
  String.length (b64encode data) = (4 * ((String.length data + 2) / 3))%nat.
Proof.
  induction n as [|n IH]; intros data Hlen.
  { destruct data; [done|]. cbn in Hlen. lia. }
  destruct data as [|a [|b [|c r]]]; [done|done|done|].
  cbn [b64encode String.length]. rewrite IH by (cbn in Hlen; lia).
  replace (S (S (S (String.length r))) + 2)%nat
    with (1 * 3 + (String.length r + 2))%nat by lia.
  rewrite Nat.div_add_l by lia. lia.
Qed.

(** X13.  [to_base64] loses nothing: [base64.b64decode] gives the bytes
    back, so different contents have different encodings; the encoding of
    [n] bytes has [4 * ceil(n / 3)] characters. *)
Theorem to_base64_is_lossless data :
  b64decode (to_base64 data) = Some data
  /\ (forall data', to_base64 data' = to_base64 data -> data' = data)
  /\ String.length (to_base64 data) = (4 * ((String.length data + 2) / 3))%nat.
Proof.
  unfold to_base64. split; [by eapply b64decode_encode_aux|]. split.
  - intros data' Heq.
    pose proof (b64decode_encode_aux _ data' (le_n _)) as H1.
    pose proof (b64decode_encode_aux _ data (le_n _)) as H2. congruence.
  - by eapply b64encode_length_aux.
Qed.
(** ** What was written is what is read *)

Section ReadBack.
Context (E : Env) (cfg : cmd_config).

Lemma is_dir_at_insert_file (t : tree) k data x :
  fs_lookup t k <> Some Dir ->
  is_dir_at (<[k := File data]> t) x = is_dir_at t x.
Proof.
  intros Hk. unfold is_dir_at, fs_lookup in *. destruct x as [|n x]; [done|].
  destruct (decide (k = n :: x)) as [->|Hne].
  - rewrite lookup_insert_eq. by destruct (t !! (n :: x)) as [[|?]|].
  - by rewrite lookup_insert_ne.
Qed.

Lemma walk_ext (t t' : tree) l : forall cur,
  (forall x, is_dir_at t' x = is_dir_at t x) ->
  walk t' cur l = walk t cur l.
Proof.
  induction l as [|c l IH]; intros cur H; cbn; [done|]. rewrite H.
  destruct (is_dir_at t cur); [|done].
  destruct (_ || _); [by apply IH|]. destruct (String.eqb c ".."); by apply IH.
Qed.

(** A file that has just been written reads back as written. *)
Lemma open_rb_written (t : tree) cwd path k data :
  open_wb t cwd path = Some k ->
  open_rb (<[k := File data]> t) cwd path = Some data
  /\ resolve (<[k := File data]> t) cwd path = Some k.
Proof.
  unfold open_wb, open_rb. destruct (resolve t cwd path) as [k'|] eqn:Hr; [|done].
  intros Hk. assert (k' = k /\ fs_lookup t k <> Some Dir) as [-> Hnd].
  { destruct (fs_lookup t k') as [[|c]|] eqn:Hl; [done| |];
      injection Hk as <-; by rewrite Hl. }
  assert (Hr' : resolve (<[k := File data]> t) cwd path = Some k).
  { unfold resolve in *. destruct (String.eqb path ""); [done|].
    rewrite (walk_ext t); [done|]. intros x. by apply is_dir_at_insert_file. }
  rewrite Hr'. split; [|done]. unfold fs_lookup.
  destruct k; [done|]. by rewrite lookup_insert_eq.
Qed.

Lemma return_entry_file d n fname out err r s jp data :
  rd_name d = Some n ->
  rd_type d = Some (VStr "file") ->
  rd_filename d = Some (VStr fname) ->
  job_path_of E cfg (job_id s) = Ok jp ->
  open_rb (fs s) (proc_cwd s) (jp +:+ "/" +:+ fname) = Some data ->
  return_entry E cfg out err (RetDict d) r s
  = (Ok (dict_set n (RPayload (mk_payload d data)) r),
     add_event (EvOpen false (jp +:+ "/" +:+ fname)
                  (resolve (fs s) (proc_cwd s) (jp +:+ "/" +:+ fname))) s).
Proof.
  intros Hn Ht Hf Hjp Hrb.
  unfold return_entry, item_key. rewrite Hn, Ht, Hf.
  unfold get_job_file_path, get_job_path, read_file.
  unfold bind, gets, lift, ret, modify, id.
  cbn -[job_path_of open_rb resolve dict_set mk_payload].
  rewrite Hjp. cbn -[job_path_of open_rb resolve dict_set mk_payload].
  rewrite Hrb. reflexivity.
Qed.

(** X14.  An uploaded file comes back as it went in: when a file
    parameter has been written, a [file] entry of the return list that
    names the same file yields a payload whose body decodes to the bytes
    that were passed. *)
Theorem uploaded_file_is_read_back name pc kwargs s jp k data fname d n :
  params_get (declared cfg) name = Some pc ->
  kwargs !! "self" = None ->
  _params_cache s !! name = None ->
  py_truthy (pc_required pc) && bool_decide (kwargs_get kwargs name = VNone)
  = false ->
  py_eq (pc_type pc) (VStr "file") = true ->
  py_or (pc_filename pc) (VStr name) = VStr fname ->
  to_write (kwargs_get kwargs name) = VBytes data ->
  job_path_of E cfg (job_id s) = Ok jp ->
  open_wb (fs s) (proc_cwd s) (jp +:+ "/" +:+ fname) = Some k ->
  rd_name d = Some n ->
  rd_type d = Some (VStr "file") ->
  rd_filename d = Some (VStr fname) ->
  exists s1 p,
    get_params E cfg [name] kwargs s = (Ok {[name := VStr fname]}, s1)
    /\ (forall out err r,
          (return_entry E cfg out err (RetDict d) r s1).1
          = Ok (dict_set n (RPayload p) r))
    /\ b64decode (body p) = Some data.
Proof.
  intros Hpc Hself Hc Hreq Hty Hfn Hv Hjp Hopen Hn Ht Hf.
  rewrite (get_params_file E cfg _ (declared_given _ _ _ Hpc) _ _ _ _ _ _ _ _
             Hpc Hself Hc Hreq Hty Hfn Hv Hjp Hopen).
  destruct (open_rb_written _ _ _ _ data Hopen) as [Hrb Hres].
  eexists _, (mk_payload d data). split; [done|]. split.
  - intros out err r. by erewrite return_entry_file.
  - unfold mk_payload, to_base64. cbn [body]. by eapply b64decode_encode_aux.
Qed.
End ReadBack.

(** ** Structured and bare output entries *)

Section Outputs.
Context (E : Env) (cfg : cmd_config).

(** X15.  A structured [stdout] or [stderr] entry never fails and never
    decodes: its body is the base64 form of the raw bytes, whatever they
    are, and the state is left alone; the bare entry [stdout] raises
    [UnicodeDecodeError] when the bytes are not UTF-8. *)
Theorem structured_output_keeps_raw_bytes d n ty out err r s :
  rd_name d = Some n ->
  rd_type d = Some (VStr ty) ->
  ty = "stdout" \/ ty = "stderr" ->
  let raw := if String.eqb ty "stdout" then out else err in
  return_entry E cfg out err (RetDict d) r s
  = (Ok (dict_set n (RPayload (mk_payload d raw)) r), s)
  /\ b64decode (body (mk_payload d raw)) = Some raw
  /\ (decode_utf8 out = None ->
      return_entry E cfg out err (RetVal (VStr "stdout")) r s
      = (Raise UnicodeDecodeError, s)).
Proof.
  intros Hn Ht Hty raw. split; [|split].
  - unfold return_entry, item_key. rewrite Hn, Ht.
    destruct Hty as [-> | ->]; reflexivity.
  - unfold mk_payload, to_base64. cbn [body]. by eapply b64decode_encode_aux.
  - intros Hd. unfold return_entry. cbn [py_eq]. unfold bind, decode.
    rewrite Hd. reflexivity.
Qed.
End Outputs.

(** ** How a run ends when its block raises *)

Section RunOutcome.
Context (E : Env) (cfg : cmd_config).

(** A run raises what the block inside [job_context] raises. *)
Lemma run_raises_with_body kwargs s r s' :
  (forall s0 x s1, run_body E cfg kwargs s0 = (x, s1) -> exists e, x = Raise e) ->
  run E cfg kwargs s = (r, s') -> exists e, r = Raise e.
Proof.
  intros Hbody Hrun. unfold run in Hrun. unfold bind at 1 in Hrun.
  rewrite job_context_eq in Hrun. unfold try_finally in Hrun.
  destruct ((ensure_job_path E cfg;; run_body E cfg kwargs) (entered E s))
    as [r1 s1] eqn:Hb.
  assert (exists e, r1 = Raise e) as [e ->].
  { revert Hb. unfold bind at 1.
    destruct (ensure_job_path E cfg (entered E s)) as [[[]|e] s0];
      [apply Hbody|intros [= <- _]; eauto]. }
  destruct ((clean_job_path E cfg;; modify (set_job_id None)) s1)
    as [[[]|e'] s2]; injection Hrun as <- <-; eauto.
Qed.

(** A run whose block starts no process starts none. *)
Lemma run_quiet_with_body kwargs s r s' :
  (forall s0 x s1, run_body E cfg kwargs s0 = (x, s1) -> spawn_free s0 s1) ->
  run E cfg kwargs s = (r, s') -> spawn_free s s'.
Proof.
  intros Hbody Hrun. unfold run in Hrun. unfold bind at 1 in Hrun.
  rewrite job_context_eq in Hrun. unfold try_finally in Hrun.
  destruct ((ensure_job_path E cfg;; run_body E cfg kwargs) (entered E s))
    as [r1 s1] eqn:Hb.
  assert (Hs1 : spawn_free (entered E s) s1).
  { revert Hb. unfold bind at 1.
    destruct (ensure_job_path E cfg (entered E s)) as [[[]|e] s0] eqn:He.
    - intros Hs%Hbody. eapply spawn_free_trans; [|exact Hs].
      by eapply ensure_job_path_quiet.
    - intros [= _ <-]. by eapply ensure_job_path_quiet. }
  destruct ((clean_job_path E cfg;; modify (set_job_id None)) s1)
    as [[[]|e'] s2] eqn:Hc; apply cleanup_quiet in Hc;
    destruct r1; injection Hrun as <- <-;
    eauto using spawn_free_trans, spawn_free_entered.
Qed.

End RunOutcome.

(** ** Reserved names *)

Lemma adds_spawn_free kind s s' :
  (forall e, kind e = true -> is_spawn e = false) ->
  adds kind s s' -> spawn_free s s'.
Proof.
  intros H (evs & Ht & Hf). exists evs. split; [done|].
  eapply Forall_impl; [exact Hf|]. exact H.
Qed.

Lemma before_spawn_no_spawn e : before_spawn e = true -> is_spawn e = false.
Proof. by destruct e as [| [] | | |]. Qed.

Lemma bind_kwargs_clash params kwargs s p :
  p ∈ params -> is_Some (kwargs !! p) ->
  exists e, bind_kwargs params kwargs s = (Raise e, s).
Proof.
  intros Hin Hk. unfold bind_kwargs.
  destruct (List.find _ params) as [q|] eqn:Hf; [by eexists|].
  exfalso. eapply List.find_none in Hf; [|by apply list_elem_of_In].
  by rewrite bool_decide_eq_true_2 in Hf.
Qed.

Section Reserved.
Context (E : Env) (cfg : cmd_config).

Lemma map_m_first_raises {A B} (f : A -> M B) a l s e s' :
  f a s = (Raise e, s') -> map_m f (a :: l) s = (Raise e, s').
Proof. intros H. cbn [map_m]. unfold bind. by rewrite H. Qed.

Lemma prepare_cmd_reserved kwargs s x s' :
  is_Some (kwargs !! "item") \/ is_Some (kwargs !! "cmd_env") ->
  cfg_command cfg <> Some [] ->
  prepare_cmd E cfg kwargs s = (x, s') -> exists e, x = Raise e.
Proof.
  intros Hk Hcmd. unfold prepare_cmd. unfold bind at 1.
  destruct (bind_kwargs _ kwargs s) as [[[]|e] s0] eqn:Hb;
    [|intros [= <- _]; eauto].
  apply bind_kwargs_state in Hb as ->. unfold bind at 1.
  destruct (get_job_path E cfg s) as [[jp|e] s0] eqn:Hjp;
    [|intros [= <- _]; eauto].
  apply get_job_path_state in Hjp as ->. unfold bind at 1, gets at 1.
  cbv zeta. destruct (cfg_command cfg) as [[|item command]|];
    [done| |intros [= <- _]; eauto].
  unfold bind at 1.
  assert (exists p, p ∈ ["self"; "item"; "cmd_env"] /\ is_Some (kwargs !! p))
    as (p & Hp & Hs).
  { destruct Hk; [exists "item"|exists "cmd_env"]; (split; [set_solver|done]). }
  destruct (bind_kwargs_clash _ kwargs s p Hp Hs) as [e He].
  erewrite map_m_first_raises.
  2:{ unfold process_input_item. unfold bind at 1. rewrite He. reflexivity. }
  intros [= <- _]. eauto.
Qed.

Lemma execute_reserved cmd kwargs s :
  is_Some (kwargs !! "cmd") ->
  exists e, execute E cfg cmd kwargs s = (Raise e, s).
Proof.
  intros Hk. unfold execute. unfold bind at 1.
  destruct (bind_kwargs_clash ["self"; "cmd"] kwargs s "cmd") as [e ->];
    [set_solver|done|]. eauto.
Qed.

Lemma run_body_reserved kwargs s x s' :
  is_Some (kwargs !! "self") \/ is_Some (kwargs !! "cmd")
  \/ (is_Some (kwargs !! "item") \/ is_Some (kwargs !! "cmd_env"))
     /\ cfg_command cfg <> Some [] ->
  run_body E cfg kwargs s = (x, s') ->
  (exists e, x = Raise e) /\ spawn_free s s'.
Proof.
  intros Hk. unfold run_body. unfold bind at 1.
  destruct (preprocess_params E cfg kwargs s) as [[[]|e] s1] eqn:Hp.
  2:{ intros [= <- <-]. split; [eauto|]. by eapply preprocess_params_quiet. }
  assert (Hs1 : spawn_free s s1) by (by eapply preprocess_params_quiet).
  destruct Hk as [Hself|Hk].
  { exfalso. revert Hp. unfold preprocess_params. unfold bind at 1.
    destruct (bind_kwargs_clash ["self"] kwargs s "self") as [e ->];
      [set_solver|done|]. done. }
  unfold bind at 1.
  destruct (prepare_cmd E cfg kwargs s1) as [[cmd|e] s2] eqn:Hc.
  2:{ intros [= <- <-]. split; [eauto|]. eapply spawn_free_trans; [done|].
      eapply adds_spawn_free; [apply before_spawn_no_spawn|].
      by eapply prepare_cmd_adds. }
  assert (Hs2 : spawn_free s1 s2).
  { eapply adds_spawn_free; [apply before_spawn_no_spawn|].
    by eapply prepare_cmd_adds. }
  destruct Hk as [Hcmd|[Hitem Hne]].
  2:{ destruct (prepare_cmd_reserved _ _ _ _ Hitem Hne Hc) as [e He]. done. }
  unfold bind at 1, gets at 1. unfold bind at 1.
  destruct (json_log_info E _ s2) as [[[]|e] s3] eqn:Hl.
  - assert (Hs3 : spawn_free s2 s3).
    { eapply adds_spawn_free; [apply before_spawn_no_spawn|].
      eapply (json_log_info_adds E before_spawn); [|exact Hl].
      intros e He. unfold before_spawn. rewrite He. apply orb_true_r. }
    destruct (execute_reserved cmd kwargs s3 Hcmd) as [e ->].
    intros [= <- <-]. split; [eauto|]. eauto using spawn_free_trans.
  - intros [= <- <-]. split; [eauto|].
    eapply spawn_free_trans; [by eapply spawn_free_trans|].
    eapply adds_spawn_free; [apply before_spawn_no_spawn|].
    eapply (json_log_info_adds E before_spawn); [|exact Hl].
    intros e0 He. unfold before_spawn. rewrite He. apply orb_true_r.
Qed.

(** X16.  A value passed under one of the names the methods of the
    session use for their own arguments stops the run: with [self] or
    [cmd], or with [item] or [cmd_env] when the command has an item, the
    run raises and no process is started. *)
Theorem reserved_name_stops_run kwargs s r s' :
  is_Some (kwargs !! "self") \/ is_Some (kwargs !! "cmd")
  \/ (is_Some (kwargs !! "item") \/ is_Some (kwargs !! "cmd_env"))
     /\ cfg_command cfg <> Some [] ->
  run E cfg kwargs s = (r, s') ->
  (exists e, r = Raise e) /\ spawn_free s s'.
Proof.
  intros Hk Hrun. split.
  - eapply run_raises_with_body; [|exact Hrun].
    intros s0 x s1 H. by destruct (run_body_reserved _ _ _ _ Hk H).
  - eapply run_quiet_with_body; [|exact Hrun].
    intros s0 x s1 H. by destruct (run_body_reserved _ _ _ _ Hk H).
Qed.
End Reserved.


(** ** Commands that cannot run *)

Section Malformed.
Context (E : Env) (cfg : cmd_config).

Lemma prepare_cmd_no_command kwargs s x s' :
  cfg_command cfg = None ->
  prepare_cmd E cfg kwargs s = (x, s') -> exists e, x = Raise e.
Proof.
  intros Hcmd. unfold prepare_cmd. unfold bind at 1.
  destruct (bind_kwargs _ kwargs s) as [[[]|e] s0]; [|intros [= <- _]; eauto].
  unfold bind at 1.
  destruct (get_job_path E cfg s0) as [[jp|e] s1]; [|intros [= <- _]; eauto].
  unfold bind at 1, gets at 1. cbv zeta. rewrite Hcmd.
  intros [= <- _]. eauto.
Qed.

Lemma preprocess_params_null kwargs s x s' :
  cfg_params cfg = Null ->
  preprocess_params E cfg kwargs s = (x, s') -> exists e, x = Raise e.
Proof.
  intros Hp. unfold preprocess_params. rewrite Hp. unfold bind at 1.
  destruct (bind_kwargs _ kwargs s) as [[[]|e] s0]; intros [= <- _]; eauto.
Qed.

Lemma execute_null_return cmd kwargs s x s' :
  cfg_return cfg = Null ->
  execute E cfg cmd kwargs s = (x, s') -> exists e, x = Raise e.
Proof.
  intros Hr. unfold execute. rewrite Hr. unfold bind at 1.
  destruct (bind_kwargs _ kwargs s) as [[[]|e] s0]; [|intros [= <- _]; eauto].
  unfold bind at 1.
  destruct (execute_spawn E cfg cmd s0) as [[o|e] s1]; intros [= <- _]; eauto.
Qed.

Lemma run_body_malformed kwargs s x s' :
  cfg_params cfg = Null \/ cfg_command cfg = None ->
  run_body E cfg kwargs s = (x, s') ->
  (exists e, x = Raise e) /\ spawn_free s s'.
Proof.
  intros Hbad. unfold run_body. unfold bind at 1.
  destruct (preprocess_params E cfg kwargs s) as [[[]|e] s1] eqn:Hp.
  2:{ intros [= <- <-]. split; [eauto|]. by eapply preprocess_params_quiet. }
  destruct Hbad as [Hnull|Hcmd].
  { by destruct (preprocess_params_null _ _ _ _ Hnull Hp). }
  unfold bind at 1.
  destruct (prepare_cmd E cfg kwargs s1) as [[cmd|e] s2] eqn:Hc.
  { by destruct (prepare_cmd_no_command _ _ _ _ Hcmd Hc). }
  intros [= <- <-]. split; [eauto|].
  eapply spawn_free_trans; [by eapply preprocess_params_quiet|].
  eapply adds_spawn_free; [apply before_spawn_no_spawn|].
  by eapply prepare_cmd_adds.
Qed.

Lemma run_body_null_return kwargs s x s' :
  cfg_return cfg = Null ->
  run_body E cfg kwargs s = (x, s') -> exists e, x = Raise e.
Proof.
  intros Hr. unfold run_body. unfold bind at 1.
  destruct (preprocess_params E cfg kwargs s) as [[[]|e] s1];
    [|intros [= <- _]; eauto].
  unfold bind at 1.
  destruct (prepare_cmd E cfg kwargs s1) as [[cmd|e] s2];
    [|intros [= <- _]; eauto].
  unfold bind at 1, gets at 1. unfold bind at 1.
  destruct (json_log_info E _ s2) as [[[]|e] s3]; [|intros [= <- _]; eauto].
  by apply execute_null_return.
Qed.

(** X17.  A command whose [params] entry is null or that has no
    [command] entry can never be run: every run raises and starts no
    process.  With a null [return] entry every run raises as well, though
    only after the process has been dealt with. *)
Theorem malformed_command_never_returns kwargs s r s' :
  run E cfg kwargs s = (r, s') ->
  (cfg_params cfg = Null \/ cfg_command cfg = None ->
   (exists e, r = Raise e) /\ spawn_free s s')
  /\ (cfg_return cfg = Null -> exists e, r = Raise e).
Proof.
  intros Hrun. split.
  - intros Hbad. split.
    + eapply run_raises_with_body; [|exact Hrun].
      intros s0 x s1 H. by destruct (run_body_malformed _ _ _ _ Hbad H).
    + eapply run_quiet_with_body; [|exact Hrun].
      intros s0 x s1 H. by destruct (run_body_malformed _ _ _ _ Hbad H).
  - intros Hr. eapply run_raises_with_body; [|exact Hrun].
    intros s0 x s1. by apply run_body_null_return.
Qed.
End Malformed.
(** ** The web entry point *)

Section Web.
Context (E : Env) (get_cmd_config : string -> option cmd_config).

Lemma cmd_args_of_snoc json_data files file :
  cmd_args_of json_data (files ++ [file])
  = <[up_filename file := VBytes (up_file file)]> (cmd_args_of json_data files).
Proof. unfold cmd_args_of. by rewrite foldl_app. Qed.

(** X18.  The arguments of a web command: an uploaded file replaces the
    JSON field of the same name, and of two uploads with one name the
    later one counts; every other field is passed as the document has
    it. *)
Theorem upload_overrides_json_field json_data files k :
  cmd_args_of json_data files !! k
  = match last (filter (fun f => up_filename f = k) files) with
    | Some f => Some (VBytes (up_file f))
    | None => json_data !! k
    end.
Proof.
  induction files as [|file files IH] using rev_ind; [done|].
  rewrite cmd_args_of_snoc, filter_app.
  destruct (decide (up_filename file = k)) as [<-|Hne].
  - rewrite lookup_insert_eq. rewrite filter_cons_True, filter_nil by done.
    by rewrite last_snoc.
  - rewrite lookup_insert_ne by done.
    rewrite filter_cons_False, filter_nil, app_nil_r by done. exact IH.
Qed.

(** X19.  A command the registry does not know is answered with the
    flag [False], code 1 and a message that names it, and nothing
    happens; a request that has a field or a file named [self] raises
    before a job is made: no identifier is drawn, the tree and the trace
    stay as they are. *)
Theorem web_errors_leave_no_trace cmd json_data files s :
  (get_cmd_config cmd = None ->
   process_web_cmd E get_cmd_config cmd json_data files s
   = (Ok (false, WebError 1 ("Command " +:+ cmd +:+ " not found.")), s))
  /\ (forall cfg,
        get_cmd_config cmd = Some cfg ->
        is_Some (cmd_args_of json_data files !! "self") ->
        exists e s',
          process_web_cmd E get_cmd_config cmd json_data files s = (Raise e, s')
          /\ fs s' = fs s /\ trace s' = trace s /\ draws s' = draws s).
Proof.
  unfold process_web_cmd. split.
  - by intros ->.
  - intros cfg -> Hself. cbv zeta. unfold new_session, modify.
    unfold bind at 1 2. cbv beta iota. unfold bind at 1.
    match goal with
    | |- context [bind_kwargs ?p ?k ?st] =>
        destruct (bind_kwargs_clash p k st "self") as [e ->];
          [set_solver|exact Hself|]
    end.
    by eexists _, _.
Qed.
End Web.

(** ** Loading command files *)

Lemma ends_with_spec suffix s :
  ends_with suffix s = true <-> exists pre, s = pre +:+ suffix.
Proof.
  induction s as [|c r IH]; cbn [ends_with].
  - rewrite orb_false_r. split.
    + intros ->%String.eqb_eq. by exists "".
    + intros [pre H]. destruct pre; [|done]. revert H. str_norm. intros <-.
      done.
  - rewrite orb_true_iff, IH. split.
    + intros [->%String.eqb_eq|[pre ->]]; [by exists ""|].
      exists (String c pre). by str_norm.
    + intros [[|x pre] H]; revert H; str_norm.
      * intros <-. left. apply String.eqb_refl.
      * intros [= <- ->]. right. eauto.
Qed.

Lemma last_split_suffix p ext f :
  str_mem "."%char ext = false ->
  ends_with (String "."%char ext) f = true ->
  List.last (split_on "."%char (p +:+ f)) "" = ext.
Proof.
  intros Hext [pre ->]%ends_with_spec.
  rewrite <- append_assoc, split_on_app, (split_on_no_sep _ _ Hext).
  apply last_last.
Qed.

Lemma dict_get_set_is_Some {A} name key (v : A) d :
  is_Some (dict_get name d) -> is_Some (dict_get name (dict_set key v d)).
Proof.
  induction d as [|[k x] d IH]; cbn; [by intros [? ?]|].
  destruct (py_eq k key) eqn:Hk; cbn; destruct (py_eq k name); eauto.
Qed.

Lemma py_eq_sym a b : py_eq a b = py_eq b a.
Proof.
  destruct a as [|x|x|x|x], b as [|y|y|y|y]; cbn; try done.
  - by destruct x, y.
  - apply Z.eqb_sym.
  - apply String.eqb_sym.
  - apply String.eqb_sym.
Qed.

Lemma py_eq_trans a b c :
  py_eq a b = true -> py_eq b c = true -> py_eq a c = true.
Proof.
  destruct a as [|x|x|x|x], b as [|y|y|y|y], c as [|z|z|z|z]; cbn;
    try done;
    rewrite ?Z.eqb_eq, ?String.eqb_eq;
    try (destruct x); try (destruct y); try (destruct z); cbn;
    try done; try lia; congruence.
Qed.

Lemma dict_get_set_eq {A} name key (v : A) d :
  dict_get name (dict_set key v d)
  = if py_eq key name then Some v else dict_get name d.
Proof.
  induction d as [|[k x] d IH]; cbn; [done|].
  destruct (py_eq k key) eqn:Hk; cbn.
  - destruct (py_eq key name) eqn:Hn.
    + by rewrite (py_eq_trans _ _ _ Hk Hn).
    + destruct (py_eq k name) eqn:Hkn; [|done].
      rewrite py_eq_sym in Hk. by rewrite (py_eq_trans _ _ _ Hk Hkn) in Hn.
  - rewrite IH. destruct (py_eq k name) eqn:Hkn; [|done].
    destruct (py_eq key name) eqn:Hn; [|done].
    rewrite py_eq_sym in Hn. by rewrite (py_eq_trans _ _ _ Hkn Hn) in Hk.
Qed.

Lemma dict_get_foldl {A} name (docs : list (value * A)) : forall d0,
  dict_get name (foldl (fun acc d => dict_set d.1 d.2 acc) d0 docs)
  = match last (List.filter (fun d => py_eq d.1 name) docs) with
    | Some d => Some d.2
    | None => dict_get name d0
    end.
Proof.
  induction docs as [|d docs IH]; intros d0; cbn [foldl List.filter]; [done|].
  rewrite IH, dict_get_set_eq.
  destruct (py_eq d.1 name); [|done].
  rewrite last_cons. by destruct (last _).
Qed.

Section LoaderFacts.
Context {C : Type} (json_load yaml_safe_load : string -> res C)
  (name_of : C -> res value).

Lemma load_config_suffix p f s :
  has_config_suffix f = true ->
  load_config json_load yaml_safe_load (p +:+ f) None s
  = match open_rb (fs s) (proc_cwd s) (p +:+ f) with
    | Some content =>
        (match parser_of json_load yaml_safe_load f content with
         | Ok doc => Ok (Some doc)
         | Raise e => Raise e
         end,
         add_event (EvOpen false (p +:+ f)
                      (resolve (fs s) (proc_cwd s) (p +:+ f))) s)
    | None =>
        (Raise (OSError (p +:+ f)),
         add_event (EvOpen false (p +:+ f)
                      (resolve (fs s) (proc_cwd s) (p +:+ f))) s)
    end.
Proof.
  intros Hsuf. unfold load_config, parser_of.
  cbv zeta. unfold bind at 1, read_file, bind, gets, modify, id. cbn [fs proc_cwd add_event].
  destruct (open_rb (fs s) (proc_cwd s) (p +:+ f)) as [content|]; [|done].
  unfold has_config_suffix in Hsuf.
  destruct (ends_with ".json" f) eqn:Hj.
  { rewrite (last_split_suffix p "json" f eq_refl Hj). cbn [String.eqb Ascii.eqb Bool.eqb].
    unfold ret, lift. by destruct (json_load content). }
  destruct (ends_with ".yaml" f) eqn:Hy.
  { rewrite (last_split_suffix p "yaml" f eq_refl Hy). cbn.
    unfold ret, lift. by destruct (yaml_safe_load content). }
  cbn in Hsuf.
  rewrite (last_split_suffix p "yml" f eq_refl Hsuf). cbn.
  unfold ret, lift. by destruct (yaml_safe_load content).
Qed.

Lemma load_all_configs_loop_exact directory names : forall configs0 s configs s',
  load_all_configs_loop json_load yaml_safe_load name_of directory names
    configs0 s = (Ok configs, s') ->
  fs s' = fs s /\ proc_cwd s' = proc_cwd s
  /\ exists docs,
       Forall2 (fun f d =>
                  loaded_from json_load yaml_safe_load s directory f d.2
                  /\ name_of d.2 = Ok d.1)
         (List.filter has_config_suffix names) docs
       /\ configs = foldl (fun acc d => dict_set d.1 d.2 acc) configs0 docs.
Proof.
  induction names as [|f names IH]; intros configs0 s configs s';
    cbn [load_all_configs_loop List.filter].
  { unfold ret. intros [= <- <-]. split; [done|]. split; [done|].
    exists []. split; [constructor|done]. }
  destruct (has_config_suffix f) eqn:Hsuf; [|apply IH].
  replace (rstrip_slash directory +:+ "/" +:+ f)
    with ((rstrip_slash directory +:+ "/") +:+ f) by apply append_assoc.
  intros (config & s1 & Hload & Hrest)%bind_Ok_inv. revert Hload.
  rewrite (load_config_suffix _ _ _ Hsuf).
  destruct (open_rb _ _ _) as [content|] eqn:Hopen; [|done].
  destruct (parser_of _ _ f content) as [doc|] eqn:Hparse; [|done].
  intros [= <- <-].
  apply bind_Ok_inv in Hrest as (name & s2 & Hname & Hrest).
  revert Hname. unfold lift. intros [= Hname <-].
  apply IH in Hrest as (Hfs & Hcwd & docs & Hdocs & ->).
  cbn [fs proc_cwd add_event] in *.
  split; [done|]. split; [done|].
  exists ((name, doc) :: docs). split; [|done].
  constructor; [|exact Hdocs].
  split; [|done]. exists content. by rewrite <- append_assoc.
Qed.

(** X20.  When [load_all_configs] returns, every file of the directory
    whose name ends in [.json], [.yaml] or [.yml] has been read and parsed
    by the parser its suffix selects, in the order of the listing; the
    dictionary returned is the one in which these documents have been
    registered one after the other, each under the name it gives, so that
    a name is bound to the last document that gives it and an earlier
    document of that name is dropped; and the tree is as it was. *)
Theorem load_all_configs_registers_every_file directory s configs s' :
  load_all_configs json_load yaml_safe_load name_of directory s
  = (Ok configs, s') ->
  exists k docs,
    resolve (fs s) (proc_cwd s) directory = Some k
    /\ fs s' = fs s
    /\ Forall2 (fun f d =>
                  loaded_from json_load yaml_safe_load s directory f d.2
                  /\ name_of d.2 = Ok d.1)
         (List.filter has_config_suffix (entries (fs s) k false)) docs
    /\ configs = foldl (fun acc d => dict_set d.1 d.2 acc) [] docs
    /\ (forall name,
          dict_get name configs
          = snd <$> last (List.filter (fun d => py_eq d.1 name) docs)).
Proof.
  unfold load_all_configs.
  intros (names & s1 & Hlist & Hloop)%bind_Ok_inv. revert Hlist.
  unfold os_listdir, bind, gets, id.
  destruct (resolve (fs s) (proc_cwd s) directory) as [k|]; [|done].
  destruct (is_dir_at (fs s) k); [|done]. unfold ret. intros [= <- <-].
  apply load_all_configs_loop_exact in Hloop as (Hfs & _ & docs & Hdocs & ->).
  exists k, docs. split; [done|]. split; [done|]. split; [done|].
  split; [done|]. intros name. rewrite dict_get_foldl.
  by destruct (last _).
Qed.
End LoaderFacts.

(** ** Reading a request *)

Section RequestFacts.
Context {J : Type} (empty_json : J) (json_loads : string -> res J).

Lemma form_loop_spec items : forall json_data files out_json out_files,
  form_loop json_loads items json_data files = Ok (out_json, out_files) ->
  out_files = files ++ omap (part_file false) (map snd items)
  /\ match last (omap (part_file true) (map snd items)) with
     | Some file => json_loads (up_file file) = Ok out_json
     | None => out_json = json_data
     end.
Proof.
  induction items as [|[key v] items IH]; intros json_data files oj of_;
    cbn [form_loop].
  { intros [= <- <-]. by rewrite app_nil_r. }
  destruct v as [ct file|text]; [|done].
  cbn [map omap list_omap part_file snd].
  destruct (bool_decide (ct = Some "application/json")) eqn:Hct; cbn [eqb].
  - destruct (json_loads (up_file file)) as [doc|e] eqn:Hdoc; [|done].
    intros [-> Hlast]%IH. split; [done|]. rewrite last_cons.
    destruct (last _); [done|by subst].
  - intros [-> Hlast]%IH. split; [by rewrite <- app_assoc|done].
Qed.

(** X21.  A multipart request whose parts are all read comes out split
    in two: the files are the parts that are not [application/json], in
    the order of the form, and the JSON document is the one parsed from
    the last [application/json] part, the empty document when there is
    none.  The header is compared without regard to letter case, the
    type of a part exactly. *)
Theorem multipart_request_is_split req items out_json out_files :
  String.prefix "multipart/form-data"
    (lower (default "" (req_content_type req))) = true ->
  req_form req = Ok items ->
  process_request empty_json json_loads req = Ok (out_json, out_files) ->
  out_files = omap (part_file false) (map snd items)
  /\ match last (omap (part_file true) (map snd items)) with
     | Some file => json_loads (up_file file) = Ok out_json
     | None => out_json = empty_json
     end.
Proof.
  intros Hpre Hform. unfold process_request. cbv zeta.
  destruct (String.eqb_spec (lower (default "" (req_content_type req)))
              "application/json") as [Heq|_].
  { rewrite Heq in Hpre. discriminate. }
  rewrite Hpre, Hform. intros H%form_loop_spec. exact H.
Qed.
End RequestFacts.

(** ** The cleanup does not hide what the run raised *)

Section Finally.
Context (E : Env) (cfg : cmd_config).

(** X22.  What a run returns or raises is what the block inside
    [job_context] (making the scratch directory, then the four stages)
    returned or raised: the cleanup never replaces an exception by one of
    its own, and never turns one into a result. *)
Theorem run_raises_what_block_raises kwargs s r s' :
  run E cfg kwargs s = (r, s') ->
  exists r1 s1,
    (ensure_job_path E cfg ;; run_body E cfg kwargs) (entered E s) = (r1, s1)
    /\ r = run_result r1.
Proof.
  intros Hrun. unfold run in Hrun. unfold bind at 1 in Hrun.
  rewrite job_context_eq in Hrun. unfold try_finally in Hrun.
  destruct ((ensure_job_path E cfg;; run_body E cfg kwargs) (entered E s))
    as [r1 s1] eqn:Hbody.
  exists r1, s1. split; [done|].
  assert (Hsame : same_job (entered E s) s1).
  { eapply (keeps_bind same_job same_job_trans); [| |exact Hbody].
    - apply ensure_job_path_same_job.
    - intros ?. apply run_body_same_job. }
  destruct Hsame as [Hj _].
  destruct (job_path_of E cfg (job_id s1)) as [jp|e] eqn:Hjp.
  - unfold bind at 1 in Hrun. rewrite (clean_job_path_eq E cfg s1 jp Hjp) in Hrun.
    unfold modify in Hrun. destruct r1; injection Hrun as <- _; done.
  - rewrite Hj in Hjp. revert Hbody. unfold bind at 1.
    rewrite (ensure_job_path_raises E cfg (entered E s) e) by done.
    intros [= <- <-]. unfold bind at 1 in Hrun.
    rewrite (clean_job_path_raises E cfg (entered E s) e) in Hrun by done.
    by injection Hrun as <- _.
Qed.
End Finally.

(** ** A session that runs twice *)

Lemma cache_kept_refl s : cache_kept s s.
Proof. by intros n v. Qed.

Lemma cache_kept_trans s1 s2 s3 :
  cache_kept s1 s2 -> cache_kept s2 s3 -> cache_kept s1 s3.
Proof. intros H1 H2 n v Hn. by apply H2, H1. Qed.

#[export] Hint Resolve cache_kept_refl cache_kept_trans : keeps.

Ltac cache_kept_tac :=
  repeat first [ keeps_step | (intros ? ? ?; assumption) ].

Lemma adds_mono (k1 k2 : event -> bool) s s' :
  (forall e, k1 e = true -> k2 e = true) -> adds k1 s s' -> adds k2 s s'.
Proof.
  intros H (evs & Ht & Hf). exists evs. split; [done|].
  eapply Forall_impl; [exact Hf|]. exact H.
Qed.

Lemma after_spawn_not_write e : after_spawn e = true -> not_write e = true.
Proof. by destruct e as [| [] | | |]. Qed.

Lemma all_cached_kept cfg s s' :
  cache_kept s s' -> all_cached cfg s -> all_cached cfg s'.
Proof.
  intros Hk Hall n pc Hpc. destruct (Hall n pc Hpc) as [v Hv]. exists v.
  by apply Hk.
Qed.

Section Reuse.
Context (E : Env) (cfg : cmd_config).

Lemma get_job_path_cache_kept : keeps cache_kept (get_job_path E cfg).
Proof. unfold get_job_path. cache_kept_tac. Qed.

Lemma get_job_file_path_cache_kept f :
  keeps cache_kept (get_job_file_path E cfg f).
Proof. unfold get_job_file_path. cache_kept_tac. apply get_job_path_cache_kept. Qed.

Lemma get_params_cache_kept names kwargs :
  keeps cache_kept (get_params E cfg names kwargs).
Proof. intros s x s' H n v Hn. by eapply get_params_cache_mono. Qed.

Lemma process_input_item_cache_kept item env kwargs :
  keeps cache_kept (process_input_item E cfg item env kwargs).
Proof.
  unfold process_input_item. destruct item; cache_kept_tac;
    apply get_params_cache_kept.
Qed.

Lemma prepare_cmd_cache_kept kwargs :
  keeps cache_kept (prepare_cmd E cfg kwargs).
Proof.
  unfold prepare_cmd. cache_kept_tac;
    auto using process_input_item_cache_kept, get_job_path_cache_kept.
Qed.

Lemma json_log_info_cache_kept d : keeps cache_kept (json_log_info E d).
Proof. unfold json_log_info, now. cache_kept_tac. Qed.

Lemma read_file_cache_kept p : keeps cache_kept (read_file p).
Proof. unfold read_file. cache_kept_tac. Qed.

Lemma decode_cache_kept b : keeps cache_kept (decode b).
Proof. unfold decode. cache_kept_tac. Qed.

Lemma execute_spawn_cache_kept cmd :
  keeps cache_kept (execute_spawn E cfg cmd).
Proof.
  unfold execute_spawn, now. cache_kept_tac;
    auto using decode_cache_kept, json_log_info_cache_kept,
      get_job_path_cache_kept.
Qed.

Lemma return_file_list_cache_kept d :
  keeps cache_kept (return_file_list E cfg d).
Proof.
  unfold return_file_list, read_one. cache_kept_tac;
    auto using read_file_cache_kept, get_job_file_path_cache_kept,
      get_job_path_cache_kept.
Qed.

Lemma return_entry_cache_kept out err item r :
  keeps cache_kept (return_entry E cfg out err item r).
Proof.
  unfold return_entry, item_key. destruct item.
  - cache_kept_tac; apply decode_cache_kept.
  - cache_kept_tac;
      auto using read_file_cache_kept, return_file_list_cache_kept,
        get_job_file_path_cache_kept.
Qed.

Lemma return_loop_cache_kept out err items r :
  keeps cache_kept (return_loop E cfg out err items r).
Proof.
  revert r. induction items as [|i items IH]; intros r; cbn [return_loop].
  - cache_kept_tac.
  - apply keeps_bind; [keeps_side| |auto]. apply return_entry_cache_kept.
Qed.

Lemma execute_cache_kept cmd kwargs :
  keeps cache_kept (execute E cfg cmd kwargs).
Proof.
  unfold execute. cache_kept_tac;
    auto using execute_spawn_cache_kept, return_loop_cache_kept.
Qed.

Lemma cleanup_cache_kept :
  keeps cache_kept (clean_job_path E cfg ;; modify (set_job_id None)).
Proof.
  unfold clean_job_path. cache_kept_tac. apply get_job_path_cache_kept.
Qed.

Lemma ensure_job_path_cache_kept : keeps cache_kept (ensure_job_path E cfg).
Proof.
  unfold ensure_job_path. cache_kept_tac. apply get_job_path_cache_kept.
Qed.

(** A run that returns leaves every declared parameter in the cache. *)
Lemma run_leaves_all_cached kwargs s v s' :
  run E cfg kwargs s = (Ok v, s') -> all_cached cfg s'.
Proof.
  intros Hrun. unfold run in Hrun. unfold bind at 1 in Hrun.
  rewrite job_context_eq in Hrun. unfold try_finally in Hrun.
  destruct ((ensure_job_path E cfg;; run_body E cfg kwargs) (entered E s))
    as [r1 s1] eqn:Hbody.
  destruct ((clean_job_path E cfg;; modify (set_job_id None)) s1)
    as [[[]|e] s2] eqn:Hclean; [|done].
  destruct r1 as [res|e]; [|done]. injection Hrun as _ <-.
  eapply all_cached_kept; [by eapply cleanup_cache_kept|].
  apply bind_Ok_inv in Hbody as ([] & s0 & _ & Hbody).
  unfold run_body in Hbody.
  apply bind_Ok_inv in Hbody as ([] & s3 & Hpre & Hbody).
  apply preprocess_params_all_cached in Hpre.
  apply bind_Ok_inv in Hbody as (cmd & s4 & Hcmd & Hbody).
  apply prepare_cmd_cache_kept in Hcmd.
  apply bind_Ok_inv in Hbody as (job & s5 & Hjob & Hbody).
  revert Hjob. unfold gets. intros [= _ <-].
  apply bind_Ok_inv in Hbody as ([] & s6 & Hlog & Hbody).
  apply json_log_info_cache_kept in Hlog.
  apply execute_cache_kept in Hbody.
  eauto using all_cached_kept.
Qed.

Lemma preprocess_params_settled kwargs :
  keeps (settled cfg) (preprocess_params E cfg kwargs).
Proof.
  unfold preprocess_params. settled_tac. apply get_params_settled.
Qed.

Lemma execute_spawn_not_write cmd :
  keeps (adds not_write) (execute_spawn E cfg cmd).
Proof.
  unfold execute_spawn, now. adds_tac;
    auto using decode_adds, get_job_path_adds.
  apply json_log_info_adds. by intros [| | | |].
Qed.

Lemma execute_not_write cmd kwargs :
  keeps (adds not_write) (execute E cfg cmd kwargs).
Proof.
  unfold execute. adds_tac; auto using execute_spawn_not_write.
  intros s x s' H. eapply adds_mono; [apply after_spawn_not_write|].
  by eapply return_loop_adds.
Qed.

(** From a state where everything declared is cached, the block of a run
    opens no file for writing. *)
Lemma run_body_not_write kwargs s x s' :
  all_cached cfg s ->
  run_body E cfg kwargs s = (x, s') -> adds not_write s s'.
Proof.
  intros Hall. unfold run_body. unfold bind at 1.
  destruct (preprocess_params E cfg kwargs s) as [r1 s1] eqn:Hpre.
  destruct (preprocess_params_settled _ _ _ _ Hpre Hall) as (Hall1 & _ & Ht1).
  assert (H1 : adds not_write s s1) by (by apply adds_same_trace).
  destruct r1 as [[]|e]; [|by intros [= _ <-]].
  unfold bind at 1.
  destruct (prepare_cmd E cfg kwargs s1) as [r2 s2] eqn:Hcmd.
  destruct (prepare_cmd_settled _ _ _ _ _ _ Hcmd Hall1) as (_ & _ & Ht2).
  assert (H2 : adds not_write s s2).
  { eapply adds_trans; [exact H1|]. by apply adds_same_trace. }
  destruct r2 as [cmd|e]; [|by intros [= _ <-]].
  intros H. eapply adds_trans; [exact H2|]. revert H.
  generalize s2 x s'. change (keeps (adds not_write)
    (job <- gets job_id ;; json_log_info E (LogCmd job cmd) ;;
     execute E cfg cmd kwargs)).
  adds_tac; auto using execute_not_write.
  apply json_log_info_adds. by intros [| | | |].
Qed.

(** X23.  The cache outlives the job: after a run that returned, a
    second run on the same session opens no file for writing, whatever
    values it is given; its file parameters are answered with the names
    cached by the first run. *)
Theorem second_run_writes_no_file kwargs kwargs' s v s1 r s2 :
  run E cfg kwargs s = (Ok v, s1) ->
  run E cfg kwargs' s1 = (r, s2) ->
  exists evs,
    trace s2 = trace s1 ++ evs /\ Forall (fun e => is_write e = false) evs.
Proof.
  intros Hall%run_leaves_all_cached Hrun.
  assert (H : adds not_write s1 s2).
  { unfold run in Hrun. unfold bind at 1 in Hrun.
    rewrite job_context_eq in Hrun. unfold try_finally in Hrun.
    destruct ((ensure_job_path E cfg;; run_body E cfg kwargs') (entered E s1))
      as [r1 s3] eqn:Hbody.
    assert (H3 : adds not_write s1 s3).
    { eapply adds_trans; [by apply (adds_same_trace _ s1 (entered E s1))|].
      revert Hbody. unfold bind at 1.
      destruct (ensure_job_path E cfg (entered E s1)) as [r0 s0] eqn:Hens.
      assert (H0 : adds not_write (entered E s1) s0).
      { revert Hens. generalize (entered E s1) r0 s0.
        change (keeps (adds not_write) (ensure_job_path E cfg)).
        unfold ensure_job_path. adds_tac. apply get_job_path_adds. }
      destruct r0 as [[]|e]; [|by intros [= _ <-]].
      intros Hb. eapply adds_trans; [exact H0|].
      eapply run_body_not_write; [|exact Hb].
      eapply all_cached_kept; [by eapply ensure_job_path_cache_kept|].
      exact Hall. }
    destruct ((clean_job_path E cfg;; modify (set_job_id None)) s3)
      as [r4 s4] eqn:Hclean.
    assert (H4 : adds not_write s3 s4).
    { revert Hclean. generalize s3 r4 s4.
      change (keeps (adds not_write)
                (clean_job_path E cfg;; modify (set_job_id None))).
      unfold clean_job_path. adds_tac. apply get_job_path_adds. }
    assert (s2 = s4) as ->.
    { destruct r4 as [[]|e]; destruct r1; by injection Hrun as _ <-. }
    eauto using adds_trans. }
  destruct H as (evs & Ht & Hf). exists evs. split; [done|].
  eapply Forall_impl; [exact Hf|]. intros e He. unfold not_write in He.
  by apply negb_true_iff.
Qed.
End Reuse.

(** * The further properties at work on the examples *)

(** The scratch directory of [job1] is made under [/w]. *)
Lemma ensure_job_path_makes_directory_witness :
  let s' := (ensure_job_path env_ok cat_cfg (in_job base_tree)).2 in
  isdir (fs s') (proc_cwd s') ("/w/" +:+ job1) = true
  /\ fs (in_job base_tree) ⊆ fs s'
  /\ trace s' = trace (in_job base_tree) ++ [EvMakedirs ("/w/" +:+ job1)].
Proof.
  apply (ensure_job_path_makes_directory env_ok cat_cfg (in_job base_tree) _
           job1 ("/w/" +:+ job1)).
  - reflexivity.
  - reflexivity.
  - reflexivity.
  - vm_compute. reflexivity.
Defined.

(** Removing the scratch directory of [job1] leaves [/w/secret] alone. *)
Lemma clean_job_path_stays_inside_witness :
  let r := clean_job_path env_ok cat_cfg (in_job job_tree) in
  r.1 = Ok tt
  /\ (fs r.2 !! ["secret"; "w"] = fs (in_job job_tree) !! ["secret"; "w"]
      \/ fs r.2 !! ["secret"; "w"] = None
         /\ exists k,
              resolve (fs (in_job job_tree)) (proc_cwd (in_job job_tree))
                ("/w/" +:+ job1) = Some k
              /\ is_dir_at (fs (in_job job_tree)) k = true
              /\ k `suffix_of` ["secret"; "w"]).
Proof.
  destruct (clean_job_path_stays_inside env_ok cat_cfg (in_job job_tree)
              ("/w/" +:+ job1) eq_refl) as (s' & Heq & H).
  cbv zeta. rewrite Heq. split; [reflexivity|]. apply H.
Defined.

(** Removing the scratch directory of [job1] leaves the file of [job2]. *)
Lemma cleanup_spares_other_jobs_witness :
  exists s',
    clean_job_path env_ok cat_cfg (in_job two_jobs_tree) = (Ok tt, s')
    /\ fs s' !! ["c.txt"; job2; "w"]
       = fs (in_job two_jobs_tree) !! ["c.txt"; job2; "w"].
Proof.
  refine (cleanup_spares_other_jobs env_ok cat_cfg (in_job two_jobs_tree)
            job1 job2 ("/w/" +:+ job1) ("/w/" +:+ job2) [job2; "w"]
            ["c.txt"; job2; "w"] eq_refl eq_refl eq_refl _ eq_refl eq_refl _ _).
  - decide_it.
  - vm_compute. reflexivity.
  - decide_it.
Defined.

(** A complete run of [cat_cfg]. *)
Lemma run_trace_shape_witness :
  let r := run env_ok cat_cfg full_kwargs (fresh_session base_tree) in
  exists pre post,
    trace r.2
    = trace (fresh_session base_tree)
      ++ EvMakedirs ("/w/" +:+ job1) :: pre ++ post
      ++ [EvRmtree ("/w/" +:+ job1)]
    /\ Forall (fun e => before_spawn e = true) pre
    /\ spawned_once ("/w/" +:+ job1) post
    /\ post <> []
    /\ job_id r.2 = None.
Proof.
  destruct (run_trace_shape env_ok cat_cfg full_kwargs
              (fresh_session base_tree) _ _ ("/w/" +:+ job1)
              ltac:(vm_compute; reflexivity) (run_pair _ _))
    as (pre & post & Ht & Fp & Sp & Hok & Hj).
  exists pre, post. repeat split; try assumption.
  eapply Hok. vm_compute. reflexivity.
Defined.

(** The result of that run carries the identifier of the job. *)
Lemma run_result_names_job_witness :
  let r := run env_ok cat_cfg full_kwargs (fresh_session base_tree) in
  exists b res,
    r.1 = Ok (b, res) /\ b = true
    /\ dict_get (VStr "job_id") res
       = Some (RJobId (Some (next_job_id env_ok (fresh_session base_tree))))
    /\ job_id r.2 = None.
Proof.
  cbv zeta.
  destruct (run env_ok cat_cfg full_kwargs (fresh_session base_tree)).1
    as [[b res]|e] eqn:H1; [|vm_compute in H1; discriminate H1].
  exists b, res. split; [reflexivity|].
  apply (run_result_names_job env_ok cat_cfg full_kwargs
           (fresh_session base_tree) b res).
  rewrite <- H1. apply run_pair.
Defined.

(** [u] is passed, [v] is not, and neither is declared. *)
Lemma undeclared_names_pass_through_witness :
  exists r,
    get_params env_ok cat_cfg ["u"; "v"] u_kwargs (in_job job_tree)
    = (Ok r, set_cache (r ∪ _params_cache (in_job job_tree)) (in_job job_tree))
    /\ r !! "u" = Some (VInt 7) /\ r !! "v" = None.
Proof.
  destruct (undeclared_names_pass_through env_ok cat_cfg ["u"; "v"]
              u_kwargs (in_job job_tree)
              ltac:(vm_compute; reflexivity))
    as (r & Heq & Hr).
  - repeat constructor; vm_compute; reflexivity.
  - exists r. split; [exact Heq|]. split.
    + rewrite (Hr "u"). vm_compute. reflexivity.
    + rewrite (Hr "v"). vm_compute. reflexivity.
Defined.


(** After the pre-resolution pass of [cat_cfg] the command line is built
    from the cache. *)
Lemma prepare_cmd_after_preprocess_is_quiet_witness :
  let s1 := (preprocess_params env_ok cat_cfg full_kwargs (in_job job_tree)).2 in
  let s2 := (prepare_cmd env_ok cat_cfg full_kwargs s1).2 in
  fs s2 = fs s1 /\ trace s2 = trace s1.
Proof.
  cbv zeta.
  apply (prepare_cmd_after_preprocess_is_quiet env_ok cat_cfg full_kwargs
           full_kwargs (in_job job_tree) _ _ _
           ltac:(vm_compute; reflexivity) (run_pair _ _)).
Defined.

(** [echo $$HOME] and [echo $$HOME $cwd]. *)
Lemma dollar_escape_kept_without_placeholder_witness :
  process_input_item env_ok cat_cfg (VStr ("echo " +:+ "$$" +:+ "HOME "))
    cwd_env ∅ (in_job job_tree)
  = (Ok ("echo " +:+ "$$" +:+ "HOME "), in_job job_tree)
  /\ process_input_item env_ok cat_cfg
       (VStr ("echo " +:+ "$$" +:+ "HOME " +:+ "$" +:+ "cwd"))
       cwd_env ∅ (in_job job_tree)
     = (Ok ("echo " +:+ "$" +:+ "HOME " +:+ py_str (VStr "/w/j")),
        in_job job_tree).
Proof.
  apply (dollar_escape_kept_without_placeholder env_ok cat_cfg "echo " "HOME "
           "cwd" (VStr "/w/j") cwd_env ∅ (in_job job_tree)).
  - repeat constructor.
  - reflexivity.
  - reflexivity.
  - reflexivity.
  - reflexivity.
  - reflexivity.
  - reflexivity.
  - reflexivity.
Defined.

(** The caller passes [cwd]. *)
Lemma caller_value_shadows_cmd_env_witness :
  process_input_item env_ok cat_cfg (VStr ("ls " +:+ "$" +:+ "cwd" +:+ "/x"))
    cwd_env cwd_kwargs (in_job job_tree)
  = (Ok ("ls " +:+ py_str (VStr "/etc") +:+ "/x"),
     set_cache (<["cwd" := VStr "/etc"]> (_params_cache (in_job job_tree)))
       (in_job job_tree)).
Proof.
  apply (caller_value_shadows_cmd_env env_ok cat_cfg "ls " "cwd" "/x"
           (VStr "/etc") cwd_env cwd_kwargs
           (in_job job_tree)).
  - repeat constructor.
  - reflexivity.
  - reflexivity.
  - reflexivity.
  - reflexivity.
  - reflexivity.
  - reflexivity.
  - reflexivity.
Defined.

(** [$a ${b} $a $$ $]: two identifiers. *)
Lemma get_identifiers_lists_each_name_once_witness :
  NoDup ["a"; "b"] /\ Forall (fun id => is_identifier id = true) ["a"; "b"].
Proof.
  destruct (get_identifiers_lists_each_name_once "$a ${b} $a $$ $" ["a"; "b"]
              eq_refl) as (H1 & H2 & _).
  split; assumption.
Defined.

(** The mapping may hold more than the template asks for. *)
Lemma safe_substitute_reads_identifiers_only_witness :
  safe_substitute "echo $a" az_mapping
  = safe_substitute "echo $a" a_mapping.
Proof.
  apply (safe_substitute_reads_identifiers_only "echo $a" ["a"]
           az_mapping a_mapping eq_refl).
  repeat constructor.
Defined.

Lemma to_base64_is_lossless_witness :
  b64decode (to_base64 "hello") = Some "hello".
Proof. apply (proj1 (to_base64_is_lossless "hello")). Defined.

(** [f] is uploaded and returned under the name [copy]. *)
Lemma uploaded_file_is_read_back_witness :
  exists s1 p,
    get_params env_ok cat_cfg ["f"] full_kwargs (in_job job_tree)
    = (Ok {["f" := VStr "f"]}, s1)
    /\ (return_entry env_ok cat_cfg "" "" (RetDict copy_entry) [] s1).1
       = Ok (dict_set (VStr "copy") (RPayload p) [])
    /\ b64decode (body p) = Some "hello".
Proof.
  destruct (uploaded_file_is_read_back env_ok cat_cfg "f"
              (ParamConfig VNone (VStr "file") VNone) full_kwargs
              (in_job job_tree) ("/w/" +:+ job1) ["f"; job1; "w"] "hello" "f"
              copy_entry (VStr "copy"))
    as (s1 & p & H1 & H2 & H3).
  - reflexivity.
  - reflexivity.
  - reflexivity.
  - reflexivity.
  - reflexivity.
  - reflexivity.
  - reflexivity.
  - reflexivity.
  - vm_compute. reflexivity.
  - reflexivity.
  - reflexivity.
  - reflexivity.
  - exists s1, p. split; [exact H1|]. split; [apply H2|exact H3].
Defined.

(** The process writes a byte that is not UTF-8 to stdout. *)
Lemma structured_output_keeps_raw_bytes_witness :
  return_entry env_ok cat_cfg (String "255"%char "") "" (RetDict raw_entry) []
    (in_job job_tree)
  = (Ok (dict_set (VStr "raw")
           (RPayload (mk_payload raw_entry (String "255"%char ""))) []),
     in_job job_tree)
  /\ b64decode (body (mk_payload raw_entry (String "255"%char "")))
     = Some (String "255"%char "")
  /\ return_entry env_ok cat_cfg (String "255"%char "") ""
       (RetVal (VStr "stdout")) [] (in_job job_tree)
     = (Raise UnicodeDecodeError, in_job job_tree).
Proof.
  destruct (structured_output_keeps_raw_bytes env_ok cat_cfg raw_entry
              (VStr "raw") "stdout" (String "255"%char "") "" []
              (in_job job_tree) eq_refl eq_refl (or_introl eq_refl))
    as (H1 & H2 & H3).
  split; [exact H1|]. split; [exact H2|]. apply H3. reflexivity.
Defined.

(** A request field named [cmd]. *)
Lemma reserved_name_stops_run_witness :
  let r := run env_ok cat_cfg (<["cmd" := VStr "x"]> full_kwargs)
             (fresh_session base_tree) in
  (exists e, r.1 = Raise e) /\ spawn_free (fresh_session base_tree) r.2.
Proof.
  refine (reserved_name_stops_run env_ok cat_cfg
            (<["cmd" := VStr "x"]> full_kwargs) (fresh_session base_tree) _ _
            _ (run_pair _ _)).
  right. left. vm_compute. eexists. reflexivity.
Defined.

(** A run of the command with [params: null]. *)
Lemma malformed_command_never_returns_witness :
  let r := run env_ok null_params_cfg ∅ (fresh_session base_tree) in
  (exists e, r.1 = Raise e) /\ spawn_free (fresh_session base_tree) r.2.
Proof.
  apply (proj1 (malformed_command_never_returns env_ok null_params_cfg ∅
                  (fresh_session base_tree) _ _ (run_pair _ _))).
  left. reflexivity.
Defined.

(** Two uploads named [f] and a JSON field [f]. *)
Lemma upload_overrides_json_field_witness :
  cmd_args_of fg_json
    [Upload "f" 1 "A"; Upload "f" 1 "B"] !! "f"
  = Some (VBytes "B").
Proof.
  rewrite (upload_overrides_json_field
             fg_json
             [Upload "f" 1 "A"; Upload "f" 1 "B"] "f").
  vm_compute. reflexivity.
Defined.

(** The registry does not know [nope]. *)
Lemma web_errors_leave_no_trace_witness :
  process_web_cmd env_ok sample_registry "nope" ∅ [] (fresh_session base_tree)
  = (Ok (false, WebError 1 ("Command " +:+ "nope" +:+ " not found.")),
     fresh_session base_tree).
Proof.
  apply (proj1 (web_errors_leave_no_trace env_ok sample_registry "nope" ∅ []
                  (fresh_session base_tree))).
  reflexivity.
Defined.

(** [/conf] holds [a.json] and [b.yml], both named [c], and a [README]:
    the document of [b.yml] is the one registered. *)
Lemma load_all_configs_registers_every_file_witness :
  exists docs,
    Forall2 (fun f d =>
               loaded_from text_doc text_doc (fresh_session dup_tree) "/conf"
                 f d.2
               /\ head_name d.2 = Ok d.1)
      ["a.json"; "b.yml"] docs
    /\ [(VStr "c", "c2")] = foldl (fun acc d => dict_set d.1 d.2 acc) [] docs
    /\ dict_get (VStr "c") [(VStr "c", "c2")]
       = snd <$> last (List.filter (fun d => py_eq d.1 (VStr "c")) docs).
Proof.
  destruct (load_all_configs_registers_every_file text_doc text_doc head_name
              "/conf" (fresh_session dup_tree) [(VStr "c", "c2")]
              (load_all_configs text_doc text_doc head_name "/conf"
                 (fresh_session dup_tree)).2)
    as (k & docs & Hk & _ & Hdocs & Hcfg & Hget).
  - vm_compute. reflexivity.
  - vm_compute in Hk. injection Hk as <-. exists docs.
    split; [exact Hdocs|]. split; [exact Hcfg|exact (Hget (VStr "c"))].
Defined.

(** A JSON part and a file, under a header in mixed case. *)
Lemma multipart_request_is_split_witness :
  [Upload "f" 5 "hello"] = omap (part_file false) (map snd sample_form)
  /\ match last (omap (part_file true) (map snd sample_form)) with
     | Some file => text_doc (up_file file) = Ok "{a: 1}"
     | None => "{a: 1}" = "{}"
     end.
Proof.
  apply (multipart_request_is_split "{}" text_doc sample_request sample_form
           "{a: 1}" [Upload "f" 5 "hello"]).
  - reflexivity.
  - reflexivity.
  - reflexivity.
Defined.

(** [g] is missing: the run raises what the pre-resolution pass raised. *)
Lemma run_raises_what_block_raises_witness :
  let r := run env_ok cat_cfg no_g_kwargs (fresh_session base_tree) in
  exists r1 s1,
    (ensure_job_path env_ok cat_cfg ;; run_body env_ok cat_cfg no_g_kwargs)
      (entered env_ok (fresh_session base_tree)) = (r1, s1)
    /\ r.1 = run_result r1.
Proof.
  apply (run_raises_what_block_raises env_ok cat_cfg no_g_kwargs
           (fresh_session base_tree) _ _ (run_pair _ _)).
Defined.

(** A second run of [cat_cfg] on the session of the first, without [g]
    and without [f]. *)
Lemma second_run_writes_no_file_witness :
  let s1 := (run env_ok cat_cfg full_kwargs (fresh_session base_tree)).2 in
  let r2 := run env_ok cat_cfg ∅ s1 in
  exists evs,
    trace r2.2 = trace s1 ++ evs /\ Forall (fun e => is_write e = false) evs.
Proof.
  cbv zeta.
  destruct (run env_ok cat_cfg full_kwargs (fresh_session base_tree)).1
    as [v|e] eqn:H1; [|vm_compute in H1; discriminate H1].
  refine (second_run_writes_no_file env_ok cat_cfg full_kwargs ∅
            (fresh_session base_tree) v
            (run env_ok cat_cfg full_kwargs (fresh_session base_tree)).2
            _ _ _ (run_pair _ _)).
  rewrite <- H1. apply run_pair.
Defined.
